(** * boundation: the OPNsense unbound provider for external-dns

    A shallow embedding of [internal/unbound] (records.go, cache.go,
    provider.go) and the properties of its reconciliation and
    ownership-encoding engine.

    Go strings are byte sequences: they are modelled as [string], whose
    characters are the 256 values of [ascii].  Slices are lists.  The HTTP
    client is an environment the provider talks to through explicit state
    passing: every call the provider issues is appended to a trace. *)

From Stdlib Require Import ZArith Lia Ascii String List Bool.
From stdpp Require Import gmap strings.
Import ListNotations.

Local Open Scope Z_scope.

Definition isSome {A : Type} (o : option A) : bool :=
  match o with Some _ => true | None => false end.

(** ** The parts of Go's [strings] package the provider uses *)

Module GoStrings.

(** [strings.HasPrefix(s, prefix)]. *)
Definition HasPrefix (s pfx : string) : bool := String.prefix pfx s.

(** [s] without its prefix [pfx], when it has it. *)
Fixpoint CutPrefix (s pfx : string) : option string :=
  match pfx, s with
  | EmptyString, _ => Some s
  | String a pfx', String b s' =>
      if Ascii.eqb a b then CutPrefix s' pfx' else None
  | String _ _, EmptyString => None
  end.

(** [strings.Replace(s, old, new, 1)]: the first occurrence of [old], from
    the left, is replaced. *)
Fixpoint Replace1 (s old new : string) : string :=
  match CutPrefix s old with
  | Some rest => new +:+ rest
  | None =>
      match s with
      | EmptyString => EmptyString
      | String c s' => String c (Replace1 s' old new)
      end
  end.

(** [strings.Split(s, sep)] for a separator of one byte, which is how the
    provider calls it (["."] and [" "]).  The result is never empty. *)
Fixpoint Split (s : string) (sep : ascii) : list string :=
  match s with
  | EmptyString => [EmptyString]
  | String c s' =>
      if Ascii.eqb c sep then EmptyString :: Split s' sep
      else match Split s' sep with
           | h :: t => String c h :: t
           | [] => [String c EmptyString]
           end
  end.

(** [strings.Join(elems, sep)]. *)
Definition Join (elems : list string) (sep : string) : string :=
  String.concat sep elems.

(** The runes [unicode.IsSpace] accepts, by their UTF-8 encodings: the
    ASCII ones ['\t' '\n' '\v' '\f' '\r' ' '], U+0085, U+00A0, U+1680,
    U+2000..U+200A, U+2028, U+2029, U+202F, U+205F and U+3000.  Each is
    given as its bytes in order. *)
Definition asciiSpace (c : ascii) : bool :=
  let n := Z.of_N (N_of_ascii c) in
  ((9 <=? n) && (n <=? 13)) || (n =? 32).

Definition space2 (a b : ascii) : bool :=
  let x := Z.of_N (N_of_ascii a) in
  let y := Z.of_N (N_of_ascii b) in
  (x =? 194) && ((y =? 133) || (y =? 160)).

Definition space3 (a b c : ascii) : bool :=
  let x := Z.of_N (N_of_ascii a) in
  let y := Z.of_N (N_of_ascii b) in
  let z := Z.of_N (N_of_ascii c) in
  ((x =? 225) && (y =? 154) && (z =? 128))
  || ((x =? 226) && (y =? 128)
      && (((128 <=? z) && (z <=? 138)) || (z =? 168) || (z =? 169) || (z =? 175)))
  || ((x =? 226) && (y =? 129) && (z =? 159))
  || ((x =? 227) && (y =? 128) && (z =? 128)).

(** [strings.TrimLeftFunc(s, unicode.IsSpace)] on the bytes of [s]: runes
    are read from the left while they are white space. *)
Fixpoint trimLeft (s : list ascii) : list ascii :=
  match s with
  | a :: r1 =>
      if asciiSpace a then trimLeft r1
      else match r1 with
           | b :: r2 =>
               if space2 a b then trimLeft r2
               else match r2 with
                    | c :: r3 => if space3 a b c then trimLeft r3 else s
                    | [] => s
                    end
           | [] => s
           end
  | [] => s
  end.

(** [strings.TrimRightFunc(s, unicode.IsSpace)], on the reversed bytes:
    the last rune of [s] is read from the end backwards. *)
Fixpoint trimRightRev (r : list ascii) : list ascii :=
  match r with
  | a :: r1 =>
      if asciiSpace a then trimRightRev r1
      else match r1 with
           | b :: r2 =>
               if space2 b a then trimRightRev r2
               else match r2 with
                    | c :: r3 => if space3 c b a then trimRightRev r3 else r
                    | [] => r
                    end
           | [] => r
           end
  | [] => r
  end.

(** [strings.TrimSpace(s)]: leading and trailing white space removed. *)
Definition TrimSpace (s : string) : string :=
  string_of_list_ascii
    (rev (trimRightRev (rev (trimLeft (list_ascii_of_string s))))).

End GoStrings.

(** ** [encoding/base64], the standard encoding with padding *)

Module Base64.

(** A byte as a number, and back ([byte(v)] keeps the low eight bits). *)
Definition byte_val (c : ascii) : Z := Z.of_N (N_of_ascii c).
Definition byte_of (v : Z) : ascii := ascii_of_N (Z.to_N (Z.land v 255)).

Definition encodeStd : string :=
  "ABCDEFGHIJKLMNOPQRSTUVWXYZabcdefghijklmnopqrstuvwxyz0123456789+/".

Definition padChar : ascii := "="%char.

(** [enc.encode[v]] for a six-bit [v]. *)
Definition encode (v : Z) : ascii :=
  match String.get (Z.to_nat v) encodeStd with
  | Some c => c
  | None => "A"%char
  end.

(** [enc.decodeMap[c]]: the six-bit value of [c], [None] where the table
    holds 0xff. *)
Fixpoint index_of (c : ascii) (tbl : string) (i : Z) : option Z :=
  match tbl with
  | EmptyString => None
  | String d tbl' => if Ascii.eqb c d then Some i else index_of c tbl' (i + 1)
  end.

Definition decodeMap (c : ascii) : option Z := index_of c encodeStd 0.

(** [EncodeToString]: three bytes give four characters; a last block of
    one or two bytes is padded with ['=']. *)
Fixpoint EncodeToString (src : string) : string :=
  match src with
  | EmptyString => EmptyString
  | String a EmptyString =>
      let val := Z.shiftl (byte_val a) 16 in
      String (encode (Z.land (Z.shiftr val 18) 63))
        (String (encode (Z.land (Z.shiftr val 12) 63))
           (String padChar (String padChar EmptyString)))
  | String a (String b EmptyString) =>
      let val := Z.lor (Z.shiftl (byte_val a) 16) (Z.shiftl (byte_val b) 8) in
      String (encode (Z.land (Z.shiftr val 18) 63))
        (String (encode (Z.land (Z.shiftr val 12) 63))
           (String (encode (Z.land (Z.shiftr val 6) 63))
              (String padChar EmptyString)))
  | String a (String b (String c rest)) =>
      let val := Z.lor (Z.lor (Z.shiftl (byte_val a) 16)
                              (Z.shiftl (byte_val b) 8)) (byte_val c) in
      String (encode (Z.land (Z.shiftr val 18) 63))
        (String (encode (Z.land (Z.shiftr val 12) 63))
           (String (encode (Z.land (Z.shiftr val 6) 63))
              (String (encode (Z.land val 63)) (EncodeToString rest))))
  end.

Definition isNewline (c : ascii) : bool :=
  Ascii.eqb c "010"%char || Ascii.eqb c "013"%char.

(** The loops [for si < len(src) && (src[si] == '\n' || src[si] == '\r')]. *)
Fixpoint skipNewlines (s : string) : string :=
  match s with
  | String c s' => if isNewline c then skipNewlines s' else s
  | EmptyString => s
  end.

(** The value [val] assembled from the six-bit digits read so far. *)
Definition assemble (d0 d1 d2 d3 : Z) : Z :=
  Z.lor (Z.lor (Z.lor (Z.shiftl d0 18) (Z.shiftl d1 12)) (Z.shiftl d2 6)) d3.

(** [Decode] with [decodeQuantum]: [dbuf] holds the digits of the quantum
    being read.  New lines are skipped anywhere; padding is accepted only
    to complete the last quantum, followed by new lines at most; the
    decoding is not strict about the unused low bits. *)
Fixpoint decodeFrom (src : string) (dbuf : list Z) : option string :=
  match src with
  | EmptyString =>
      match dbuf with
      | [] => Some EmptyString
      | _ => None
      end
  | String c rest =>
      match decodeMap c with
      | Some v =>
          match dbuf with
          | [d0; d1; d2] =>
              let val := assemble d0 d1 d2 v in
              match decodeFrom rest [] with
              | Some out =>
                  Some (String (byte_of (Z.shiftr val 16))
                          (String (byte_of (Z.shiftr val 8))
                             (String (byte_of val) out)))
              | None => None
              end
          | _ => decodeFrom rest (dbuf ++ [v])
          end
      | None =>
          if isNewline c then decodeFrom rest dbuf
          else if Ascii.eqb c padChar then
            match dbuf with
            | [d0; d1] =>
                match skipNewlines rest with
                | String p rest' =>
                    if Ascii.eqb p padChar then
                      match skipNewlines rest' with
                      | EmptyString =>
                          let val := assemble d0 d1 0 0 in
                          Some (String (byte_of (Z.shiftr val 16)) EmptyString)
                      | String _ _ => None
                      end
                    else None
                | EmptyString => None
                end
            | [d0; d1; d2] =>
                match skipNewlines rest with
                | EmptyString =>
                    let val := assemble d0 d1 d2 0 in
                    Some (String (byte_of (Z.shiftr val 16))
                            (String (byte_of (Z.shiftr val 8)) EmptyString))
                | String _ _ => None
                end
            | _ => None
            end
          else None
      end
  end.

(** [DecodeString]: [Some] bytes when [err == nil]. *)
Definition DecodeString (s : string) : option string := decodeFrom s [].

(** The bytes [Decode] does not reject where it meets them: the digits of
    the alphabet, new lines and the padding. *)
Definition accepted (c : ascii) : bool :=
  isSome (decodeMap c) || isNewline c || Ascii.eqb c padChar.

(** A text made of accepted bytes. *)
Definition accepted_string (s : string) : Prop :=
  Forall (fun c => accepted c = true) (list_ascii_of_string s).

(** [l] without the new lines it starts with. *)
Fixpoint dropNewlines (l : list ascii) : list ascii :=
  match l with
  | c :: r => if isNewline c then dropNewlines r else l
  | [] => []
  end.

End Base64.

(** ** Errors

    Go's [error] values as the provider builds them: the two sentinels of
    the package, errors that come out of the libraries ([net/http],
    [encoding/json], [io]), [fmt.Errorf] with one [%w] verb, and
    [errors.Join] of two errors. *)

Inductive fmt_arg : Type :=
| ArgString (s : string)
| ArgInt (n : Z).

Inductive error : Type :=
| ErrRequestFailed                       (* errors.New("request failed") *)
| ErrMarshalling                         (* errors.New("marshal response") *)
| LibErr (msg : string)
| Errorf (format : string) (args : list fmt_arg) (wrapped : error)
| JoinErr (e1 e2 : error).

Definition fmt_arg_eqb (a b : fmt_arg) : bool :=
  match a, b with
  | ArgString s, ArgString t => String.eqb s t
  | ArgInt n, ArgInt m => Z.eqb n m
  | _, _ => false
  end.

Fixpoint args_eqb (xs ys : list fmt_arg) : bool :=
  match xs, ys with
  | [], [] => true
  | x :: xs', y :: ys' => fmt_arg_eqb x y && args_eqb xs' ys'
  | _, _ => false
  end.

Fixpoint error_eqb (a b : error) : bool :=
  match a, b with
  | ErrRequestFailed, ErrRequestFailed => true
  | ErrMarshalling, ErrMarshalling => true
  | LibErr m, LibErr n => String.eqb m n
  | Errorf f xs e, Errorf g ys e' =>
      String.eqb f g && args_eqb xs ys && error_eqb e e'
  | JoinErr a1 a2, JoinErr b1 b2 => error_eqb a1 b1 && error_eqb a2 b2
  | _, _ => false
  end.

(** [errors.Is(err, target)]: [target] is [err] itself or is reached by
    unwrapping; a joined error unwraps to each of its parts. *)
Fixpoint errors_Is (err target : error) : bool :=
  error_eqb err target
  || match err with
     | Errorf _ _ wrapped => errors_Is wrapped target
     | JoinErr e1 e2 => errors_Is e1 target || errors_Is e2 target
     | _ => false
     end.

(** ** [sigs.k8s.io/external-dns]: endpoints and plans

    The types the provider receives and returns are those of the library it
    is a provider for: they are given with the fields and the methods the
    library declares.  The endpoints of a plan are only read, so that the
    pointers of the source are modelled by the endpoints themselves. *)

Module endpoint.

Definition RecordTypeA : string := "A".
Definition RecordTypeAAAA : string := "AAAA".
Definition RecordTypeTXT : string := "TXT".

(** Go tells a nil slice or map from an empty one that is not nil, and so
    does [cmp.Equal], which [Changes.HasChanges] calls.  A list or a finite
    map does not, so each field that is a slice or a map comes with a mark:
    [TargetsNil], [LabelsNil] and [ProviderSpecificNil] say whether the
    field, when it holds nothing, is nil.  The mark of a field that holds
    something says nothing. *)
Record Endpoint : Type := {
  DNSName : string;
  Targets : list string;
  RecordType : string;
  SetIdentifier : string;
  RecordTTL : Z;
  Labels : gmap string string;
  ProviderSpecific : list (string * string);
  TargetsNil : bool;
  LabelsNil : bool;
  ProviderSpecificNil : bool
}.

#[export] Instance Endpoint_eq_dec : EqDecision Endpoint.
Proof. solve_decision. Defined.

(** [endpoint.NewTargets(target)] with its one argument. *)
Definition NewTargets (target : string) : list string := [target].

(** [Targets.String()]. *)
Definition Targets_String (t : list string) : string := GoStrings.Join t ";".

End endpoint.
Import endpoint.

Module plan.

(** [Changes].  Its four fields are slices of pointers to endpoints.
    Everywhere but in [Create] the pointers are taken not to be nil, and
    are modelled by the endpoints themselves.  The pointers of [Create]
    are of a type [P]: the endpoints themselves for the provider, and
    pointers that may be nil for the command that builds them with
    [endpoint.NewEndpoint].  [UpdateOldNil] and [UpdateNewNil] are the marks
    of the two slices [cmp.Equal] compares; whether [Create] or [Delete]
    is nil is not observed. *)
Record Changes_ (P : Type) : Type := {
  Create : list P;
  UpdateOld : list Endpoint;
  UpdateNew : list Endpoint;
  Delete : list Endpoint;
  UpdateOldNil : bool;
  UpdateNewNil : bool
}.

Arguments Create {P} _.
Arguments UpdateOld {P} _.
Arguments UpdateNew {P} _.
Arguments Delete {P} _.
Arguments UpdateOldNil {P} _.
Arguments UpdateNewNil {P} _.
Arguments Build_Changes_ {P} _ _ _ _ _ _.

Abbreviation Changes := (Changes_ Endpoint).

(** ** [cmp.Equal], on the types of a plan

    Two slices are equal when both are nil or neither is, they are as
    long as each other and their elements are equal in turn; two maps when
    both are nil or neither is and they hold the same entries; two
    structures when their fields are equal; two pointers that are not nil
    when what they point to is. *)

Fixpoint elements_Equal {A : Type} (eq : A -> A -> bool) (x y : list A) : bool :=
  match x, y with
  | [], [] => true
  | a :: x', b :: y' => eq a b && elements_Equal eq x' y'
  | _, _ => false
  end.

Definition isNilSlice {A : Type} (mark : bool) (x : list A) : bool :=
  mark && match x with [] => true | _ :: _ => false end.

Definition slice_Equal {A : Type} (eq : A -> A -> bool)
  (xmark : bool) (x : list A) (ymark : bool) (y : list A) : bool :=
  Bool.eqb (isNilSlice xmark x) (isNilSlice ymark y) && elements_Equal eq x y.

Definition isNilMap (mark : bool) (x : gmap string string) : bool :=
  mark && bool_decide (x = ∅).

Definition map_Equal (xmark : bool) (x : gmap string string)
  (ymark : bool) (y : gmap string string) : bool :=
  Bool.eqb (isNilMap xmark x) (isNilMap ymark y) && bool_decide (x = y).

Definition property_Equal (x y : string * string) : bool :=
  String.eqb (fst x) (fst y) && String.eqb (snd x) (snd y).

Definition Endpoint_Equal (x y : Endpoint) : bool :=
  String.eqb (DNSName x) (DNSName y)
  && slice_Equal String.eqb (TargetsNil x) (Targets x) (TargetsNil y) (Targets y)
  && String.eqb (RecordType x) (RecordType y)
  && String.eqb (SetIdentifier x) (SetIdentifier y)
  && (RecordTTL x =? RecordTTL y)
  && map_Equal (LabelsNil x) (Labels x) (LabelsNil y) (Labels y)
  && slice_Equal property_Equal (ProviderSpecificNil x) (ProviderSpecific x)
       (ProviderSpecificNil y) (ProviderSpecific y).

Definition cmp_Equal (xmark : bool) (x : list Endpoint)
  (ymark : bool) (y : list Endpoint) : bool :=
  slice_Equal Endpoint_Equal xmark x ymark y.

(** [Changes.HasChanges()]: something to create or delete, or an update
    whose two sides differ for [cmp.Equal]. *)
Definition HasChanges {P : Type} (c : Changes_ P) : bool :=
  if (0 <? Z.of_nat (length (Create c))) || (0 <? Z.of_nat (length (Delete c)))
  then true
  else negb (cmp_Equal (UpdateNewNil c) (UpdateNew c) (UpdateOldNil c) (UpdateOld c)).

End plan.
Import plan.

(** ** records.go *)

Definition DescriptionPrefix : string := "Managed by K8s external-dns".

Record Record_ : Type := {
  UUID : string;
  Hostname : string;
  Domain : string;
  Rr : string;
  Server : string;
  Enabled : string;
  Description : string
}.

Record SearchHostResp : Type := { Rows : list Record_ }.

Record AddOverrideRequest : Type := { Host : Record_ }.

Definition supportedType (recordType : string) : bool :=
  String.eqb recordType RecordTypeA || String.eqb recordType RecordTypeAAAA.

(** The second result of the source ([ok]) is [true] exactly when the
    records are returned. *)
Definition endpointsFromBase64Description (dnsName description : string)
  : option (list Endpoint) :=
  if negb (GoStrings.HasPrefix description DescriptionPrefix) then None
  else
    let stripped :=
      GoStrings.TrimSpace (GoStrings.Replace1 description DescriptionPrefix "") in
    match Base64.DecodeString stripped with
    | None => None
    | Some decoded =>
        Some [ {| DNSName := dnsName;
                  Targets := NewTargets decoded;
                  RecordType := RecordTypeTXT;
                  SetIdentifier := "";
                  RecordTTL := 0;
                  Labels := ∅;
                  ProviderSpecific := [];
                  TargetsNil := false; LabelsNil := true;
                  ProviderSpecificNil := true |};
               {| DNSName := "a-" +:+ dnsName;
                  Targets := NewTargets decoded;
                  RecordType := RecordTypeTXT;
                  SetIdentifier := "";
                  RecordTTL := 0;
                  Labels := ∅;
                  ProviderSpecific := [];
                  TargetsNil := false; LabelsNil := true;
                  ProviderSpecificNil := true |} ]
    end.

(** The endpoint a row is turned into, before the ownership records. *)
Definition marshalledEndpoint (row : Record_) : Endpoint :=
  {| DNSName := Hostname row +:+ "." +:+ Domain row;
     Targets := NewTargets (Server row);
     RecordType := hd EmptyString (GoStrings.Split (Rr row) " ");
     SetIdentifier := UUID row;
     RecordTTL := 0;
     Labels := if String.eqb (Description row) "" then ∅
               else {[ "description" := Description row ]};
     ProviderSpecific := [];
     TargetsNil := false; LabelsNil := String.eqb (Description row) "";
     ProviderSpecificNil := true |}.

Fixpoint ToEndpoints_rows (rows : list Record_) (out : list Endpoint)
  : list Endpoint :=
  match rows with
  | [] => out
  | row :: rows' =>
      let ep := marshalledEndpoint row in
      let out := out ++ [ep] in
      match endpointsFromBase64Description (DNSName ep) (Description row) with
      | Some txtEndpoints => ToEndpoints_rows rows' (out ++ txtEndpoints)
      | None => ToEndpoints_rows rows' out
      end
  end.

Definition ToEndpoints (shr : SearchHostResp) : list Endpoint :=
  ToEndpoints_rows (Rows shr) [].

(** ** cache.go: the ownership cache

    The methods of [cache] are given as functions on its one field that
    matters, the map [heritages]; the provider section below lifts
    [updateFromPlan] and [updateReadRecords] to the state of the provider. *)

Definition appendToDescription (toAppend : string) : string :=
  DescriptionPrefix +:+ " " +:+ toAppend.

Definition cacheFromSlice (l : list Endpoint) : gmap string string :=
  fold_left
    (fun (out : gmap string string) (create : Endpoint) =>
       if String.eqb (RecordType create) RecordTypeTXT then
         let out := <[ DNSName create := Targets_String (Targets create) ]> out in
         if GoStrings.HasPrefix (DNSName create) "a-" then
           let name := GoStrings.Replace1 (DNSName create) "a-" "" in
           <[ name := Targets_String (Targets create) ]> out
         else out
       else out)
    l ∅.

Definition removeRecords (heritages : gmap string string) (toDel : list Endpoint)
  : gmap string string :=
  fold_left
    (fun (h : gmap string string) (del : Endpoint) =>
       if supportedType (RecordType del) then delete (DNSName del) h else h)
    toDel heritages.

(** The entries of [fromCreate] are written over [heritages]. *)
Definition cache_updateFromPlan (heritages : gmap string string) (changes : Changes)
  : gmap string string :=
  let heritages := removeRecords heritages (Delete changes) in
  let fromCreate := cacheFromSlice (Create changes ++ UpdateNew changes) in
  fromCreate ∪ heritages.

Definition cache_updateReadRecords (heritages : gmap string string)
  (read : list Endpoint) : gmap string string :=
  cacheFromSlice read.

(** [c.heritages[dnsName]] is the empty string when the name is absent. *)
Definition createDescription (heritages : gmap string string) (dnsName : string)
  : string :=
  let encoded := Base64.EncodeToString (default EmptyString (heritages !! dnsName)) in
  appendToDescription encoded.

(** ** provider.go *)

Definition apiPrefix : string := "/api/unbound".
Definition SearchOverridesEndpoint : string := apiPrefix +:+ "/settings/searchHostOverride".
Definition AddOverrideEndpoint : string := apiPrefix +:+ "/settings/addHostOverride".
Definition DelOverrideEndpoint : string := apiPrefix +:+ "/settings/delHostOverride/".
Definition ApplyChangesEndpoint : string := apiPrefix +:+ "/service/reconfigure".

Definition CreateOpSuccessResponse : string := "saved".
Definition DeleteOpSuccessResponse : string := "deleted".

Definition StatusOK : Z := 200.
Definition MethodGet : string := "GET".
Definition MethodPost : string := "POST".

(** The four places of the provider that perform an HTTP request. *)
Inductive Operation : Type :=
| OpSearch        (* Records *)
| OpAdd           (* createTarget *)
| OpDelete        (* deleteEndpoint *)
| OpReconfigure.  (* reconfigure *)

#[export] Instance Operation_eq_dec : EqDecision Operation.
Proof. solve_decision. Defined.

(** A request as [apiRequest] builds it (the headers, which carry the
    credentials and the content type, are left out). *)
Record Request : Type := {
  req_method : string;
  req_url : string;
  req_body : string
}.

(** A call on the wire: the request, with the operation that issued it. *)
Definition Call : Type := (Operation * Request)%type.

(** What [client.Do] hands back when it does not fail.  [BodyErr] is the
    error of reading the body to its end, if any; [Body] is what was read. *)
Record Response : Type := {
  StatusCode : Z;
  Status : string;
  Body : string;
  BodyErr : option string
}.

Record OperationResponse : Type := { Result : string }.

(** What the provider takes from its configuration, from Go's libraries
    and from the network.  Library failures are given by their message and
    become [LibErr] values ([NewRequestWithContext method url] is the
    failure of building a request, an address that does not parse for
    instance).  [client_Do history call] is the outcome of
    [call] when [history] holds the calls made before it: the remote side
    may answer as it likes, but a run of the provider is replayable.
    [json.Marshal] cannot fail on [AddOverrideRequest], whose fields are
    all strings. *)
Record Runtime : Type := {
  baseURL : string;
  path_Join : string -> string -> string;
  NewRequestWithContext : string -> string -> option string;
  client_Do : list Call -> Call -> string + Response;
  json_Marshal : AddOverrideRequest -> string;
  json_Unmarshal_SearchHostResp : string -> string + SearchHostResp;
  json_Unmarshal_OperationResponse : string -> option string * OperationResponse
}.

(** The mutable part of a provider: the ownership cache behind the
    [knownRecords] pointer, and the calls made through its client so far. *)
Record State : Type := {
  knownRecords : gmap string string;
  trace : list Call
}.

Definition M (A : Type) : Type := State -> A * State.

Definition ret {A : Type} (a : A) : M A := fun st => (a, st).

Definition bind {A B : Type} (m : M A) (k : A -> M B) : M B :=
  fun st => let '(a, st') := m st in k a st'.

Notation "x <- m ;; k" := (bind m (fun x => k))
  (at level 100, m at next level, right associativity).

Definition quote : string := String (ascii_of_nat 34) EmptyString.

(** [[]byte(`"{}"`)]: the JSON string holding two braces. *)
Definition emptyJSON : string := quote +:+ "{}" +:+ quote.

Section Provider.

Variable rt : Runtime.

Definition apiRequest (method path body : string) : error + Request :=
  match NewRequestWithContext rt method path with
  | Some msg => inl (Errorf "create request: %w" [] (LibErr msg))
  | None => inr {| req_method := method; req_url := path; req_body := body |}
  end.

Definition postAPIRequest (path body : string) : error + Request :=
  match apiRequest MethodPost path body with
  | inl err => inl err
  | inr req => inr req
  end.

(** [u.client.Do(req)]: the call is recorded, whatever its outcome. *)
Definition Do (op : Operation) (req : Request) : M (error + Response) :=
  fun st =>
    (match client_Do rt (trace st) (op, req) with
     | inl msg => inl (LibErr msg)
     | inr resp => inr resp
     end,
     {| knownRecords := knownRecords st; trace := trace st ++ [(op, req)] |}).

(** A failure of [io.ReadAll] is logged only. *)
Definition responseBody (resp : Response) : string := Body resp.

Definition checkResponse (body wantResult : string) : option error :=
  let '(err, result) := json_Unmarshal_OperationResponse rt body in
  if isSome err || negb (String.eqb (Result result) wantResult)
  then Some (Errorf "response %q: %w" [ArgString (Result result)] ErrRequestFailed)
  else None.

Definition marshalEndpoints (resp : Response) : error + list Endpoint :=
  match BodyErr resp with
  | Some msg => inl (Errorf "body read err: %w" [] (LibErr msg))
  | None =>
      match json_Unmarshal_SearchHostResp rt (Body resp) with
      | inl msg => inl (Errorf "unmarshal resp: %w" [] (LibErr msg))
      | inr searchResp => inr (ToEndpoints searchResp)
      end
  end.

Definition updateReadRecords (read : list Endpoint) : M unit :=
  fun st =>
    (tt, {| knownRecords := cache_updateReadRecords (knownRecords st) read;
            trace := trace st |}).

Definition updateFromPlan (changes : Changes) : M unit :=
  fun st =>
    (tt, {| knownRecords := cache_updateFromPlan (knownRecords st) changes;
            trace := trace st |}).

Definition Records : M (error + list Endpoint) :=
  let url := baseURL rt +:+ SearchOverridesEndpoint in
  match apiRequest MethodGet url EmptyString with
  | inl err => ret (inl (Errorf "records request: %w" [] err))
  | inr req =>
      r <- Do OpSearch req ;;
      match r with
      | inl err => ret (inl (Errorf "records response: %w" [] err))
      | inr resp =>
          if negb (StatusCode resp =? StatusOK) then
            ret (inl (Errorf "status %v: %w" [ArgString (Status resp)] ErrRequestFailed))
          else
            match marshalEndpoints resp with
            | inl err => ret (inl (JoinErr ErrMarshalling err))
            | inr endpoints =>
                _ <- updateReadRecords endpoints ;;
                ret (inr endpoints)
            end
      end
  end.

(** The records [createRequestJSON] marshals, one for each target. *)
Definition createRequests (heritages : gmap string string) (ep : Endpoint)
  : list AddOverrideRequest :=
  let dnsSplit := GoStrings.Split (DNSName ep) "." in
  map (fun target =>
         let record :=
           {| UUID := EmptyString;
              Hostname := hd EmptyString dnsSplit;
              Domain := GoStrings.Join (tl dnsSplit) ".";
              Rr := RecordType ep;
              Server := target;
              Enabled := "1";
              Description := createDescription heritages (DNSName ep) |} in
         {| Host := record |})
      (Targets ep).

Definition createRequestJSON (ep : Endpoint) : M (list string) :=
  fun st => (map (json_Marshal rt) (createRequests (knownRecords st) ep), st).

Definition createTarget (data : string) (ep : Endpoint) : M (option error) :=
  match postAPIRequest (baseURL rt +:+ AddOverrideEndpoint) data with
  | inl err => ret (Some (Errorf "create endpoint request: %w" [] err))
  | inr req =>
      r <- Do OpAdd req ;;
      match r with
      | inl err => ret (Some (Errorf "create http do: %w" [] err))
      | inr resp =>
          let body := responseBody resp in
          if negb (StatusCode resp =? StatusOK) then
            ret (Some (Errorf "response status: %v: %w"
                         [ArgInt (StatusCode resp)] ErrRequestFailed))
          else ret (checkResponse body CreateOpSuccessResponse)
      end
  end.

Fixpoint createTargets (requestDatas : list string) (ep : Endpoint)
  : M (option error) :=
  match requestDatas with
  | [] => ret None
  | data :: rest =>
      err <- createTarget data ep ;;
      match err with
      | Some e => ret (Some e)
      | None => createTargets rest ep
      end
  end.

Definition createEndpoint (ep : Endpoint) : M (option error) :=
  requestDatas <- createRequestJSON ep ;;
  createTargets requestDatas ep.

Fixpoint createEndpoints (endpoints : list Endpoint) : M (option error) :=
  match endpoints with
  | [] => ret None
  | ep :: rest =>
      if supportedType (RecordType ep) then
        err <- createEndpoint ep ;;
        match err with
        | Some e => ret (Some (Errorf "create endpoint: %w" [] e))
        | None => createEndpoints rest
        end
      else createEndpoints rest
  end.

Definition deleteEndpoint (ep : Endpoint) : M (option error) :=
  let urlPath := path_Join rt DelOverrideEndpoint (SetIdentifier ep) in
  let url := baseURL rt +:+ urlPath in
  let reqBody := emptyJSON in
  match apiRequest MethodPost url reqBody with
  | inl err => ret (Some (Errorf "delete request: %w" [] err))
  | inr req =>
      r <- Do OpDelete req ;;
      match r with
      | inl err => ret (Some (Errorf "delete http do: %w" [] err))
      | inr resp =>
          let body := responseBody resp in
          if negb (StatusCode resp =? StatusOK) then
            ret (Some (Errorf "response status: %v: %w"
                         [ArgInt (StatusCode resp)] ErrRequestFailed))
          else ret (checkResponse body DeleteOpSuccessResponse)
      end
  end.

Fixpoint deleteEndpoints (endpoints : list Endpoint) : M (option error) :=
  match endpoints with
  | [] => ret None
  | ep :: rest =>
      err <- deleteEndpoint ep ;;
      match err with
      | Some e => ret (Some (Errorf "%q: %w" [ArgString (DNSName ep)] e))
      | None => deleteEndpoints rest
      end
  end.

Definition reconfigure : M (option error) :=
  let url := baseURL rt +:+ ApplyChangesEndpoint in
  match postAPIRequest url emptyJSON with
  | inl err => ret (Some (Errorf "reconfigure request create: %w" [] err))
  | inr req =>
      r <- Do OpReconfigure req ;;
      match r with
      | inl err => ret (Some (Errorf "reconfigure: %w" [] err))
      | inr resp =>
          let body := responseBody resp in
          if negb (StatusCode resp =? StatusOK) then
            ret (Some (Errorf "response status: %v: %w"
                         [ArgInt (StatusCode resp)] ErrRequestFailed))
          else ret (checkResponse body EmptyString)
      end
  end.

Definition ApplyChanges (changes : Changes) : M (option error) :=
  if negb (HasChanges changes) then ret None
  else
    _ <- updateFromPlan changes ;;
    err <- deleteEndpoints (Delete changes ++ UpdateOld changes) ;;
    match err with
    | Some e => ret (Some (Errorf "plan delete: %w" [] e))
    | None =>
        err <- createEndpoints (Create changes ++ UpdateNew changes) ;;
        match err with
        | Some e => ret (Some (Errorf "plan create: %w" [] e))
        | None =>
            err <- reconfigure ;;
            match err with
            | Some e => ret (Some (Errorf "apply changes reconfigure endpoint: %w" [] e))
            | None => ret None
            end
        end
    end.

End Provider.

(** What an answer of the remote amounts to once the operation has checked
    it: the status first, then the [result] field against the expected
    literal (the last lines of [createTarget], [deleteEndpoint] and
    [reconfigure]). *)
Definition answer_error (rt : Runtime) (want : string) (resp : Response)
  : option error :=
  if negb (StatusCode resp =? StatusOK) then
    Some (Errorf "response status: %v: %w" [ArgInt (StatusCode resp)] ErrRequestFailed)
  else checkResponse rt (Body resp) want.

(** The requests of the four operations, as [apiRequest] returns them. *)
Definition searchRequest (rt : Runtime) : Request :=
  {| req_method := MethodGet;
     req_url := baseURL rt +:+ SearchOverridesEndpoint;
     req_body := EmptyString |}.

Definition addRequest (rt : Runtime) (data : string) : Request :=
  {| req_method := MethodPost;
     req_url := baseURL rt +:+ AddOverrideEndpoint;
     req_body := data |}.

Definition deleteRequest (rt : Runtime) (ep : Endpoint) : Request :=
  {| req_method := MethodPost;
     req_url := baseURL rt +:+ path_Join rt DelOverrideEndpoint (SetIdentifier ep);
     req_body := emptyJSON |}.

Definition reconfigureRequest (rt : Runtime) : Request :=
  {| req_method := MethodPost;
     req_url := baseURL rt +:+ ApplyChangesEndpoint;
     req_body := emptyJSON |}.

(** How a deletion of [ep], attempted after the calls [before], fails
    with [e]: the request cannot be built, the transport fails, or the
    remote answers and the answer is not the expected one. *)
Definition deleteFailure (rt : Runtime) (before : list Call) (ep : Endpoint)
  (e : error) : Prop :=
  (exists msg,
      NewRequestWithContext rt MethodPost (req_url (deleteRequest rt ep)) = Some msg
      /\ e = Errorf "delete request: %w" []
               (Errorf "create request: %w" [] (LibErr msg)))
  \/ (exists msg,
         client_Do rt before (OpDelete, deleteRequest rt ep) = inl msg
         /\ e = Errorf "delete http do: %w" [] (LibErr msg))
  \/ (exists resp,
         client_Do rt before (OpDelete, deleteRequest rt ep) = inr resp
         /\ answer_error rt DeleteOpSuccessResponse resp = Some e).

(** How a creation fails with [e], [tr] being the calls made when it
    returns: the request cannot be built, or the last call of [tr] is the
    creation and either its transport fails or the remote answers and the
    answer is not the expected one. *)
Definition createFailure (rt : Runtime) (tr : list Call) (e : error) : Prop :=
  (exists msg,
      NewRequestWithContext rt MethodPost (baseURL rt +:+ AddOverrideEndpoint) = Some msg
      /\ e = Errorf "create endpoint request: %w" []
               (Errorf "create request: %w" [] (LibErr msg)))
  \/ (exists before data,
         tr = before ++ [(OpAdd, addRequest rt data)]
         /\ ((exists msg,
                client_Do rt before (OpAdd, addRequest rt data) = inl msg
                /\ e = Errorf "create http do: %w" [] (LibErr msg))
             \/ (exists resp,
                   client_Do rt before (OpAdd, addRequest rt data) = inr resp
                   /\ answer_error rt CreateOpSuccessResponse resp = Some e))).

(** The calls made between two states of a provider. *)
Definition issued (before after : State) : list Call :=
  drop (length (trace before)) (trace after).

(** ** A runtime to run examples on

    The libraries are replaced by stand-ins that agree with them on the
    inputs of the examples: [path.Join] of the delete endpoint and a
    one-segment identifier, a marshaller that needs no escaping, and parsers
    for the exact bodies the remote of the repository's tests answers with. *)

Module Example.

Definition json_field (name value : string) : string :=
  quote +:+ name +:+ quote +:+ ":" +:+ quote +:+ value +:+ quote.

Definition marshal (r : AddOverrideRequest) : string :=
  "{" +:+ quote +:+ "host" +:+ quote +:+ ":{"
  +:+ json_field "hostname" (Hostname (Host r)) +:+ ","
  +:+ json_field "domain" (Domain (Host r)) +:+ ","
  +:+ json_field "rr" (Rr (Host r)) +:+ ","
  +:+ json_field "server" (Server (Host r)) +:+ ","
  +:+ json_field "enabled" (Enabled (Host r)) +:+ ","
  +:+ json_field "description" (Description (Host r)) +:+ "}}".

Definition operation_body (result : string) : string :=
  "{" +:+ json_field "result" result +:+ "}".

Definition unmarshal_operation (body : string) : option string * OperationResponse :=
  if String.eqb body (operation_body "saved") then (None, {| Result := "saved" |})
  else if String.eqb body (operation_body "deleted") then (None, {| Result := "deleted" |})
  else if String.eqb body (operation_body "failure") then (None, {| Result := "failure" |})
  else if String.eqb body (operation_body "") then (None, {| Result := "" |})
  else (Some "invalid character", {| Result := "" |}).

Definition no_rows : string := "{" +:+ quote +:+ "rows" +:+ quote +:+ ":[]}".

Definition unmarshal_search (body : string) : string + SearchHostResp :=
  if String.eqb body no_rows then inr {| Rows := [] |}
  else inl "unexpected end of JSON input".

Definition join (dir name : string) : string :=
  if String.eqb name "" then "/api/unbound/settings/delHostOverride"
  else dir +:+ name.

Definition runtime (remote : list Call -> Call -> string + Response) : Runtime :=
  {| baseURL := "https://opnsense.example";
     path_Join := join;
     NewRequestWithContext := fun _ _ => None;
     client_Do := remote;
     json_Marshal := marshal;
     json_Unmarshal_SearchHostResp := unmarshal_search;
     json_Unmarshal_OperationResponse := unmarshal_operation |}.

Definition ok (body : string) : string + Response :=
  inr {| StatusCode := 200; Status := "200 OK"; Body := body; BodyErr := None |}.

(** A remote that cannot be reached. *)
Definition unreachable : list Call -> Call -> string + Response :=
  fun _ _ => inl "dial tcp: connection refused".

(** A remote that accepts whatever it is asked. *)
Definition obliging : list Call -> Call -> string + Response :=
  fun _ call =>
    match fst call with
    | OpSearch => ok no_rows
    | OpAdd => ok (operation_body "saved")
    | OpDelete => ok (operation_body "deleted")
    | OpReconfigure => ok (operation_body "")
    end.

(** A remote that deletes but refuses to create. *)
Definition read_only : list Call -> Call -> string + Response :=
  fun _ call =>
    match fst call with
    | OpAdd => ok (operation_body "failure")
    | _ => obliging [] call
    end.

(** A remote that answers every call with status 400 and no body. *)
Definition bad_request : list Call -> Call -> string + Response :=
  fun _ _ => inr {| StatusCode := 400; Status := "400 Bad Request";
                    Body := ""; BodyErr := None |}.

(** A remote whose answers are not JSON. *)
Definition garbled : list Call -> Call -> string + Response :=
  fun _ _ => ok "{".

Definition fresh : State := {| knownRecords := ∅; trace := [] |}.

Definition record (name kind target id : string) : Endpoint :=
  {| DNSName := name; Targets := [target]; RecordType := kind;
     SetIdentifier := id; RecordTTL := 0; Labels := ∅;
     ProviderSpecific := [];
     TargetsNil := false; LabelsNil := true;
     ProviderSpecificNil := true |}.

(** A stand-in for [endpoint.NewEndpoint] on names and targets without a
    trailing dot: nil for a name with a label of more than 63 bytes,
    and otherwise a pointer to a record with fresh labels. *)
Definition NewEndpoint (name kind : string) (targets : list string)
  : option Endpoint :=
  if existsb (fun label => Nat.ltb 63 (String.length label)) (GoStrings.Split name ".")
  then None
  else Some {| DNSName := name; Targets := targets; RecordType := kind;
               SetIdentifier := ""; RecordTTL := 0; Labels := ∅;
               ProviderSpecific := [];
               TargetsNil := false; LabelsNil := false;
               ProviderSpecificNil := true |}.

Definition heritage : string :=
  "heritage=external-dns,external-dns/owner=default,external-dns/resource=ingress/jellybelly/jellybelly".

Definition heritage64 : string :=
  "aGVyaXRhZ2U9ZXh0ZXJuYWwtZG5zLGV4dGVybmFsLWRucy9vd25lcj1kZWZhdWx0LGV4dGVybmFsLWRucy9yZXNvdXJjZT1pbmdyZXNzL2plbGx5YmVsbHkvamVsbHliZWxseQ==".

Definition crud : Changes :=
  {| Create := [ record "create.me" "A" "1.2.3.4" "";
                 record "a-create.me" "TXT" heritage "";
                 record "create.me" "TXT" heritage "" ];
     UpdateOld := [ record "update.this" "" "4.3.2.1" "some-uuid-here" ];
     UpdateNew := [ record "update.this" "A" "4.3.2.1" "some-uuid-here" ];
     Delete := [ record "delete.this" "" "5.6.7.8" "delete-uuid-goes-here" ];
     UpdateOldNil := false; UpdateNewNil := false |}.

End Example.

(** ** The rest of the engine, and its callers

    What follows models the code around the functions above: helpers to
    speak of what the cache and the calls of a change-set are, the
    validation of the configuration the provider is built from, and the two
    commands that drive [Records] and [ApplyChanges]. *)

(** The body of the loop of [cacheFromSlice]. *)
Definition cacheStep (out : gmap string string) (create : Endpoint)
  : gmap string string :=
  if String.eqb (RecordType create) RecordTypeTXT then
    let out := <[ DNSName create := Targets_String (Targets create) ]> out in
    if GoStrings.HasPrefix (DNSName create) "a-" then
      let name := GoStrings.Replace1 (DNSName create) "a-" "" in
      <[ name := Targets_String (Targets create) ]> out
    else out
  else out.

(** [create] is a TXT record that [cacheFromSlice] files under [key]:
    its name is [key], or ["a-"] followed by [key]. *)
Definition writes (key : string) (create : Endpoint) : Prop :=
  RecordType create = RecordTypeTXT
  /\ (DNSName create = key \/ DNSName create = "a-" +:+ key).

(** [removeRecords] takes [key] out: a record to delete, of an address
    kind, bears that name. *)
Definition evicts (toDel : list Endpoint) (key : string) : bool :=
  existsb (fun del => supportedType (RecordType del) && String.eqb (DNSName del) key)
    toDel.

(** The calls of a change-set, were they all made: a delete call for each
    record to delete, a create call for each target of each record of an
    address kind to create, and the reconfigure call. *)
Definition deleteCalls (rt : Runtime) (eps : list Endpoint) : list Call :=
  map (fun ep => (OpDelete, deleteRequest rt ep)) eps.

Definition addCalls (rt : Runtime) (heritages : gmap string string)
  (eps : list Endpoint) : list Call :=
  flat_map
    (fun ep =>
       if supportedType (RecordType ep) then
         map (fun request => (OpAdd, addRequest rt (json_Marshal rt request)))
           (createRequests heritages ep)
       else [])
    eps.

Definition plannedCalls (rt : Runtime) (heritages : gmap string string)
  (changes : Changes) : list Call :=
  deleteCalls rt (Delete changes ++ UpdateOld changes)
  ++ addCalls rt heritages (Create changes ++ UpdateNew changes)
  ++ [(OpReconfigure, reconfigureRequest rt)].

(** The literal an operation expects in the [result] field of an answer. *)
Definition expectedResult (op : Operation) : string :=
  match op with
  | OpAdd => CreateOpSuccessResponse
  | OpDelete => DeleteOpSuccessResponse
  | _ => EmptyString
  end.

(** A runtime on which no request fails to be built and every call to
    delete, to create or to reconfigure is answered with status 200 and
    the result its operation expects. *)
Definition accepting (rt : Runtime) : Prop :=
  (forall method url, NewRequestWithContext rt method url = None)
  /\ forall history call,
      fst call <> OpSearch ->
      exists resp,
        client_Do rt history call = inr resp
        /\ StatusCode resp = StatusOK
        /\ json_Unmarshal_OperationResponse rt (Body resp)
           = (None, {| Result := expectedResult (fst call) |}).

(** [strings.TrimSuffix(s, suffix)]. *)
Fixpoint strings_TrimSuffix (s suffix : string) : string :=
  if String.eqb s suffix then EmptyString
  else match s with
       | EmptyString => EmptyString
       | String c s' => String c (strings_TrimSuffix s' suffix)
       end.

(** The number of bytes of [s] equal to [c]. *)
Fixpoint countByte (c : ascii) (s : string) : nat :=
  match s with
  | EmptyString => O
  | String d s' => if Ascii.eqb d c then S (countByte c s') else countByte c s'
  end.

Definition newline : string := String (ascii_of_nat 10) EmptyString.

(** ** internal/config: the validation of a configuration *)

Module config.

Inductive error : Type :=
| ErrInvalidBaseURL
| ErrInvalidCreds
| Errorf (format : string) (args : list fmt_arg) (wrapped : error).

(** [Config], with the fields of the structures embedded in it. *)
Record Config : Type := {
  BaseURL : string;
  Creds : string;
  Addr : string;
  Filter : list string;
  Exclude : list string;
  LogLevel : Z
}.

Definition hasProtocol (baseURL : string) : bool :=
  let https := GoStrings.HasPrefix baseURL "https://" in
  let http := GoStrings.HasPrefix baseURL "http://" in
  http || https.

Definition credFormat (cred : string) : bool :=
  let credSlice := GoStrings.Split cred ":" in
  Nat.eqb (length credSlice) 2.

(** [(cfg *Config) Validate()]: the configuration as the call leaves it,
    and the error. *)
Definition Validate (cfg : Config) : Config * option error :=
  if String.eqb (BaseURL cfg) "" || negb (hasProtocol (BaseURL cfg)) then
    (cfg, Some (Errorf "%v: %w" [ArgString (BaseURL cfg)] ErrInvalidBaseURL))
  else if String.eqb (Creds cfg) "" || negb (credFormat (Creds cfg)) then
    (cfg, Some ErrInvalidCreds)
  else
    ({| BaseURL := strings_TrimSuffix (BaseURL cfg) newline;
        Creds := strings_TrimSuffix (Creds cfg) newline;
        Addr := Addr cfg;
        Filter := Filter cfg;
        Exclude := Exclude cfg;
        LogLevel := LogLevel cfg |}, None).

End config.

(** ** cmd/unbound/cmd: the upsert and delete commands *)

(** The errors of the provider, as the commands see them. *)
Abbreviation unbound_error := error (only parsing).

Module cmd.

(** The errors of the commands: their two sentinels, and an error of the
    provider under a message of the command. *)
Inductive error : Type :=
| ErrUnequalHostTargets
| ErrMissingHosts
| Errorf (format : string) (wrapped : unbound_error).

(** [toMapping]: the hosts and the targets, paired by position. *)
Definition toMapping (hosts targets : list string) : error + gmap string string :=
  if negb (Nat.eqb (length hosts) (length targets)) then inl ErrUnequalHostTargets
  else
    inr (fold_left
           (fun (out : gmap string string) (pair : string * string) =>
              <[ fst pair := snd pair ]> out)
           (zip hosts targets) ∅).

(** [toSet]. *)
Definition toSet (hosts : list string) : gset string := list_to_set hosts.

(** The records [planChanges] keeps of those found: named by a host to
    delete, and bearing a set-identifier. *)
Definition selected (toDelete : gset string) (found : list Endpoint)
  : list Endpoint :=
  List.filter
    (fun record =>
       bool_decide (DNSName record ∈ toDelete)
       && negb (String.eqb (SetIdentifier record) ""))
    found.

(** One turn of the loop of [createChangeSet], on the mapping and the
    records to delete; [None] is the run-time panic of [ep.Targets[0]] on
    an endpoint with no target. *)
Definition changeStep (acc : option (gmap string string * list Endpoint))
  (ep : Endpoint) : option (gmap string string * list Endpoint) :=
  match acc with
  | None => None
  | Some (hostMappings, del) =>
      match hostMappings !! DNSName ep with
      | None => Some (hostMappings, del)
      | Some val =>
          match Targets ep with
          | [] => None
          | target :: _ =>
              if String.eqb val target
              then Some (delete (DNSName ep) hostMappings, del)
              else Some (hostMappings, del ++ [ep])
          end
      end
  end.

Section Commands.

(** [endpoint.NewEndpoint] belongs to the library.  It returns a pointer,
    which is nil for a name with a label of more than 63 bytes: [None].
    The order in which Go ranges over a map is not specified, and
    [toEndpoints] is given in the order of [map_to_list]: nothing below
    depends on it. *)
Variable NewEndpoint : string -> string -> list string -> option Endpoint.

(** [toEndpoints] keeps the pointers as [endpoint.NewEndpoint] returns
    them, nil or not. *)
Definition toEndpoints (hostMappings : gmap string string)
  : list (option Endpoint) :=
  map (fun entry => NewEndpoint (fst entry) RecordTypeA [snd entry])
    (map_to_list hostMappings).

(** [createChangeSet] starts from [&plan.Changes{}], whose slices are
    nil, and sets [Delete] and [Create]. *)
Definition createChangeSet (existing : list Endpoint)
  (hostMappings : gmap string string) : option (Changes_ (option Endpoint)) :=
  match fold_left changeStep existing (Some (hostMappings, [])) with
  | None => None
  | Some (hostMappings, del) =>
      Some {| Create := toEndpoints hostMappings;
              UpdateOld := [];
              UpdateNew := [];
              Delete := del;
              UpdateOldNil := true;
              UpdateNewNil := true |}
  end.

End Commands.

Section Delete.

Variable rt : Runtime.

(** [unbound.New]: a provider starts with an empty cache. *)
Definition New : M unit :=
  fun st => (tt, {| knownRecords := ∅; trace := trace st |}).

Definition planChanges (toDelete : gset string) : M (error + Changes) :=
  r <- Records rt ;;
  match r with
  | inl err => ret (inl (Errorf "check existing records: %w" err))
  | inr found =>
      ret (inr {| Create := []; UpdateOld := []; UpdateNew := [];
                  Delete := selected toDelete found;
                  UpdateOldNil := true; UpdateNewNil := true |})
  end.

(** [deleteEndpoints] of the command, on the hosts its flag holds. *)
Definition deleteEndpoints (hosts : list string) : M (option error) :=
  if Nat.eqb (length hosts) 0 then ret (Some ErrMissingHosts)
  else
    _ <- New ;;
    r <- planChanges (toSet hosts) ;;
    match r with
    | inl err => ret (Some err)
    | inr changes =>
        if Nat.eqb (length (Delete changes)) 0 then ret None
        else
          err <- ApplyChanges rt changes ;;
          match err with
          | Some e => ret (Some (Errorf "apply changes: %w" e))
          | None => ret None
          end
    end.

End Delete.

Section Upsert.

Variable NewEndpoint : string -> string -> list string -> option Endpoint.
Variable rt : Runtime.

(** The pointers of a slice, when none is nil. *)
Fixpoint pointers (l : list (option Endpoint)) : option (list Endpoint) :=
  match l with
  | [] => Some []
  | None :: _ => None
  | Some ep :: l' =>
      match pointers l' with
      | Some eps => Some (ep :: eps)
      | None => None
      end
  end.

(** How [doUpsert] ends: it returns, with an error or with none, or the
    program panics, on the index of [ep.Targets[0]] in [createChangeSet]
    or on a nil pointer. *)
Inductive outcome : Type :=
| Returned (err : option error)
| IndexPanic
| NilPanic.

(** [doUpsert], on the hosts and the targets its flags hold.  A nil
    pointer among the records to create is met in [ApplyChanges]: [Create]
    is then not empty, so that the change-set has changes, and
    [updateFromPlan], which comes before the first call, reads the kind of
    every record to create in [cacheFromSlice]. *)
Definition doUpsert (hosts targets : list string) : M outcome :=
  match toMapping hosts targets with
  | inl err => ret (Returned (Some err))
  | inr hostMappings =>
      r <- Records rt ;;
      match r with
      | inl err =>
          ret (Returned (Some (Errorf "unable to read existing records: %w" err)))
      | inr existing =>
          match createChangeSet NewEndpoint existing hostMappings with
          | None => ret IndexPanic
          | Some changes =>
              match pointers (Create changes) with
              | None => ret NilPanic
              | Some create =>
                  err <- ApplyChanges rt
                           {| Create := create;
                              UpdateOld := UpdateOld changes;
                              UpdateNew := UpdateNew changes;
                              Delete := Delete changes;
                              UpdateOldNil := UpdateOldNil changes;
                              UpdateNewNil := UpdateNewNil changes |} ;;
                  match err with
                  | Some e => ret (Returned (Some (Errorf "apply failed: %w" e)))
                  | None => ret (Returned None)
                  end
              end
          end
      end
  end.

End Upsert.

End cmd.

(** * Properties *)

(** ** The tests of the repository, replayed

    [Test_cache_updateFromPlan], the first case of [TestUnbound_Records]
    and the cases of [TestUnbound_ApplyChanges], on the runtime of the
    examples. *)

Example replay_cache_updateFromPlan :
  cache_updateFromPlan ∅
    {| Create := [ Example.record "a-foo.example.domain" "TXT" Example.heritage "";
                   Example.record "foo.example.domain" "TXT" Example.heritage "";
                   Example.record "foo.example.domain" "A" "1.2.3.4" "" ];
       UpdateOld := []; UpdateNew := []; Delete := [];
       UpdateOldNil := true; UpdateNewNil := true |}
  = {[ "foo.example.domain" := Example.heritage;
       "a-foo.example.domain" := Example.heritage ]}.
Proof. vm_compute. reflexivity. Qed.

Example replay_Records_happy_path :
  ToEndpoints
    {| Rows := [ {| UUID := "some-uuid-here"; Hostname := "foo";
                    Domain := "example.domain"; Rr := "A (Ipv4 Address)";
                    Server := "10.0.0.4"; Enabled := "";
                    Description := appendToDescription Example.heritage64 |} ] |}
  = [ {| DNSName := "foo.example.domain"; Targets := ["10.0.0.4"]; RecordType := "A";
         SetIdentifier := "some-uuid-here"; RecordTTL := 0;
         Labels := {[ "description" := appendToDescription Example.heritage64 ]};
         ProviderSpecific := [];
         TargetsNil := false; LabelsNil := false;
         ProviderSpecificNil := true |};
      Example.record "foo.example.domain" "TXT" Example.heritage "";
      Example.record "a-foo.example.domain" "TXT" Example.heritage "" ].
Proof. vm_compute. reflexivity. Qed.

Example replay_ApplyChanges_no_changes :
  ApplyChanges (Example.runtime Example.unreachable)
    {| Create := []; UpdateOld := []; UpdateNew := []; Delete := [];
       UpdateOldNil := true; UpdateNewNil := true |} Example.fresh
  = (None, Example.fresh).
Proof. reflexivity. Qed.

Example replay_ApplyChanges_full_CRUD :
  let rt := Example.runtime Example.obliging in
  let '(err, st) := ApplyChanges rt Example.crud Example.fresh in
  err = None
  /\ map (fun call => req_body (snd call)) (trace st)
     = [ emptyJSON; emptyJSON;
         Example.marshal
           {| Host := {| UUID := ""; Hostname := "create"; Domain := "me"; Rr := "A";
                         Server := "1.2.3.4"; Enabled := "1";
                         Description := "Managed by K8s external-dns "
                                        +:+ Example.heritage64 |} |};
         Example.marshal
           {| Host := {| UUID := ""; Hostname := "update"; Domain := "this"; Rr := "A";
                         Server := "4.3.2.1"; Enabled := "1";
                         Description := "Managed by K8s external-dns " |} |};
         emptyJSON ]
  /\ map fst (trace st) = [OpDelete; OpDelete; OpAdd; OpAdd; OpReconfigure].
Proof. vm_compute. repeat split. Qed.

Example replay_ApplyChanges_create_failure :
  let rt := Example.runtime Example.read_only in
  let '(err, st) := ApplyChanges rt Example.crud Example.fresh in
  (exists e, err = Some e /\ errors_Is e ErrRequestFailed = true)
  /\ map fst (trace st) = [OpDelete; OpDelete; OpAdd].
Proof. vm_compute. split; [eexists; split|]; reflexivity. Qed.

(** ** Base64: decoding undoes encoding *)

Module Base64Facts.
Import Base64.

Ltac arith := first [reflexivity | lia | (Z.div_mod_to_equations; lia)].

Lemma lor_add x y n :
  0 <= n -> 0 <= y < 2 ^ n -> x mod 2 ^ n = 0 -> Z.lor x y = x + y.
Proof.
  intros Hn Hy Hx.
  rewrite <- Z.lxor_lor, Z.add_nocarry_lxor; try reflexivity.
  all: apply Z.bits_inj'; intros i Hi; rewrite Z.land_spec, Z.bits_0.
  all: destruct (Z.lt_ge_cases i n) as [Hlt|Hge].
  all: try (replace (Z.testbit x i) with false;
            [reflexivity | symmetry; rewrite <- (Z.mod_pow2_bits_low x n i) by lia;
                           rewrite Hx; apply Z.bits_0]).
  all: replace (Z.testbit y i) with false;
    [apply andb_false_r | symmetry; rewrite <- (Z.mod_small y (2 ^ n)) by lia;
                          apply Z.mod_pow2_bits_high; lia].
Qed.

Lemma lor_add_pow x y m n :
  m = 2 ^ n -> 0 <= n -> 0 <= y < m -> x mod m = 0 -> Z.lor x y = x + y.
Proof. intros ->. apply lor_add. Qed.

Lemma assemble_arith d0 d1 d2 d3 :
  0 <= d0 < 64 -> 0 <= d1 < 64 -> 0 <= d2 < 64 -> 0 <= d3 < 64 ->
  assemble d0 d1 d2 d3 = d0 * 262144 + d1 * 4096 + d2 * 64 + d3.
Proof.
  intros. unfold assemble. rewrite !Z.shiftl_mul_pow2 by lia.
  change (2 ^ 18) with 262144. change (2 ^ 12) with 4096. change (2 ^ 6) with 64.
  rewrite (lor_add_pow (d0 * 262144) (d1 * 4096) 262144 18) by arith.
  rewrite (lor_add_pow _ (d2 * 64) 4096 12) by arith.
  rewrite (lor_add_pow _ d3 64 6) by arith.
  reflexivity.
Qed.

Lemma byte_val_range c : 0 <= byte_val c < 256.
Proof. unfold byte_val. pose proof (N_ascii_bounded c). lia. Qed.

Lemma byte_of_val c v : v mod 256 = byte_val c -> byte_of v = c.
Proof.
  intros H. unfold byte_of. change 255 with (Z.ones 8).
  rewrite Z.land_ones by lia. change (2 ^ 8) with 256. rewrite H.
  unfold byte_val. rewrite N2Z.id. apply ascii_N_embedding.
Qed.

Lemma pack_arith a b c :
  0 <= a < 256 -> 0 <= b < 256 -> 0 <= c < 256 ->
  Z.lor (Z.lor (Z.shiftl a 16) (Z.shiftl b 8)) c = a * 65536 + b * 256 + c.
Proof.
  intros. rewrite !Z.shiftl_mul_pow2 by lia.
  change (2 ^ 16) with 65536. change (2 ^ 8) with 256.
  rewrite (lor_add_pow (a * 65536) (b * 256) 65536 16) by arith.
  rewrite (lor_add_pow _ c 256 8) by arith.
  reflexivity.
Qed.

Lemma sextet_arith v n : 0 <= n -> Z.land (Z.shiftr v n) 63 = (v / 2 ^ n) mod 64.
Proof.
  intros. rewrite Z.shiftr_div_pow2 by lia. change 63 with (Z.ones 6).
  rewrite Z.land_ones by lia. reflexivity.
Qed.

Lemma sextet_range v n : 0 <= n -> 0 <= Z.land (Z.shiftr v n) 63 < 64.
Proof. intros. rewrite sextet_arith by assumption. apply Z.mod_pos_bound. lia. Qed.

Lemma sextet0_range v : 0 <= Z.land v 63 < 64.
Proof. rewrite <- (Z.shiftr_0_r v). apply sextet_range. lia. Qed.

(** The value a quantum is decoded to is the value it was encoded from. *)
Lemma assemble_sextets val :
  0 <= val < 16777216 ->
  assemble (Z.land (Z.shiftr val 18) 63) (Z.land (Z.shiftr val 12) 63)
           (Z.land (Z.shiftr val 6) 63) (Z.land val 63) = val.
Proof.
  intros H.
  rewrite assemble_arith by (apply sextet_range || apply sextet0_range; lia).
  rewrite !sextet_arith by lia.
  replace (Z.land val 63) with (val mod 64)
    by (change 63 with (Z.ones 6); rewrite Z.land_ones by lia; reflexivity).
  change (2 ^ 18) with 262144. change (2 ^ 12) with 4096. change (2 ^ 6) with 64.
  arith.
Qed.

Lemma decodeMap_encode v : 0 <= v < 64 -> decodeMap (encode v) = Some v.
Proof.
  intros H. rewrite <- (Z2Nat.id v) by lia.
  assert (Hn : (Z.to_nat v < 64)%nat) by lia.
  generalize dependent (Z.to_nat v). intros n Hn.
  do 64 (destruct n as [|n]; [reflexivity|]). lia.
Qed.


Lemma string_triples_ind (P : string -> Prop) :
  P EmptyString ->
  (forall a, P (String a EmptyString)) ->
  (forall a b, P (String a (String b EmptyString))) ->
  (forall a b c s, P s -> P (String a (String b (String c s)))) ->
  forall s, P s.
Proof.
  intros H0 H1 H2 H3.
  assert (H : forall s, P s /\ (forall a, P (String a s))
                        /\ (forall a b, P (String a (String b s)))).
  { induction s as [|c s (IH0 & IH1 & IH2)].
    - repeat split; auto.
    - repeat split; auto. }
  intros s. apply H.
Qed.

Lemma decodeFrom_digit c v rest dbuf :
  decodeMap c = Some v ->
  decodeFrom (String c rest) dbuf =
  match dbuf with
  | [d0; d1; d2] =>
      let val := assemble d0 d1 d2 v in
      match decodeFrom rest [] with
      | Some out =>
          Some (String (byte_of (Z.shiftr val 16))
                  (String (byte_of (Z.shiftr val 8))
                     (String (byte_of val) out)))
      | None => None
      end
  | _ => decodeFrom rest (dbuf ++ [v])
  end.
Proof. intros H. cbn [decodeFrom]. rewrite H. reflexivity. Qed.

Lemma decodeFrom_pad2 d0 d1 :
  decodeFrom (String padChar (String padChar EmptyString)) [d0; d1]
  = Some (String (byte_of (Z.shiftr (assemble d0 d1 0 0) 16)) EmptyString).
Proof. reflexivity. Qed.

Lemma decodeFrom_pad1 d0 d1 d2 :
  decodeFrom (String padChar EmptyString) [d0; d1; d2]
  = Some (String (byte_of (Z.shiftr (assemble d0 d1 d2 0) 16))
            (String (byte_of (Z.shiftr (assemble d0 d1 d2 0) 8)) EmptyString)).
Proof. reflexivity. Qed.

Lemma pack_range a b c :
  0 <= a < 256 -> 0 <= b < 256 -> 0 <= c < 256 ->
  0 <= Z.lor (Z.lor (Z.shiftl a 16) (Z.shiftl b 8)) c < 16777216.
Proof. intros. rewrite pack_arith by assumption. lia. Qed.

(** Decoding undoes encoding. *)
Lemma DecodeString_EncodeToString s :
  DecodeString (EncodeToString s) = Some s.
Proof.
  unfold DecodeString. induction s as [| a | a b | a b c s IH] using string_triples_ind.
  - reflexivity.
  - cbn [EncodeToString].
    pose proof (byte_val_range a) as Ha.
    set (val := Z.shiftl (byte_val a) 16).
    assert (Hval : val = Z.lor (Z.lor (Z.shiftl (byte_val a) 16) (Z.shiftl 0 8)) 0)
      by (rewrite Z.shiftl_0_l, !Z.lor_0_r; reflexivity).
    assert (Hr : 0 <= val < 16777216) by (rewrite Hval; apply pack_range; lia).
    rewrite (decodeFrom_digit _ _ _ _ (decodeMap_encode _ (sextet_range val 18 ltac:(lia)))).
    rewrite (decodeFrom_digit _ _ _ _ (decodeMap_encode _ (sextet_range val 12 ltac:(lia)))).
    cbn [app]. rewrite decodeFrom_pad2. f_equal. f_equal.
    apply byte_of_val.
    replace 0 with (Z.land (Z.shiftr val 6) 63) at 1.
    2:{ rewrite sextet_arith, Hval, pack_arith by lia. arith. }
    replace 0 with (Z.land val 63) at 1.
    2:{ change 63 with (Z.ones 6). rewrite Z.land_ones, Hval, pack_arith by lia. arith. }
    rewrite assemble_sextets by assumption.
    rewrite Hval, pack_arith, Z.shiftr_div_pow2 by lia. arith.
  - cbn [EncodeToString].
    pose proof (byte_val_range a) as Ha. pose proof (byte_val_range b) as Hb.
    set (val := Z.lor (Z.shiftl (byte_val a) 16) (Z.shiftl (byte_val b) 8)).
    assert (Hval : val = Z.lor (Z.lor (Z.shiftl (byte_val a) 16)
                                      (Z.shiftl (byte_val b) 8)) 0)
      by (rewrite Z.lor_0_r; reflexivity).
    assert (Hr : 0 <= val < 16777216) by (rewrite Hval; apply pack_range; lia).
    rewrite (decodeFrom_digit _ _ _ _ (decodeMap_encode _ (sextet_range val 18 ltac:(lia)))).
    rewrite (decodeFrom_digit _ _ _ _ (decodeMap_encode _ (sextet_range val 12 ltac:(lia)))).
    rewrite (decodeFrom_digit _ _ _ _ (decodeMap_encode _ (sextet_range val 6 ltac:(lia)))).
    cbn [app]. rewrite decodeFrom_pad1.
    replace 0 with (Z.land val 63) at 1 2.
    2:{ change 63 with (Z.ones 6). rewrite Z.land_ones, Hval, pack_arith by lia. arith. }
    rewrite assemble_sextets by assumption.
    f_equal. f_equal; [|f_equal]; apply byte_of_val;
      rewrite Hval, pack_arith, Z.shiftr_div_pow2 by lia; arith.
  - cbn [EncodeToString].
    pose proof (byte_val_range a) as Ha. pose proof (byte_val_range b) as Hb.
    pose proof (byte_val_range c) as Hc.
    set (val := Z.lor (Z.lor (Z.shiftl (byte_val a) 16) (Z.shiftl (byte_val b) 8))
                      (byte_val c)).
    assert (Hr : 0 <= val < 16777216) by (apply pack_range; lia).
    rewrite (decodeFrom_digit _ _ _ _ (decodeMap_encode _ (sextet_range val 18 ltac:(lia)))).
    rewrite (decodeFrom_digit _ _ _ _ (decodeMap_encode _ (sextet_range val 12 ltac:(lia)))).
    rewrite (decodeFrom_digit _ _ _ _ (decodeMap_encode _ (sextet_range val 6 ltac:(lia)))).
    rewrite (decodeFrom_digit _ _ _ _ (decodeMap_encode _ (sextet0_range val))).
    cbn [app]. cbv zeta. rewrite IH, assemble_sextets by assumption.
    f_equal. f_equal; [|f_equal; [|f_equal]]; apply byte_of_val; unfold val;
      rewrite pack_arith, ?Z.shiftr_div_pow2 by lia; arith.
Qed.


(** *** White space around an encoded value *)

Lemma accepted_low c : accepted c = true -> byte_val c < 128.
Proof.
  destruct c as [[|] [|] [|] [|] [|] [|] [|] [|]]; vm_compute; congruence.
Qed.

Lemma accepted_space c : accepted c = true -> GoStrings.asciiSpace c = isNewline c.
Proof.
  destruct c as [[|] [|] [|] [|] [|] [|] [|] [|]]; vm_compute; congruence.
Qed.

Lemma isNewline_decodeMap c : isNewline c = true -> decodeMap c = None.
Proof.
  destruct c as [[|] [|] [|] [|] [|] [|] [|] [|]]; vm_compute; congruence.
Qed.

Lemma space2_high a b :
  GoStrings.space2 a b = true -> 128 <= byte_val a /\ 128 <= byte_val b.
Proof. unfold GoStrings.space2, byte_val. lia. Qed.

Lemma space3_high a b c :
  GoStrings.space3 a b c = true -> 128 <= byte_val a /\ 128 <= byte_val c.
Proof. unfold GoStrings.space3, byte_val. lia. Qed.
Lemma decodeFrom_newline c rest dbuf :
  isNewline c = true -> decodeFrom (String c rest) dbuf = decodeFrom rest dbuf.
Proof.
  intros H. cbn [decodeFrom]. rewrite (isNewline_decodeMap c H), H. reflexivity.
Qed.

Lemma skipNewlines_app rest nls :
  skipNewlines nls = EmptyString ->
  skipNewlines (rest +:+ nls)
  = match skipNewlines rest with
    | EmptyString => EmptyString
    | String p r => String p (r +:+ nls)
    end.
Proof.
  intros Hn. induction rest as [|c rest IH].
  - change (EmptyString +:+ nls) with nls. rewrite Hn. reflexivity.
  - change (String c rest +:+ nls) with (String c (rest +:+ nls)).
    cbn [skipNewlines]. destruct (isNewline c); [exact IH | reflexivity].
Qed.

(** New lines after the text change nothing. *)
Lemma decodeFrom_app_newlines s nls :
  skipNewlines nls = EmptyString ->
  forall dbuf, decodeFrom (s +:+ nls) dbuf = decodeFrom s dbuf.
Proof.
  intros Hn. induction s as [|c s IH]; intros dbuf.
  - change (EmptyString +:+ nls) with nls. clear -Hn. induction nls as [|c nls IH].
    + reflexivity.
    + cbn [skipNewlines] in Hn. destruct (isNewline c) eqn:Hc; [|discriminate].
      rewrite (decodeFrom_newline c nls dbuf Hc). apply IH, Hn.
  - change (String c s +:+ nls) with (String c (s +:+ nls)). cbn [decodeFrom].
    destruct (decodeMap c) as [v|].
    + destruct dbuf as [|d0 [|d1 [|d2 [|d3 dbuf]]]]; cbn [app]; rewrite IH; reflexivity.
    + destruct (isNewline c); [apply IH|].
      destruct (Ascii.eqb c padChar); [|reflexivity].
      destruct dbuf as [|d0 [|d1 [|d2 [|d3 dbuf]]]]; try reflexivity.
      * rewrite (skipNewlines_app s nls Hn).
        destruct (skipNewlines s) as [|p rest']; [reflexivity|].
        destruct (Ascii.eqb p padChar); [|reflexivity].
        rewrite (skipNewlines_app rest' nls Hn).
        destruct (skipNewlines rest'); reflexivity.
      * rewrite (skipNewlines_app s nls Hn).
        destruct (skipNewlines s); reflexivity.
Qed.

Lemma accepted_newline c : isNewline c = true -> accepted c = true.
Proof. intros H. unfold accepted. rewrite H. apply orb_true_iff. left. apply orb_true_r. Qed.

Lemma accepted_digit c v : decodeMap c = Some v -> accepted c = true.
Proof. intros H. unfold accepted. rewrite H. reflexivity. Qed.

Lemma accepted_pad c : Ascii.eqb c padChar = true -> accepted c = true.
Proof. intros H. unfold accepted. rewrite H. apply orb_true_r. Qed.

Lemma skipNewlines_accepted s :
  accepted_string (skipNewlines s) -> accepted_string s.
Proof.
  induction s as [|c s IH]; cbn [skipNewlines]; [auto|].
  destruct (isNewline c) eqn:Hc; [|auto].
  intros H. constructor; [apply accepted_newline, Hc | apply IH, H].
Qed.

(** A text that decodes holds accepted bytes only. *)
Lemma decodeFrom_accepted s :
  forall dbuf out, decodeFrom s dbuf = Some out -> accepted_string s.
Proof.
  induction s as [|c s IH]; intros dbuf out H.
  - constructor.
  - cbn [decodeFrom] in H. destruct (decodeMap c) as [v|] eqn:Hd.
    + constructor; [apply (accepted_digit c v Hd)|].
      destruct dbuf as [|d0 [|d1 [|d2 [|d3 dbuf]]]]; cbn [app] in H;
        try (apply (IH _ _ H)).
      destruct (decodeFrom s []) eqn:Hs; [|discriminate]. apply (IH _ _ Hs).
    + destruct (isNewline c) eqn:Hn.
      * constructor; [apply accepted_newline, Hn | apply (IH _ _ H)].
      * destruct (Ascii.eqb c padChar) eqn:Hp; [|discriminate].
        constructor; [apply accepted_pad, Hp|].
        apply skipNewlines_accepted.
        destruct dbuf as [|d0 [|d1 [|d2 [|d3 dbuf]]]]; try discriminate.
        -- destruct (skipNewlines s) as [|p rest']; [discriminate|].
           destruct (Ascii.eqb p padChar) eqn:Hp'; [|discriminate].
           constructor; [apply accepted_pad, Hp'|].
           apply skipNewlines_accepted.
           destruct (skipNewlines rest'); [constructor | discriminate].
        -- destruct (skipNewlines s); [constructor | discriminate].
Qed.

Lemma trimLeft_accepted l :
  Forall (fun c => accepted c = true) l -> GoStrings.trimLeft l = dropNewlines l.
Proof.
  induction 1 as [|a r1 Ha Hr IH]; [reflexivity|].
  cbn [GoStrings.trimLeft dropNewlines].
  rewrite (accepted_space a Ha). destruct (isNewline a); [exact IH|].
  pose proof (accepted_low a Ha) as Hlow.
  destruct r1 as [|b r2]; [reflexivity|].
  destruct (GoStrings.space2 a b) eqn:H2; [apply space2_high in H2; lia|].
  destruct r2 as [|c r3]; [reflexivity|].
  destruct (GoStrings.space3 a b c) eqn:H3; [apply space3_high in H3; lia|].
  reflexivity.
Qed.

Lemma trimRightRev_accepted r :
  Forall (fun c => accepted c = true) r -> GoStrings.trimRightRev r = dropNewlines r.
Proof.
  induction 1 as [|a r1 Ha Hr IH]; [reflexivity|].
  cbn [GoStrings.trimRightRev dropNewlines].
  rewrite (accepted_space a Ha). destruct (isNewline a); [exact IH|].
  pose proof (accepted_low a Ha) as Hlow.
  destruct r1 as [|b r2]; [reflexivity|].
  destruct (GoStrings.space2 b a) eqn:H2; [apply space2_high in H2; lia|].
  destruct r2 as [|c r3]; [reflexivity|].
  destruct (GoStrings.space3 c b a) eqn:H3; [apply space3_high in H3; lia|].
  reflexivity.
Qed.

Lemma trimLeft_spaces lw l :
  Forall (fun c => GoStrings.asciiSpace c = true) lw ->
  GoStrings.trimLeft (lw ++ l) = GoStrings.trimLeft l.
Proof.
  induction 1 as [|a lw Ha Hlw IH]; [reflexivity|].
  cbn [app GoStrings.trimLeft]. rewrite Ha. exact IH.
Qed.

Lemma dropNewlines_accepted l :
  Forall (fun c => accepted c = true) l ->
  Forall (fun c => accepted c = true) (dropNewlines l).
Proof.
  induction 1 as [|a r Ha Hr IH]; [constructor|].
  cbn [dropNewlines]. destruct (isNewline a); [exact IH | constructor; assumption].
Qed.

Lemma dropNewlines_split l :
  exists nls, l = nls ++ dropNewlines l
              /\ Forall (fun c => isNewline c = true) nls.
Proof.
  induction l as [|a r (nls & Heq & Hnls)].
  - exists []. split; [reflexivity | constructor].
  - cbn [dropNewlines]. destruct (isNewline a) eqn:Ha.
    + exists (a :: nls). split; [cbn [app]; f_equal; exact Heq | constructor; assumption].
    + exists []. split; [reflexivity | constructor].
Qed.

Lemma string_of_list_ascii_app l1 l2 :
  string_of_list_ascii (l1 ++ l2)
  = string_of_list_ascii l1 +:+ string_of_list_ascii l2.
Proof. induction l1 as [|a l1 IH]; [reflexivity|]. simpl. rewrite IH. reflexivity. Qed.

Lemma list_ascii_of_string_app s1 s2 :
  list_ascii_of_string (s1 +:+ s2)
  = list_ascii_of_string s1 ++ list_ascii_of_string s2.
Proof. induction s1 as [|a s1 IH]; [reflexivity|]. simpl. rewrite IH. reflexivity. Qed.

Lemma skipNewlines_all nls :
  Forall (fun c => isNewline c = true) nls ->
  skipNewlines (string_of_list_ascii nls) = EmptyString.
Proof.
  induction 1 as [|a nls Ha Hnls IH]; [reflexivity|].
  cbn [string_of_list_ascii skipNewlines]. rewrite Ha. exact IH.
Qed.

Lemma decodeFrom_dropNewlines l dbuf :
  decodeFrom (string_of_list_ascii (dropNewlines l)) dbuf
  = decodeFrom (string_of_list_ascii l) dbuf.
Proof.
  induction l as [|a r IH]; [reflexivity|].
  cbn [dropNewlines]. destruct (isNewline a) eqn:Ha; [|reflexivity].
  cbn [string_of_list_ascii]. rewrite (decodeFrom_newline a _ dbuf Ha). exact IH.
Qed.

(** What [TrimSpace] leaves of white space followed by a text that
    decodes, decodes to the same bytes. *)
Lemma DecodeString_TrimSpace ws s out :
  Forall (fun c => GoStrings.asciiSpace c = true) (list_ascii_of_string ws) ->
  DecodeString s = Some out ->
  DecodeString (GoStrings.TrimSpace (ws +:+ s)) = Some out.
Proof.
  intros Hws Hdec. unfold DecodeString in *.
  pose proof (decodeFrom_accepted s [] out Hdec) as Hacc.
  unfold accepted_string in Hacc. unfold GoStrings.TrimSpace.
  rewrite list_ascii_of_string_app, (trimLeft_spaces _ _ Hws),
    (trimLeft_accepted _ Hacc).
  set (l1 := dropNewlines (list_ascii_of_string s)).
  assert (Hl1 : Forall (fun c => accepted c = true) l1)
    by (apply dropNewlines_accepted, Hacc).
  rewrite trimRightRev_accepted by (apply Forall_rev, Hl1).
  destruct (dropNewlines_split (rev l1)) as (nls & Heq & Hnls).
  assert (Hsplit : l1 = rev (dropNewlines (rev l1)) ++ rev nls).
  { rewrite <- rev_app_distr, <- Heq, rev_involutive. reflexivity. }
  rewrite <- (decodeFrom_app_newlines _ (string_of_list_ascii (rev nls))).
  2:{ apply skipNewlines_all, Forall_rev, Hnls. }
  rewrite <- string_of_list_ascii_app, <- Hsplit. unfold l1.
  rewrite decodeFrom_dropNewlines, string_of_list_ascii_of_string. exact Hdec.
Qed.

End Base64Facts.




(** ** Reading the remote state *)

(** C10.  A read that returns an error leaves the ownership cache as it
    was, whichever step failed (building the request, the transport, the
    status, reading or decoding the body); a read that succeeds replaces the
    cache with the ownership data of the very records it returns. *)
Theorem Records_cache_replaced_only_on_success (rt : Runtime) (st st' : State)
    (res : error + list Endpoint) :
  Records rt st = (res, st') ->
  match res with
  | inl _ => knownRecords st' = knownRecords st
  | inr endpoints => knownRecords st' = cacheFromSlice endpoints
  end.
Proof.
  unfold Records. intros H.
  destruct (apiRequest rt MethodGet (baseURL rt +:+ SearchOverridesEndpoint) "")
    as [e|req].
  - inversion H; subst. reflexivity.
  - unfold bind, Do, ret in H.
    destruct (client_Do rt (trace st) (OpSearch, req)) as [msg|resp].
    + inversion H; subst. reflexivity.
    + destruct (negb (StatusCode resp =? StatusOK)).
      * inversion H; subst. reflexivity.
      * destruct (marshalEndpoints rt resp) as [e|eps].
        -- inversion H; subst. reflexivity.
        -- inversion H; subst. reflexivity.
Qed.

Lemma Records_cache_replaced_only_on_success_witness :
  knownRecords
    (snd (Records (Example.runtime Example.garbled)
            {| knownRecords := {[ "kept.example" := Example.heritage ]};
               trace := [] |}))
  = {[ "kept.example" := Example.heritage ]}.
Proof.
  exact (Records_cache_replaced_only_on_success
           (Example.runtime Example.garbled)
           {| knownRecords := {[ "kept.example" := Example.heritage ]};
              trace := [] |}
           _ (inl _) eq_refl).
Defined.

(** C5.  When the remote answers a read with a status other than 200, the
    error is [ErrRequestFailed] and not [ErrMarshalling]; when it answers
    200 with a body that cannot be read or does not parse, the error is
    [ErrMarshalling] and not [ErrRequestFailed]. *)
Theorem Records_error_kinds (rt : Runtime) (st : State) (resp : Response) :
  NewRequestWithContext rt MethodGet (req_url (searchRequest rt)) = None ->
  client_Do rt (trace st) (OpSearch, searchRequest rt) = inr resp ->
  (StatusCode resp <> StatusOK ->
   exists err, fst (Records rt st) = inl err
               /\ errors_Is err ErrRequestFailed = true
               /\ errors_Is err ErrMarshalling = false)
  /\ (StatusCode resp = StatusOK ->
      (isSome (BodyErr resp) = true
       \/ exists msg, json_Unmarshal_SearchHostResp rt (Body resp) = inl msg) ->
      exists err, fst (Records rt st) = inl err
                  /\ errors_Is err ErrMarshalling = true
                  /\ errors_Is err ErrRequestFailed = false).
Proof.
  intros Hreq Hdo. unfold Records, apiRequest.
  change (baseURL rt +:+ SearchOverridesEndpoint) with (req_url (searchRequest rt)).
  rewrite Hreq. unfold bind, Do, ret.
  change {| req_method := MethodGet; req_url := req_url (searchRequest rt);
            req_body := "" |} with (searchRequest rt).
  rewrite Hdo. split.
  - intros Hst. apply Z.eqb_neq in Hst. rewrite Hst. simpl.
    eexists. repeat split.
  - intros Hst Hbad. apply Z.eqb_eq in Hst. rewrite Hst. simpl.
    unfold marshalEndpoints. destruct Hbad as [Hb | [msg Hmsg]].
    + destruct (BodyErr resp); [|discriminate]. simpl.
      eexists. repeat split.
    + destruct (BodyErr resp); simpl.
      * eexists. repeat split.
      * rewrite Hmsg. simpl. eexists. repeat split.
Qed.

Lemma Records_error_kinds_witness :
  (exists err, fst (Records (Example.runtime Example.bad_request) Example.fresh) = inl err
               /\ errors_Is err ErrRequestFailed = true
               /\ errors_Is err ErrMarshalling = false)
  /\ (exists err, fst (Records (Example.runtime Example.garbled) Example.fresh) = inl err
                  /\ errors_Is err ErrMarshalling = true
                  /\ errors_Is err ErrRequestFailed = false).
Proof.
  split.
  - apply (Records_error_kinds (Example.runtime Example.bad_request) Example.fresh
             {| StatusCode := 400; Status := "400 Bad Request";
                Body := ""; BodyErr := None |} eq_refl eq_refl).
    discriminate.
  - apply (Records_error_kinds (Example.runtime Example.garbled) Example.fresh
             {| StatusCode := 200; Status := "200 OK";
                Body := "{"; BodyErr := None |} eq_refl eq_refl).
    + reflexivity.
    + right. exists "unexpected end of JSON input". reflexivity.
Defined.

(** ** Applying a change-set *)

(** C9 (amended).  A change-set whose four lists are empty, and whose
    two update lists are both nil or both empty without being nil, is
    applied with no error, no call to the remote and no change to the
    cache. *)
Theorem ApplyChanges_empty (rt : Runtime) (st : State) (updatesNil : bool) :
  ApplyChanges rt
    {| Create := []; UpdateOld := []; UpdateNew := []; Delete := [];
       UpdateOldNil := updatesNil; UpdateNewNil := updatesNil |} st
  = (None, st).
Proof.
  unfold ApplyChanges, HasChanges, cmp_Equal, slice_Equal.
  cbn [Create Delete UpdateOld UpdateNew UpdateOldNil UpdateNewNil length
       Z.of_nat Z.ltb Z.compare orb elements_Equal].
  rewrite Bool.eqb_reflx. reflexivity.
Qed.

(** C9, as stated, fails.  The four lists are empty, [UpdateOld] is nil
    and [UpdateNew] is empty without being nil, as when a plan is decoded
    from a text that gives null for the one and an empty array for the
    other: [cmp.Equal] tells them apart, the change-set has changes, and
    the reconfigure call is made. *)
Lemma ApplyChanges_nil_against_empty :
  let changes : Changes :=
    {| Create := []; UpdateOld := []; UpdateNew := []; Delete := [];
       UpdateOldNil := true; UpdateNewNil := false |} in
  let rt := Example.runtime Example.obliging in
  length (Create changes) = 0%nat /\ length (UpdateOld changes) = 0%nat
  /\ length (UpdateNew changes) = 0%nat /\ length (Delete changes) = 0%nat
  /\ issued Example.fresh (snd (ApplyChanges rt changes Example.fresh))
     = [(OpReconfigure, reconfigureRequest rt)].
Proof. vm_compute. repeat split. Qed.

(** ** The outcome of a single remote operation *)

Lemma checkResponse_RequestFailed rt body want e :
  checkResponse rt body want = Some e -> errors_Is e ErrRequestFailed = true.
Proof.
  unfold checkResponse.
  destruct (json_Unmarshal_OperationResponse rt body) as [err result].
  destruct (isSome err || negb (String.eqb (Result result) want));
    intros H; inversion H; reflexivity.
Qed.

Lemma answer_error_RequestFailed rt want resp e :
  answer_error rt want resp = Some e -> errors_Is e ErrRequestFailed = true.
Proof.
  unfold answer_error. destruct (negb (StatusCode resp =? StatusOK)).
  - intros H; inversion H; reflexivity.
  - apply checkResponse_RequestFailed.
Qed.

Lemma answer_error_bad_status rt want resp :
  StatusCode resp <> StatusOK ->
  exists e, answer_error rt want resp = Some e /\ errors_Is e ErrRequestFailed = true.
Proof.
  intros H. apply Z.eqb_neq in H. unfold answer_error. rewrite H. simpl.
  eexists. split; reflexivity.
Qed.

Lemma Records_unfold rt st :
  Records rt st =
  match NewRequestWithContext rt MethodGet (req_url (searchRequest rt)) with
  | Some msg =>
      (inl (Errorf "records request: %w" []
              (Errorf "create request: %w" [] (LibErr msg))), st)
  | None =>
      let st1 := {| knownRecords := knownRecords st;
                    trace := trace st ++ [(OpSearch, searchRequest rt)] |} in
      match client_Do rt (trace st) (OpSearch, searchRequest rt) with
      | inl msg => (inl (Errorf "records response: %w" [] (LibErr msg)), st1)
      | inr resp =>
          if negb (StatusCode resp =? StatusOK) then
            (inl (Errorf "status %v: %w" [ArgString (Status resp)] ErrRequestFailed), st1)
          else
            match marshalEndpoints rt resp with
            | inl err => (inl (JoinErr ErrMarshalling err), st1)
            | inr endpoints =>
                (inr endpoints,
                 {| knownRecords := cacheFromSlice endpoints; trace := trace st1 |})
            end
      end
  end.
Proof.
  unfold Records, apiRequest, searchRequest; simpl.
  destruct (NewRequestWithContext rt MethodGet (baseURL rt +:+ SearchOverridesEndpoint));
    [reflexivity|].
  unfold bind, Do, ret; simpl.
  destruct (client_Do rt (trace st) _) as [msg|resp]; [reflexivity|].
  destruct (negb (StatusCode resp =? StatusOK)); [reflexivity|].
  destruct (marshalEndpoints rt resp); reflexivity.
Qed.

Lemma createTarget_unfold rt data ep st :
  createTarget rt data ep st =
  match NewRequestWithContext rt MethodPost (req_url (addRequest rt data)) with
  | Some msg =>
      (Some (Errorf "create endpoint request: %w" []
               (Errorf "create request: %w" [] (LibErr msg))), st)
  | None =>
      (match client_Do rt (trace st) (OpAdd, addRequest rt data) with
       | inl msg => Some (Errorf "create http do: %w" [] (LibErr msg))
       | inr resp => answer_error rt CreateOpSuccessResponse resp
       end,
       {| knownRecords := knownRecords st;
          trace := trace st ++ [(OpAdd, addRequest rt data)] |})
  end.
Proof.
  unfold createTarget, postAPIRequest, apiRequest, addRequest, answer_error; simpl.
  destruct (NewRequestWithContext rt MethodPost (baseURL rt +:+ AddOverrideEndpoint));
    [reflexivity|].
  unfold bind, Do, ret; simpl.
  destruct (client_Do rt (trace st) _) as [msg|resp]; [reflexivity|].
  unfold responseBody.
  destruct (negb (StatusCode resp =? StatusOK)); reflexivity.
Qed.

Lemma deleteEndpoint_unfold rt ep st :
  deleteEndpoint rt ep st =
  match NewRequestWithContext rt MethodPost (req_url (deleteRequest rt ep)) with
  | Some msg =>
      (Some (Errorf "delete request: %w" []
               (Errorf "create request: %w" [] (LibErr msg))), st)
  | None =>
      (match client_Do rt (trace st) (OpDelete, deleteRequest rt ep) with
       | inl msg => Some (Errorf "delete http do: %w" [] (LibErr msg))
       | inr resp => answer_error rt DeleteOpSuccessResponse resp
       end,
       {| knownRecords := knownRecords st;
          trace := trace st ++ [(OpDelete, deleteRequest rt ep)] |})
  end.
Proof.
  unfold deleteEndpoint, apiRequest, deleteRequest, answer_error; simpl.
  destruct (NewRequestWithContext rt MethodPost
              (baseURL rt +:+ path_Join rt DelOverrideEndpoint (SetIdentifier ep)));
    [reflexivity|].
  unfold bind, Do, ret; simpl.
  destruct (client_Do rt (trace st) _) as [msg|resp]; [reflexivity|].
  unfold responseBody.
  destruct (negb (StatusCode resp =? StatusOK)); reflexivity.
Qed.

Lemma reconfigure_unfold rt st :
  reconfigure rt st =
  match NewRequestWithContext rt MethodPost (req_url (reconfigureRequest rt)) with
  | Some msg =>
      (Some (Errorf "reconfigure request create: %w" []
               (Errorf "create request: %w" [] (LibErr msg))), st)
  | None =>
      (match client_Do rt (trace st) (OpReconfigure, reconfigureRequest rt) with
       | inl msg => Some (Errorf "reconfigure: %w" [] (LibErr msg))
       | inr resp => answer_error rt EmptyString resp
       end,
       {| knownRecords := knownRecords st;
          trace := trace st ++ [(OpReconfigure, reconfigureRequest rt)] |})
  end.
Proof.
  unfold reconfigure, postAPIRequest, apiRequest, reconfigureRequest, answer_error; simpl.
  destruct (NewRequestWithContext rt MethodPost (baseURL rt +:+ ApplyChangesEndpoint));
    [reflexivity|].
  unfold bind, Do, ret; simpl.
  destruct (client_Do rt (trace st) _) as [msg|resp]; [reflexivity|].
  unfold responseBody.
  destruct (negb (StatusCode resp =? StatusOK)); reflexivity.
Qed.

(** C8, as the code has it.  When [client.Do] fails, each of the four
    operations returns the transport error under a message of its own;
    that error is not [ErrRequestFailed].  A status other than 200, on the
    contrary, gives an error that is. *)
Theorem transport_error_is_wrapped_as_is (rt : Runtime) (st : State) (msg : string) :
  (NewRequestWithContext rt MethodGet (req_url (searchRequest rt)) = None ->
   client_Do rt (trace st) (OpSearch, searchRequest rt) = inl msg ->
   fst (Records rt st) = inl (Errorf "records response: %w" [] (LibErr msg)))
  /\ (forall data ep,
       NewRequestWithContext rt MethodPost (req_url (addRequest rt data)) = None ->
       client_Do rt (trace st) (OpAdd, addRequest rt data) = inl msg ->
       fst (createTarget rt data ep st)
       = Some (Errorf "create http do: %w" [] (LibErr msg)))
  /\ (forall ep,
       NewRequestWithContext rt MethodPost (req_url (deleteRequest rt ep)) = None ->
       client_Do rt (trace st) (OpDelete, deleteRequest rt ep) = inl msg ->
       fst (deleteEndpoint rt ep st)
       = Some (Errorf "delete http do: %w" [] (LibErr msg)))
  /\ (NewRequestWithContext rt MethodPost (req_url (reconfigureRequest rt)) = None ->
      client_Do rt (trace st) (OpReconfigure, reconfigureRequest rt) = inl msg ->
      fst (reconfigure rt st) = Some (Errorf "reconfigure: %w" [] (LibErr msg)))
  /\ (forall format,
       errors_Is (Errorf format [] (LibErr msg)) ErrRequestFailed = false
       /\ errors_Is (Errorf format [] (LibErr msg)) (LibErr msg) = true)
  /\ (forall resp,
       StatusCode resp <> StatusOK ->
       (NewRequestWithContext rt MethodGet (req_url (searchRequest rt)) = None ->
        client_Do rt (trace st) (OpSearch, searchRequest rt) = inr resp ->
        exists e, fst (Records rt st) = inl e /\ errors_Is e ErrRequestFailed = true)
       /\ (forall data ep,
            NewRequestWithContext rt MethodPost (req_url (addRequest rt data)) = None ->
            client_Do rt (trace st) (OpAdd, addRequest rt data) = inr resp ->
            exists e, fst (createTarget rt data ep st) = Some e
                      /\ errors_Is e ErrRequestFailed = true)
       /\ (forall ep,
            NewRequestWithContext rt MethodPost (req_url (deleteRequest rt ep)) = None ->
            client_Do rt (trace st) (OpDelete, deleteRequest rt ep) = inr resp ->
            exists e, fst (deleteEndpoint rt ep st) = Some e
                      /\ errors_Is e ErrRequestFailed = true)
       /\ (NewRequestWithContext rt MethodPost (req_url (reconfigureRequest rt)) = None ->
           client_Do rt (trace st) (OpReconfigure, reconfigureRequest rt) = inr resp ->
           exists e, fst (reconfigure rt st) = Some e
                     /\ errors_Is e ErrRequestFailed = true)).
Proof.
  repeat split.
  - intros Hreq Hdo. rewrite Records_unfold, Hreq, Hdo. reflexivity.
  - intros data ep Hreq Hdo. rewrite createTarget_unfold, Hreq, Hdo. reflexivity.
  - intros ep Hreq Hdo. rewrite deleteEndpoint_unfold, Hreq, Hdo. reflexivity.
  - intros Hreq Hdo. rewrite reconfigure_unfold, Hreq, Hdo. reflexivity.
  - simpl. rewrite String.eqb_refl. reflexivity.
  - intros Hreq Hdo. rewrite Records_unfold, Hreq, Hdo.
    apply Z.eqb_neq in H. rewrite H. simpl. eexists. split; reflexivity.
  - intros data ep Hreq Hdo. rewrite createTarget_unfold, Hreq, Hdo. simpl.
    apply answer_error_bad_status. assumption.
  - intros ep Hreq Hdo. rewrite deleteEndpoint_unfold, Hreq, Hdo. simpl.
    apply answer_error_bad_status. assumption.
  - intros Hreq Hdo. rewrite reconfigure_unfold, Hreq, Hdo. simpl.
    apply answer_error_bad_status. assumption.
Qed.

Lemma transport_error_is_wrapped_as_is_witness :
  fst (Records (Example.runtime Example.unreachable) Example.fresh)
  = inl (Errorf "records response: %w" [] (LibErr "dial tcp: connection refused"))
  /\ fst (deleteEndpoint (Example.runtime Example.unreachable)
            (Example.record "delete.this" "A" "5.6.7.8" "uuid") Example.fresh)
     = Some (Errorf "delete http do: %w" [] (LibErr "dial tcp: connection refused"))
  /\ exists e, fst (reconfigure (Example.runtime Example.bad_request) Example.fresh) = Some e
               /\ errors_Is e ErrRequestFailed = true.
Proof.
  split; [|split].
  - apply (transport_error_is_wrapped_as_is
             (Example.runtime Example.unreachable) Example.fresh
             "dial tcp: connection refused"); reflexivity.
  - apply (transport_error_is_wrapped_as_is
             (Example.runtime Example.unreachable) Example.fresh
             "dial tcp: connection refused"); reflexivity.
  - apply (transport_error_is_wrapped_as_is
             (Example.runtime Example.bad_request) Example.fresh ""
             ) with (resp := {| StatusCode := 400; Status := "400 Bad Request";
                                Body := ""; BodyErr := None |});
      [discriminate | reflexivity | reflexivity].
Defined.

(** C8 as the specification words it fails: a read whose transport fails
    returns an error that does not test as [ErrRequestFailed]. *)
Lemma transport_error_not_RequestFailed :
  exists err,
    fst (Records (Example.runtime Example.unreachable) Example.fresh) = inl err
    /\ errors_Is err ErrRequestFailed = false.
Proof. eexists. split; reflexivity. Qed.

(** ** Strings *)

Module GoStringsFacts.
Import GoStrings.

Lemma HasPrefix_app p rest : HasPrefix (p +:+ rest) p = true.
Proof.
  unfold HasPrefix. induction p as [|a p IH]; simpl.
  - destruct rest; reflexivity.
  - destruct (ascii_dec a a) as [_|n]; [exact IH | contradiction].
Qed.

Lemma CutPrefix_app p rest : CutPrefix (p +:+ rest) p = Some rest.
Proof.
  induction p as [|a p IH]; simpl.
  - destruct rest; reflexivity.
  - rewrite Ascii.eqb_refl. exact IH.
Qed.

Lemma Replace1_prefix p rest new : Replace1 (p +:+ rest) p new = new +:+ rest.
Proof.
  destruct (p +:+ rest) eqn:E; unfold Replace1; fold Replace1;
    rewrite <- E, CutPrefix_app; reflexivity.
Qed.

Lemma Split_not_nil s sep : Split s sep <> [].
Proof.
  destruct s as [|c s]; simpl; [discriminate|].
  destruct (Ascii.eqb c sep); [discriminate|].
  destruct (Split s sep); discriminate.
Qed.

(** Joining what was split gives the string back. *)
Lemma Join_Split s sep :
  Join (Split s sep) (String sep EmptyString) = s.
Proof.
  unfold Join. induction s as [|c s IH]; [reflexivity|].
  cbn [Split]. destruct (Ascii.eqb c sep) eqn:E.
  - apply Ascii.eqb_eq in E. subst c.
    pose proof (Split_not_nil s sep) as Hn.
    destruct (Split s sep) as [|h t]; [contradiction|].
    change (String.concat (String sep EmptyString) (EmptyString :: h :: t))
      with (String sep (String.concat (String sep EmptyString) (h :: t))).
    rewrite IH. reflexivity.
  - pose proof (Split_not_nil s sep) as Hn.
    destruct (Split s sep) as [|h t]; [contradiction|].
    destruct t as [|h' t]; rewrite <- IH; reflexivity.
Qed.

(** The first segment of a split holds no separator, so that it is again
    the first segment of whatever it is put in front of. *)
Lemma Split_hd_app s sep rest :
  Split (hd EmptyString (Split s sep) +:+ String sep rest) sep
  = hd EmptyString (Split s sep) :: Split rest sep.
Proof.
  induction s as [|c s IH].
  - simpl. rewrite Ascii.eqb_refl. reflexivity.
  - cbn [Split]. destruct (Ascii.eqb c sep) eqn:E.
    + simpl. rewrite Ascii.eqb_refl. reflexivity.
    + pose proof (Split_not_nil s sep) as Hn.
      destruct (Split s sep) as [|h t]; [contradiction|].
      cbn [hd] in *.
      change (String c h +:+ String sep rest) with (String c (h +:+ String sep rest)).
      cbn [Split]. rewrite E, IH. reflexivity.
Qed.

End GoStringsFacts.

(** ** Decoding remote records *)

Lemma endpointsFromBase64Description_framed dnsName ws b64 value :
  Forall (fun c => GoStrings.asciiSpace c = true) (list_ascii_of_string ws) ->
  Base64.DecodeString b64 = Some value ->
  endpointsFromBase64Description dnsName (DescriptionPrefix +:+ ws +:+ b64)
  = Some [ {| DNSName := dnsName; Targets := [value]; RecordType := RecordTypeTXT;
              SetIdentifier := ""; RecordTTL := 0; Labels := ∅;
              ProviderSpecific := [];
              TargetsNil := false; LabelsNil := true;
              ProviderSpecificNil := true |};
           {| DNSName := "a-" +:+ dnsName; Targets := [value];
              RecordType := RecordTypeTXT;
              SetIdentifier := ""; RecordTTL := 0; Labels := ∅;
              ProviderSpecific := [];
              TargetsNil := false; LabelsNil := true;
              ProviderSpecificNil := true |} ].
Proof.
  intros Hws Hdec. unfold endpointsFromBase64Description.
  rewrite GoStringsFacts.HasPrefix_app, GoStringsFacts.Replace1_prefix.
  cbn [negb]. change (EmptyString +:+ (ws +:+ b64)) with (ws +:+ b64).
  rewrite (Base64Facts.DecodeString_TrimSpace ws b64 value Hws Hdec).
  reflexivity.
Qed.

Lemma endpointsFromBase64Description_unframed dnsName description :
  GoStrings.HasPrefix description DescriptionPrefix = false ->
  endpointsFromBase64Description dnsName description = None.
Proof.
  intros H. unfold endpointsFromBase64Description. rewrite H. reflexivity.
Qed.

Lemma ToEndpoints_rows_app rows : forall out,
  ToEndpoints_rows rows out = out ++ ToEndpoints_rows rows [].
Proof.
  induction rows as [|row rows IH]; intros out; cbn [ToEndpoints_rows].
  - rewrite app_nil_r. reflexivity.
  - destruct (endpointsFromBase64Description _ _) as [txt|];
      rewrite IH; symmetry; rewrite IH; cbn [app];
      rewrite <- ?app_assoc; reflexivity.
Qed.

Lemma ToEndpoints_single row :
  ToEndpoints {| Rows := [row] |}
  = marshalledEndpoint row
      :: match endpointsFromBase64Description
                 (Hostname row +:+ "." +:+ Domain row) (Description row) with
         | Some txtEndpoints => txtEndpoints
         | None => []
         end.
Proof.
  unfold ToEndpoints. cbn [Rows ToEndpoints_rows].
  change (DNSName (marshalledEndpoint row)) with (Hostname row +:+ "." +:+ Domain row).
  destruct (endpointsFromBase64Description _ _); reflexivity.
Qed.

(** C2.  A remote record with an empty description is decoded to one
    record.  A remote record whose description is the prefix, white space
    (the one space of the wire format, or none) and a text that
    [DecodeString] accepts is decoded to three: the address record, named
    [hostname.domain], identified by the remote identifier, of the kind
    the first token of [rr] gives; then two TXT records with the decoded
    value as their target and no identifier, under that name and under
    ["a-"] followed by that name.  Rows are decoded one after the other. *)
Theorem ToEndpoints_one_or_three (row : Record_) :
  let name := Hostname row +:+ "." +:+ Domain row in
  let kind := hd EmptyString (GoStrings.Split (Rr row) " ") in
  (Description row = EmptyString ->
   ToEndpoints {| Rows := [row] |}
   = [ {| DNSName := name; Targets := [Server row]; RecordType := kind;
          SetIdentifier := UUID row; RecordTTL := 0; Labels := ∅;
          ProviderSpecific := [];
          TargetsNil := false; LabelsNil := true;
          ProviderSpecificNil := true |} ])
  /\ (forall ws b64 value,
       Forall (fun c => GoStrings.asciiSpace c = true) (list_ascii_of_string ws) ->
       Description row = DescriptionPrefix +:+ ws +:+ b64 ->
       Base64.DecodeString b64 = Some value ->
       ToEndpoints {| Rows := [row] |}
       = [ {| DNSName := name; Targets := [Server row]; RecordType := kind;
              SetIdentifier := UUID row; RecordTTL := 0;
              Labels := {[ "description" := Description row ]};
              ProviderSpecific := [];
              TargetsNil := false; LabelsNil := false;
              ProviderSpecificNil := true |};
           {| DNSName := name; Targets := [value]; RecordType := RecordTypeTXT;
              SetIdentifier := ""; RecordTTL := 0; Labels := ∅;
              ProviderSpecific := [];
              TargetsNil := false; LabelsNil := true;
              ProviderSpecificNil := true |};
           {| DNSName := "a-" +:+ name; Targets := [value];
              RecordType := RecordTypeTXT;
              SetIdentifier := ""; RecordTTL := 0; Labels := ∅;
              ProviderSpecific := [];
              TargetsNil := false; LabelsNil := true;
              ProviderSpecificNil := true |} ])
  /\ (forall rows,
       ToEndpoints {| Rows := row :: rows |}
       = ToEndpoints {| Rows := [row] |} ++ ToEndpoints {| Rows := rows |}).
Proof.
  intros name kind. split; [|split].
  - intros Hd. rewrite ToEndpoints_single, Hd.
    unfold marshalledEndpoint. rewrite Hd. reflexivity.
  - intros ws b64 value Hws Hd Hdec. rewrite ToEndpoints_single, Hd.
    rewrite (endpointsFromBase64Description_framed _ ws b64 value Hws Hdec).
    unfold marshalledEndpoint. rewrite Hd. reflexivity.
  - intros rows. unfold ToEndpoints. cbn [Rows ToEndpoints_rows].
    destruct (endpointsFromBase64Description _ _) as [txt|];
      rewrite (ToEndpoints_rows_app rows); reflexivity.
Qed.

Lemma ToEndpoints_one_or_three_witness :
  ToEndpoints
    {| Rows := [ {| UUID := "some-uuid-here"; Hostname := "foo";
                    Domain := "example.domain"; Rr := "A (Ipv4 Address)";
                    Server := "10.0.0.4"; Enabled := "1";
                    Description := "Managed by K8s external-dns aGVyaXRhZ2U9eA==" |} ] |}
  = [ {| DNSName := "foo.example.domain"; Targets := ["10.0.0.4"]; RecordType := "A";
         SetIdentifier := "some-uuid-here"; RecordTTL := 0;
         Labels := {[ "description" := "Managed by K8s external-dns aGVyaXRhZ2U9eA==" ]};
         ProviderSpecific := [];
         TargetsNil := false; LabelsNil := false;
         ProviderSpecificNil := true |};
      {| DNSName := "foo.example.domain"; Targets := ["heritage=x"];
         RecordType := "TXT"; SetIdentifier := ""; RecordTTL := 0; Labels := ∅;
         ProviderSpecific := [];
         TargetsNil := false; LabelsNil := true;
         ProviderSpecificNil := true |};
      {| DNSName := "a-foo.example.domain"; Targets := ["heritage=x"];
         RecordType := "TXT"; SetIdentifier := ""; RecordTTL := 0; Labels := ∅;
         ProviderSpecific := [];
         TargetsNil := false; LabelsNil := true;
         ProviderSpecificNil := true |} ].
Proof.
  apply (ToEndpoints_one_or_three
           {| UUID := "some-uuid-here"; Hostname := "foo";
              Domain := "example.domain"; Rr := "A (Ipv4 Address)";
              Server := "10.0.0.4"; Enabled := "1";
              Description := "Managed by K8s external-dns aGVyaXRhZ2U9eA==" |})
    with (ws := " ") (b64 := "aGVyaXRhZ2U9eA==").
  - repeat constructor.
  - reflexivity.
  - reflexivity.
Defined.

(** C7, as the code has it.  Ownership records are synthesized only from
    a description that starts with the prefix: any other description gives
    none.  The space after the prefix is not part of the test: what follows
    the prefix is trimmed of white space and decoded, so that the prefix
    immediately followed by a text [DecodeString] accepts gives the
    ownership records too. *)
Theorem ownership_requires_prefix (dnsName description : string) :
  (GoStrings.HasPrefix description DescriptionPrefix = false ->
   endpointsFromBase64Description dnsName description = None
   /\ forall row, Description row = description ->
                  length (ToEndpoints {| Rows := [row] |}) = 1%nat)
  /\ (forall txtEndpoints,
       endpointsFromBase64Description dnsName description = Some txtEndpoints ->
       GoStrings.HasPrefix description DescriptionPrefix = true)
  /\ (forall b64 value,
       Base64.DecodeString b64 = Some value ->
       endpointsFromBase64Description dnsName (DescriptionPrefix +:+ b64)
       = Some [ {| DNSName := dnsName; Targets := [value];
                   RecordType := RecordTypeTXT;
                   SetIdentifier := ""; RecordTTL := 0; Labels := ∅;
                   ProviderSpecific := [];
                   TargetsNil := false; LabelsNil := true;
                   ProviderSpecificNil := true |};
                {| DNSName := "a-" +:+ dnsName; Targets := [value];
                   RecordType := RecordTypeTXT;
                   SetIdentifier := ""; RecordTTL := 0; Labels := ∅;
                   ProviderSpecific := [];
                   TargetsNil := false; LabelsNil := true;
                   ProviderSpecificNil := true |} ]).
Proof.
  split; [|split].
  - intros H. split.
    + apply endpointsFromBase64Description_unframed, H.
    + intros row Hrow. rewrite ToEndpoints_single, Hrow.
      rewrite (endpointsFromBase64Description_unframed _ _ H). reflexivity.
  - intros txt H. destruct (GoStrings.HasPrefix description DescriptionPrefix) eqn:E;
      [reflexivity|].
    rewrite (endpointsFromBase64Description_unframed _ _ E) in H. discriminate.
  - intros b64 value Hdec.
    apply (endpointsFromBase64Description_framed dnsName EmptyString b64 value);
      [constructor | exact Hdec].
Qed.

Lemma ownership_requires_prefix_witness :
  endpointsFromBase64Description "foo.example.domain" "managed by hand" = None
  /\ endpointsFromBase64Description "foo.example.domain"
       "Managed by K8s external-dnsaGVyaXRhZ2U9eA=="
     <> None.
Proof.
  split.
  - apply (ownership_requires_prefix "foo.example.domain" "managed by hand").
    reflexivity.
  - destruct (ownership_requires_prefix "foo.example.domain" "") as (_ & _ & H).
    specialize (H "aGVyaXRhZ2U9eA==" "heritage=x" eq_refl). intros E.
    assert (X : Some [ {| DNSName := "foo.example.domain"; Targets := ["heritage=x"];
                          RecordType := RecordTypeTXT;
                          SetIdentifier := ""; RecordTTL := 0; Labels := ∅;
                          ProviderSpecific := [];
                          TargetsNil := false; LabelsNil := true;
                          ProviderSpecificNil := true |};
                       {| DNSName := "a-" +:+ "foo.example.domain";
                          Targets := ["heritage=x"];
                          RecordType := RecordTypeTXT;
                          SetIdentifier := ""; RecordTTL := 0; Labels := ∅;
                          ProviderSpecific := [];
                          TargetsNil := false; LabelsNil := true;
                          ProviderSpecificNil := true |} ] = None)
      by (rewrite <- H; exact E).
    discriminate X.
Defined.

(** C7 as the specification words it fails: a description in which no
    space follows the prefix still yields the two ownership records. *)
Lemma ownership_decoded_without_space :
  GoStrings.HasPrefix "Managed by K8s external-dnsQQ==" (DescriptionPrefix +:+ " ") = false
  /\ endpointsFromBase64Description "foo.example.domain"
       "Managed by K8s external-dnsQQ=="
     = Some [ {| DNSName := "foo.example.domain"; Targets := ["A"];
                 RecordType := "TXT";
                 SetIdentifier := ""; RecordTTL := 0; Labels := ∅;
                 ProviderSpecific := [];
                 TargetsNil := false; LabelsNil := true;
                 ProviderSpecificNil := true |};
              {| DNSName := "a-foo.example.domain"; Targets := ["A"];
                 RecordType := "TXT";
                 SetIdentifier := ""; RecordTTL := 0; Labels := ∅;
                 ProviderSpecific := [];
                 TargetsNil := false; LabelsNil := true;
                 ProviderSpecificNil := true |} ].
Proof. split; reflexivity. Qed.

(** ** Encoding desired records *)

Lemma supportedType_inv recordType :
  supportedType recordType = true ->
  recordType = RecordTypeA \/ recordType = RecordTypeAAAA.
Proof.
  unfold supportedType. intros H. apply orb_true_iff in H.
  destruct H as [H|H]; apply String.eqb_eq in H; auto.
Qed.

Lemma supportedType_kind recordType :
  supportedType recordType = true ->
  hd EmptyString (GoStrings.Split recordType " ") = recordType.
Proof.
  intros H. destruct (supportedType_inv _ H) as [-> | ->]; reflexivity.
Qed.

(** C6.  [createRequestJSON] marshals one record for each target of the
    endpoint, in order, whatever the endpoint is; the description of each
    is the prefix, one space, and the base64 text of what the cache holds
    for the endpoint's name, which is the prefix and the space alone when
    the cache holds nothing for it. *)
Theorem createRequestJSON_description (rt : Runtime) (st : State) (ep : Endpoint) :
  let ownership := default EmptyString (knownRecords st !! DNSName ep) in
  let requests := createRequests (knownRecords st) ep in
  createRequestJSON rt ep st = (map (json_Marshal rt) requests, st)
  /\ length requests = length (Targets ep)
  /\ (forall (i : nat) target,
       Targets ep !! i = Some target ->
       exists request,
         requests !! i = Some request
         /\ Server (Host request) = target
         /\ Description (Host request)
            = DescriptionPrefix +:+ " " +:+ Base64.EncodeToString ownership)
  /\ (knownRecords st !! DNSName ep = None ->
      forall request, In request requests ->
                      Description (Host request) = "Managed by K8s external-dns ").
Proof.
  intros ownership requests. split; [reflexivity|]. split; [|split].
  - unfold requests, createRequests. apply length_map.
  - intros i target Hi. unfold requests, createRequests.
    rewrite list_lookup_fmap, Hi. cbn. eexists. repeat split.
  - intros Hnone request Hin. unfold requests, createRequests in Hin.
    apply in_map_iff in Hin. destruct Hin as (target & <- & _).
    cbn. unfold createDescription. rewrite Hnone. reflexivity.
Qed.

Lemma createRequestJSON_description_witness :
  exists request,
    createRequests ∅ (Example.record "update.this" "A" "4.3.2.1" "") !! 0%nat
    = Some request
    /\ Server (Host request) = "4.3.2.1"
    /\ Description (Host request) = "Managed by K8s external-dns ".
Proof.
  destruct (createRequestJSON_description (Example.runtime Example.obliging)
              Example.fresh (Example.record "update.this" "A" "4.3.2.1" ""))
    as (_ & _ & H & _).
  exact (H 0%nat "4.3.2.1" eq_refl).
Defined.

(** C4.  An endpoint of an address kind is encoded to one record for each
    target, with the first segment of the name as host name and the other
    segments, joined by dots, as domain.  Decoding that record gives the
    address record first: its name is the host name, a dot and the domain,
    which splits into the same host name and domain; its target and kind
    are those that were encoded.  The two records that follow are the
    ownership records, of kind TXT, with the value of the cache. *)
Theorem encode_then_decode (heritages : gmap string string) (ep : Endpoint) :
  supportedType (RecordType ep) = true ->
  let hostname := hd EmptyString (GoStrings.Split (DNSName ep) ".") in
  let domain := GoStrings.Join (tl (GoStrings.Split (DNSName ep) ".")) "." in
  Forall2
    (fun target request =>
       Hostname (Host request) = hostname
       /\ Domain (Host request) = domain
       /\ exists address own1 own2,
           ToEndpoints {| Rows := [Host request] |} = [address; own1; own2]
           /\ DNSName address = hostname +:+ "." +:+ domain
           /\ hd EmptyString (GoStrings.Split (DNSName address) ".") = hostname
           /\ GoStrings.Join (tl (GoStrings.Split (DNSName address) ".")) "." = domain
           /\ Targets address = [target]
           /\ RecordType address = RecordType ep
           /\ RecordType own1 = RecordTypeTXT
           /\ RecordType own2 = RecordTypeTXT
           /\ Targets own1 = [default EmptyString (heritages !! DNSName ep)]
           /\ Targets own2 = [default EmptyString (heritages !! DNSName ep)])
    (Targets ep) (createRequests heritages ep).
Proof.
  intros Hkind hostname domain. unfold createRequests.
  fold hostname. fold domain.
  induction (Targets ep) as [|target targets IH]; cbn [map]; constructor; [|exact IH].
  cbn [Host Hostname Domain]. split; [reflexivity|]. split; [reflexivity|].
  rewrite ToEndpoints_single. cbn [Hostname Domain Description].
  unfold createDescription, appendToDescription.
  rewrite (endpointsFromBase64Description_framed _ " " _ _
             ltac:(repeat constructor)
             (Base64Facts.DecodeString_EncodeToString _)).
  eexists _, _, _. split; [reflexivity|].
  unfold marshalledEndpoint.
  cbn [DNSName Targets RecordType Hostname Domain Server Rr].
  assert (Hsplit : GoStrings.Split (hostname +:+ "." +:+ domain) "."
                   = hostname :: GoStrings.Split domain ".")
    by apply GoStringsFacts.Split_hd_app.
  rewrite Hsplit. cbn [hd tl].
  repeat split.
  - apply (GoStringsFacts.Join_Split domain ".").
  - apply supportedType_kind, Hkind.
Qed.

Lemma encode_then_decode_witness :
  Forall2
    (fun target request =>
       Hostname (Host request) = "create"
       /\ Domain (Host request) = "example.me"
       /\ exists address own1 own2,
           ToEndpoints {| Rows := [Host request] |} = [address; own1; own2]
           /\ DNSName address = "create.example.me"
           /\ hd EmptyString (GoStrings.Split (DNSName address) ".") = "create"
           /\ GoStrings.Join (tl (GoStrings.Split (DNSName address) ".")) "."
              = "example.me"
           /\ Targets address = [target]
           /\ RecordType address = "A"
           /\ RecordType own1 = RecordTypeTXT
           /\ RecordType own2 = RecordTypeTXT
           /\ Targets own1 = [Example.heritage]
           /\ Targets own2 = [Example.heritage])
    ["1.2.3.4"]
    (createRequests {[ "create.example.me" := Example.heritage ]}
       (Example.record "create.example.me" "A" "1.2.3.4" "")).
Proof.
  exact (encode_then_decode {[ "create.example.me" := Example.heritage ]}
           (Example.record "create.example.me" "A" "1.2.3.4" "") eq_refl).
Defined.

(** ** The calls a change-set causes *)

Lemma issued_app st st' calls :
  trace st' = trace st ++ calls -> issued st st' = calls.
Proof. intros H. unfold issued. rewrite H. apply drop_app_length. Qed.

Lemma deleteEndpoint_inv rt ep st res st' :
  deleteEndpoint rt ep st = (res, st') ->
  knownRecords st' = knownRecords st
  /\ ((exists msg,
         NewRequestWithContext rt MethodPost (req_url (deleteRequest rt ep)) = Some msg
         /\ res = Some (Errorf "delete request: %w" []
                          (Errorf "create request: %w" [] (LibErr msg)))
         /\ trace st' = trace st)
      \/ (trace st' = trace st ++ [(OpDelete, deleteRequest rt ep)]
          /\ ((exists msg,
                 client_Do rt (trace st) (OpDelete, deleteRequest rt ep) = inl msg
                 /\ res = Some (Errorf "delete http do: %w" [] (LibErr msg)))
              \/ (exists resp,
                    client_Do rt (trace st) (OpDelete, deleteRequest rt ep) = inr resp
                    /\ res = answer_error rt DeleteOpSuccessResponse resp)))).
Proof.
  rewrite deleteEndpoint_unfold.
  destruct (NewRequestWithContext rt MethodPost (req_url (deleteRequest rt ep)))
    as [msg|].
  - intros H; inversion H; subst. split; [reflexivity|]. left. eauto.
  - intros H; inversion H; subst. split; [reflexivity|]. right.
    split; [reflexivity|].
    destruct (client_Do rt (trace st) (OpDelete, deleteRequest rt ep)) as [msg|resp];
      [left | right]; eauto.
Qed.

Lemma createTarget_inv rt data ep st res st' :
  createTarget rt data ep st = (res, st') ->
  knownRecords st' = knownRecords st
  /\ ((exists msg,
         NewRequestWithContext rt MethodPost (baseURL rt +:+ AddOverrideEndpoint) = Some msg
         /\ res = Some (Errorf "create endpoint request: %w" []
                          (Errorf "create request: %w" [] (LibErr msg)))
         /\ trace st' = trace st)
      \/ (trace st' = trace st ++ [(OpAdd, addRequest rt data)]
          /\ ((exists msg,
                 client_Do rt (trace st) (OpAdd, addRequest rt data) = inl msg
                 /\ res = Some (Errorf "create http do: %w" [] (LibErr msg)))
              \/ (exists resp,
                    client_Do rt (trace st) (OpAdd, addRequest rt data) = inr resp
                    /\ res = answer_error rt CreateOpSuccessResponse resp)))).
Proof.
  rewrite createTarget_unfold.
  change (req_url (addRequest rt data)) with (baseURL rt +:+ AddOverrideEndpoint).
  destruct (NewRequestWithContext rt MethodPost (baseURL rt +:+ AddOverrideEndpoint))
    as [msg|].
  - intros H; inversion H; subst. split; [reflexivity|]. left. eauto.
  - intros H; inversion H; subst. split; [reflexivity|]. right.
    split; [reflexivity|].
    destruct (client_Do rt (trace st) (OpAdd, addRequest rt data)) as [msg|resp];
      [left | right]; eauto.
Qed.

Lemma reconfigure_inv rt st res st' :
  reconfigure rt st = (res, st') ->
  knownRecords st' = knownRecords st
  /\ (trace st' = trace st
      \/ trace st' = trace st ++ [(OpReconfigure, reconfigureRequest rt)]).
Proof.
  rewrite reconfigure_unfold.
  destruct (NewRequestWithContext rt MethodPost (req_url (reconfigureRequest rt)));
    intros H; inversion H; subst; split; auto.
Qed.

Lemma deleteEndpoints_cons rt ep rest st :
  deleteEndpoints rt (ep :: rest) st =
  let '(err, st1) := deleteEndpoint rt ep st in
  match err with
  | Some e => (Some (Errorf "%q: %w" [ArgString (DNSName ep)] e), st1)
  | None => deleteEndpoints rt rest st1
  end.
Proof.
  cbn [deleteEndpoints]. unfold bind, ret.
  destruct (deleteEndpoint rt ep st) as [[e|] st1]; reflexivity.
Qed.

Lemma deleteEndpoints_app rt done rest st :
  deleteEndpoints rt (done ++ rest) st =
  let '(err, st1) := deleteEndpoints rt done st in
  match err with
  | Some e => (Some e, st1)
  | None => deleteEndpoints rt rest st1
  end.
Proof.
  revert st. induction done as [|ep done IH]; intros st.
  - reflexivity.
  - cbn [app]. rewrite !deleteEndpoints_cons.
    destruct (deleteEndpoint rt ep st) as [[e|] st1]; [reflexivity|]. apply IH.
Qed.

(** Deletions that all succeed were all issued, one call for each record
    of the list, in its order. *)
Lemma deleteEndpoints_success rt eps : forall st st',
  deleteEndpoints rt eps st = (None, st') ->
  knownRecords st' = knownRecords st
  /\ trace st' = trace st ++ map (fun ep => (OpDelete, deleteRequest rt ep)) eps.
Proof.
  induction eps as [|ep eps IH]; intros st st' H.
  - inversion H; subst. rewrite app_nil_r. auto.
  - rewrite deleteEndpoints_cons in H.
    destruct (deleteEndpoint rt ep st) as [[e|] st1] eqn:Hep; [discriminate|].
    destruct (deleteEndpoint_inv _ _ _ _ _ Hep) as (Hk & [(msg & _ & Hres & _) | (Htr & _)]);
      [discriminate|].
    destruct (IH _ _ H) as (Hk' & Htr').
    split; [congruence|]. rewrite Htr', Htr, <- app_assoc. reflexivity.
Qed.

(** Whatever their outcome, deletions issue delete calls only. *)
Lemma deleteEndpoints_calls rt eps : forall st res st',
  deleteEndpoints rt eps st = (res, st') ->
  knownRecords st' = knownRecords st
  /\ exists calls,
      trace st' = trace st ++ calls
      /\ Forall (fun call => exists ep, In ep eps
                                        /\ call = (OpDelete, deleteRequest rt ep)) calls.
Proof.
  induction eps as [|ep eps IH]; intros st res st' H.
  - inversion H; subst. split; [reflexivity|]. exists []. rewrite app_nil_r.
    split; [reflexivity | constructor].
  - rewrite deleteEndpoints_cons in H.
    destruct (deleteEndpoint rt ep st) as [err st1] eqn:Hep.
    destruct (deleteEndpoint_inv _ _ _ _ _ Hep) as (Hk & Hcase).
    assert (Hone : exists calls1,
               trace st1 = trace st ++ calls1
               /\ Forall (fun call => exists ep0, In ep0 (ep :: eps)
                                      /\ call = (OpDelete, deleteRequest rt ep0)) calls1).
    { destruct Hcase as [(msg & _ & _ & Htr) | (Htr & _)].
      - exists []. rewrite app_nil_r. split; [exact Htr | constructor].
      - eexists. split; [exact Htr|]. constructor; [|constructor].
        exists ep. split; [left; reflexivity | reflexivity]. }
    destruct Hone as (calls1 & Htr1 & Hall1).
    destruct err as [e|].
    + inversion H; subst. split; [exact Hk|]. exists calls1. auto.
    + destruct (IH _ _ _ H) as (Hk' & calls2 & Htr2 & Hall2).
      split; [congruence|]. exists (calls1 ++ calls2).
      split; [rewrite Htr2, Htr1, <- app_assoc; reflexivity|].
      apply Forall_app. split; [exact Hall1|].
      eapply Forall_impl; [exact Hall2|].
      intros call (ep0 & Hin & Hcall). exists ep0. split; [right; exact Hin | exact Hcall].
Qed.

Lemma createTargets_cons rt data rest ep st :
  createTargets rt (data :: rest) ep st =
  let '(err, st1) := createTarget rt data ep st in
  match err with
  | Some e => (Some e, st1)
  | None => createTargets rt rest ep st1
  end.
Proof.
  cbn [createTargets]. unfold bind, ret.
  destruct (createTarget rt data ep st) as [[e|] st1]; reflexivity.
Qed.

Lemma createTargets_calls rt ep datas : forall st res st',
  createTargets rt datas ep st = (res, st') ->
  knownRecords st' = knownRecords st
  /\ exists calls,
      trace st' = trace st ++ calls
      /\ Forall (fun call => exists data, In data datas
                                          /\ call = (OpAdd, addRequest rt data)) calls
      /\ forall e, res = Some e -> createFailure rt (trace st') e.
Proof.
  induction datas as [|data datas IH]; intros st res st' H.
  - inversion H; subst. split; [reflexivity|]. exists []. rewrite app_nil_r.
    split; [reflexivity|]. split; [constructor | discriminate].
  - rewrite createTargets_cons in H.
    destruct (createTarget rt data ep st) as [err st1] eqn:Hone.
    destruct (createTarget_inv _ _ _ _ _ _ Hone) as (Hk & Hcase).
    destruct err as [e|].
    + inversion H; subst. split; [exact Hk|].
      destruct Hcase as [(msg & Hreq & Hres & Htr) | (Htr & Hdo)].
      * exists []. rewrite app_nil_r. split; [exact Htr|]. split; [constructor|].
        intros e0 He0. inversion He0; subst. inversion Hres; subst.
        left. eauto.
      * eexists. split; [exact Htr|]. split.
        -- constructor; [|constructor]. exists data. split; [left|]; reflexivity.
        -- intros e0 He0. inversion He0; subst. right. exists (trace st), data.
           split; [exact Htr|].
           destruct Hdo as [(msg & Hdo & Hres) | (resp & Hdo & Hres)].
           ++ left. exists msg. split; [exact Hdo | congruence].
           ++ right. exists resp. split; [exact Hdo | congruence].
    + destruct Hcase as [(msg & _ & Hres & _) | (Htr & _)]; [discriminate|].
      destruct (IH _ _ _ H) as (Hk' & calls & Htr' & Hall & Hfail).
      split; [congruence|]. exists ((OpAdd, addRequest rt data) :: calls).
      split; [rewrite Htr', Htr, <- app_assoc; reflexivity|]. split.
      * constructor; [exists data; split; [left|]; reflexivity|].
        eapply Forall_impl; [exact Hall|].
        intros call (d & Hin & Hcall). exists d. split; [right; exact Hin | exact Hcall].
      * exact Hfail.
Qed.

Lemma createEndpoints_cons rt ep rest st :
  createEndpoints rt (ep :: rest) st =
  if supportedType (RecordType ep) then
    let '(err, st1) :=
      createTargets rt (map (json_Marshal rt) (createRequests (knownRecords st) ep)) ep st in
    match err with
    | Some e => (Some (Errorf "create endpoint: %w" [] e), st1)
    | None => createEndpoints rt rest st1
    end
  else createEndpoints rt rest st.
Proof.
  cbn [createEndpoints]. destruct (supportedType (RecordType ep)); [|reflexivity].
  unfold bind, ret, createEndpoint, createRequestJSON. unfold bind.
  destruct (createTargets rt _ ep st) as [[e|] st1]; reflexivity.
Qed.

(** Creations issue create calls only, each with the payload of a record
    of an address kind; when they fail, it is in one of the ways of
    [createFailure]. *)
Lemma createEndpoints_calls rt eps : forall st res st',
  createEndpoints rt eps st = (res, st') ->
  knownRecords st' = knownRecords st
  /\ exists calls,
      trace st' = trace st ++ calls
      /\ Forall (fun call =>
                   exists ep request,
                     In ep eps
                     /\ supportedType (RecordType ep) = true
                     /\ In request (createRequests (knownRecords st) ep)
                     /\ call = (OpAdd, addRequest rt (json_Marshal rt request))) calls
      /\ forall e, res = Some e ->
                   exists e', e = Errorf "create endpoint: %w" [] e'
                              /\ createFailure rt (trace st') e'.
Proof.
  induction eps as [|ep eps IH]; intros st res st' H.
  - inversion H; subst. split; [reflexivity|]. exists []. rewrite app_nil_r.
    split; [reflexivity|]. split; [constructor | discriminate].
  - rewrite createEndpoints_cons in H.
    destruct (supportedType (RecordType ep)) eqn:Hkind.
    + destruct (createTargets rt _ ep st) as [err st1] eqn:Hts.
      destruct (createTargets_calls _ _ _ _ _ _ Hts) as (Hk & calls1 & Htr1 & Hall1 & Hfail1).
      assert (Hall1' :
                Forall (fun call =>
                          exists ep0 request,
                            In ep0 (ep :: eps)
                            /\ supportedType (RecordType ep0) = true
                            /\ In request (createRequests (knownRecords st) ep0)
                            /\ call = (OpAdd, addRequest rt (json_Marshal rt request)))
                       calls1).
      { eapply Forall_impl; [exact Hall1|].
        intros call (data & Hin & Hcall). apply in_map_iff in Hin.
        destruct Hin as (request & <- & Hin). exists ep, request.
        repeat split; [left; reflexivity | exact Hkind | exact Hin | exact Hcall]. }
      destruct err as [e|].
      * inversion H; subst. split; [exact Hk|]. exists calls1.
        split; [exact Htr1|]. split; [exact Hall1'|].
        intros e0 He0. inversion He0; subst. exists e. split; [reflexivity|].
        apply Hfail1. reflexivity.
      * destruct (IH _ _ _ H) as (Hk' & calls2 & Htr2 & Hall2 & Hfail2).
        split; [congruence|]. exists (calls1 ++ calls2).
        split; [rewrite Htr2, Htr1, <- app_assoc; reflexivity|]. split.
        -- apply Forall_app. split; [exact Hall1'|].
           eapply Forall_impl; [exact Hall2|].
           intros call (ep0 & request & Hin & Hk0 & Hreq & Hcall).
           exists ep0, request. rewrite <- Hk.
           repeat split; [right; exact Hin | exact Hk0 | exact Hreq | exact Hcall].
        -- exact Hfail2.
    + destruct (IH _ _ _ H) as (Hk' & calls2 & Htr2 & Hall2 & Hfail2).
      split; [exact Hk'|]. exists calls2. split; [exact Htr2|]. split; [|exact Hfail2].
      eapply Forall_impl; [exact Hall2|].
      intros call (ep0 & request & Hin & Hk0 & Hreq & Hcall).
      exists ep0, request.
      repeat split; [right; exact Hin | exact Hk0 | exact Hreq | exact Hcall].
Qed.

Lemma ApplyChanges_unfold rt changes st :
  ApplyChanges rt changes st =
  if negb (HasChanges changes) then (None, st)
  else
    let st0 := {| knownRecords := cache_updateFromPlan (knownRecords st) changes;
                  trace := trace st |} in
    let '(derr, st1) := deleteEndpoints rt (Delete changes ++ UpdateOld changes) st0 in
    match derr with
    | Some e => (Some (Errorf "plan delete: %w" [] e), st1)
    | None =>
        let '(cerr, st2) := createEndpoints rt (Create changes ++ UpdateNew changes) st1 in
        match cerr with
        | Some e => (Some (Errorf "plan create: %w" [] e), st2)
        | None =>
            let '(rerr, st3) := reconfigure rt st2 in
            match rerr with
            | Some e => (Some (Errorf "apply changes reconfigure endpoint: %w" [] e), st3)
            | None => (None, st3)
            end
        end
    end.
Proof.
  unfold ApplyChanges. destruct (negb (HasChanges changes)); [reflexivity|].
  unfold bind, ret, updateFromPlan.
  destruct (deleteEndpoints rt _ _) as [[e|] st1]; [reflexivity|].
  destruct (createEndpoints rt _ _) as [[e|] st2]; [reflexivity|].
  destruct (reconfigure rt st2) as [[e|] st3]; reflexivity.
Qed.

Lemma answered_iff_RequestFailed rt want (e : error) :
  (exists msg format, e = Errorf format [] (LibErr msg))
  \/ (exists msg f1 f2, e = Errorf f1 [] (Errorf f2 [] (LibErr msg)))
  \/ (exists resp, answer_error rt want resp = Some e) ->
  errors_Is e ErrRequestFailed = true <-> exists resp, answer_error rt want resp = Some e.
Proof.
  intros [(msg & f & ->) | [(msg & f1 & f2 & ->) | (resp & H)]].
  - split; [discriminate|]. intros (resp & H).
    apply answer_error_RequestFailed in H. discriminate.
  - split; [discriminate|]. intros (resp & H).
    apply answer_error_RequestFailed in H. discriminate.
  - split; [eauto|]. intros _. apply (answer_error_RequestFailed _ _ _ _ H).
Qed.

(** C1, as the code has it.  Let a change-set with changes be applied.
    When the deletion of a record fails, those before it in [Delete]
    followed by [UpdateOld] having succeeded, the call returns the error of
    that deletion under the record's name, and has issued delete calls
    only.  When all deletions succeed and a creation fails, the call returns
    the error of that creation, and has issued the delete calls of all the
    records to delete, in order, then create calls only.  The error of a
    deletion or a creation tests as [ErrRequestFailed] exactly when it is
    the error of an answer of the remote; it is otherwise the error of the
    transport or of building the request, wrapped as it is. *)
Theorem ApplyChanges_failure_phases (rt : Runtime) (changes : Changes) (st : State) :
  HasChanges changes = true ->
  let st0 := {| knownRecords := cache_updateFromPlan (knownRecords st) changes;
                trace := trace st |} in
  let deletions := Delete changes ++ UpdateOld changes in
  let creations := Create changes ++ UpdateNew changes in
  (forall done ep rest sti e stf,
      deletions = done ++ ep :: rest ->
      deleteEndpoints rt done st0 = (None, sti) ->
      deleteEndpoint rt ep sti = (Some e, stf) ->
      let err := Errorf "plan delete: %w" []
                   (Errorf "%q: %w" [ArgString (DNSName ep)] e) in
      ApplyChanges rt changes st = (Some err, stf)
      /\ deleteFailure rt (trace sti) ep e
      /\ (errors_Is err ErrRequestFailed = true
          <-> exists resp, answer_error rt DeleteOpSuccessResponse resp = Some e)
      /\ Forall (fun call => fst call = OpDelete) (issued st stf))
  /\ (forall std e stf,
         deleteEndpoints rt deletions st0 = (None, std) ->
         createEndpoints rt creations std = (Some e, stf) ->
         let err := Errorf "plan create: %w" [] e in
         ApplyChanges rt changes st = (Some err, stf)
         /\ (exists e',
                e = Errorf "create endpoint: %w" [] e'
                /\ createFailure rt (trace stf) e'
                /\ (errors_Is err ErrRequestFailed = true
                    <-> exists resp, answer_error rt CreateOpSuccessResponse resp = Some e'))
         /\ exists created,
             issued st stf
             = map (fun ep => (OpDelete, deleteRequest rt ep)) deletions ++ created
             /\ Forall (fun call => fst call = OpAdd) created).
Proof.
  intros Hch st0 deletions creations. split.
  - intros done ep rest sti e stf Hsplit Hdone Hep err.
    assert (Hdel : deleteEndpoints rt deletions st0
                   = (Some (Errorf "%q: %w" [ArgString (DNSName ep)] e), stf)).
    { rewrite Hsplit, deleteEndpoints_app, Hdone, deleteEndpoints_cons, Hep.
      reflexivity. }
    split; [|split; [|split]].
    + rewrite ApplyChanges_unfold, Hch. cbn [negb]. fold st0. fold deletions.
      rewrite Hdel. reflexivity.
    + destruct (deleteEndpoint_inv _ _ _ _ _ Hep)
        as (_ & [(msg & Hreq & Hres & _) | (_ & [(msg & Hdo & Hres) | (resp & Hdo & Hres)])]).
      * left. exists msg. split; [exact Hreq | congruence].
      * right; left. exists msg. split; [exact Hdo | congruence].
      * right; right. exists resp. split; [exact Hdo | congruence].
    + change (errors_Is err ErrRequestFailed) with (errors_Is e ErrRequestFailed).
      apply answered_iff_RequestFailed.
      destruct (deleteEndpoint_inv _ _ _ _ _ Hep)
        as (_ & [(msg & Hreq & Hres & _) | (_ & [(msg & Hdo & Hres) | (resp & Hdo & Hres)])]).
      * right; left. inversion Hres. eauto.
      * left. inversion Hres. eauto.
      * right; right. eauto.
    + destruct (deleteEndpoints_calls _ _ _ _ _ Hdel) as (_ & calls & Htr & Hall).
      rewrite (issued_app st stf calls Htr).
      eapply Forall_impl; [exact Hall|]. intros call (ep0 & _ & ->). reflexivity.
  - intros std e stf Hdel Hcre err.
    destruct (deleteEndpoints_success _ _ _ _ Hdel) as (_ & Htr1).
    destruct (createEndpoints_calls _ _ _ _ _ Hcre) as (_ & calls & Htr2 & Hall & Hfail).
    destruct (Hfail e eq_refl) as (e' & He' & Hcf).
    split; [|split].
    + rewrite ApplyChanges_unfold, Hch. cbn [negb]. fold st0. fold deletions.
      rewrite Hdel. fold creations. rewrite Hcre. reflexivity.
    + exists e'. split; [exact He'|]. split; [exact Hcf|].
      unfold err. rewrite He'.
      change (errors_Is (Errorf "plan create: %w" [] (Errorf "create endpoint: %w" [] e'))
                ErrRequestFailed) with (errors_Is e' ErrRequestFailed).
      apply answered_iff_RequestFailed.
      destruct Hcf as [(msg & _ & ->) | (before & data & _ & [(msg & _ & ->) | (resp & _ & H)])].
      * right; left. eauto.
      * left. eauto.
      * right; right. eauto.
    + exists calls. split.
      * apply issued_app. rewrite Htr2, Htr1, <- app_assoc. reflexivity.
      * eapply Forall_impl; [exact Hall|].
        intros call (ep0 & request & _ & _ & _ & ->). reflexivity.
Qed.

Lemma ApplyChanges_failure_phases_witness :
  fst (ApplyChanges (Example.runtime Example.unreachable) Example.crud Example.fresh)
  = Some (Errorf "plan delete: %w" []
            (Errorf "%q: %w" [ArgString "delete.this"]
               (Errorf "delete http do: %w" [] (LibErr "dial tcp: connection refused"))))
  /\ fst (ApplyChanges (Example.runtime Example.read_only) Example.crud Example.fresh)
     = Some (Errorf "plan create: %w" []
               (Errorf "create endpoint: %w" []
                  (Errorf "response %q: %w" [ArgString "failure"] ErrRequestFailed))).
Proof.
  split.
  - destruct (ApplyChanges_failure_phases
                (Example.runtime Example.unreachable) Example.crud Example.fresh eq_refl)
      as [H _].
    destruct (H [] _ _ _ _ _ eq_refl eq_refl eq_refl) as [Happly _].
    rewrite Happly. reflexivity.
  - destruct (ApplyChanges_failure_phases
                (Example.runtime Example.read_only) Example.crud Example.fresh eq_refl)
      as [_ H].
    destruct (H _ _ _ eq_refl eq_refl) as [Happly _].
    rewrite Happly. reflexivity.
Defined.

(** C1 as the specification words it fails: the first deletion of the
    change-set fails, and the error of the call does not test as
    [ErrRequestFailed]. *)
Lemma deletion_failure_not_RequestFailed :
  let rt := Example.runtime Example.unreachable in
  (exists e, fst (deleteEndpoint rt (Example.record "delete.this" "" "5.6.7.8"
                                       "delete-uuid-goes-here")
                    (snd (updateFromPlan Example.crud Example.fresh)))
             = Some e)
  /\ exists err, fst (ApplyChanges rt Example.crud Example.fresh) = Some err
                 /\ errors_Is err ErrRequestFailed = false.
Proof.
  split; [eexists; reflexivity|]. eexists. split; reflexivity.
Qed.

Lemma createEndpoints_filter rt eps : forall st,
  createEndpoints rt eps st
  = createEndpoints rt (List.filter (fun ep => supportedType (RecordType ep)) eps) st.
Proof.
  induction eps as [|ep eps IH]; intros st; [reflexivity|].
  cbn [List.filter]. rewrite createEndpoints_cons.
  destruct (supportedType (RecordType ep)) eqn:Hkind.
  - rewrite createEndpoints_cons, Hkind.
    destruct (createTargets rt _ ep st) as [[e|] st1]; [reflexivity | apply IH].
  - apply IH.
Qed.

Lemma createEndpoints_skipped rt eps : forall st,
  Forall (fun ep => supportedType (RecordType ep) = false) eps ->
  createEndpoints rt eps st = (None, st).
Proof.
  induction eps as [|ep eps IH]; intros st H; [reflexivity|].
  inversion H; subst. rewrite createEndpoints_cons.
  destruct (supportedType (RecordType ep)); [discriminate|]. apply IH. assumption.
Qed.

(** C3, for creation, where the code has it.  Records that are not of
    kind A or AAAA are skipped by the creation, with no call and no error:
    creating a list is creating the records of an address kind it holds.
    Every create call [ApplyChanges] issues carries the payload of a record
    of an address kind of the creation lists; its other calls are delete
    calls for records of the deletion lists, and the reconfigure call. *)
Theorem only_creation_is_filtered_by_kind (rt : Runtime) :
  (forall eps st,
      Forall (fun ep => supportedType (RecordType ep) = false) eps ->
      createEndpoints rt eps st = (None, st))
  /\ (forall eps st,
         createEndpoints rt eps st
         = createEndpoints rt
             (List.filter (fun ep => supportedType (RecordType ep)) eps) st)
  /\ (forall changes st res st',
         ApplyChanges rt changes st = (res, st') ->
         Forall
           (fun call =>
              (exists ep, In ep (Delete changes ++ UpdateOld changes)
                          /\ call = (OpDelete, deleteRequest rt ep))
              \/ (exists ep request,
                     In ep (Create changes ++ UpdateNew changes)
                     /\ supportedType (RecordType ep) = true
                     /\ In request (createRequests (knownRecords st') ep)
                     /\ call = (OpAdd, addRequest rt (json_Marshal rt request)))
              \/ call = (OpReconfigure, reconfigureRequest rt))
           (issued st st')).
Proof.
  split; [|split].
  - intros eps st. apply createEndpoints_skipped.
  - intros eps st. apply createEndpoints_filter.
  - intros changes st res st'. rewrite ApplyChanges_unfold.
    destruct (negb (HasChanges changes)).
    { intros H; inversion H; subst. unfold issued. rewrite drop_all. constructor. }
    cbv zeta. set (st0 := {| knownRecords := _; trace := trace st |}).
    destruct (deleteEndpoints rt _ st0) as [derr st1] eqn:Hdel.
    destruct (deleteEndpoints_calls _ _ _ _ _ Hdel) as (Hk1 & calls1 & Htr1 & Hall1).
    assert (Hall1' :
              Forall
                (fun call =>
                   (exists ep, In ep (Delete changes ++ UpdateOld changes)
                               /\ call = (OpDelete, deleteRequest rt ep))
                   \/ (exists ep request,
                          In ep (Create changes ++ UpdateNew changes)
                          /\ supportedType (RecordType ep) = true
                          /\ In request (createRequests (knownRecords st0) ep)
                          /\ call = (OpAdd, addRequest rt (json_Marshal rt request)))
                   \/ call = (OpReconfigure, reconfigureRequest rt)) calls1).
    { eapply Forall_impl; [exact Hall1|]. intros call H. left. exact H. }
    destruct derr as [e|].
    { intros H; inversion H; subst. rewrite Hk1.
      rewrite (issued_app st st' calls1 Htr1). exact Hall1'. }
    destruct (createEndpoints rt _ st1) as [cerr st2] eqn:Hcre.
    destruct (createEndpoints_calls _ _ _ _ _ Hcre) as (Hk2 & calls2 & Htr2 & Hall2 & _).
    assert (Hall2' :
              Forall
                (fun call =>
                   (exists ep, In ep (Delete changes ++ UpdateOld changes)
                               /\ call = (OpDelete, deleteRequest rt ep))
                   \/ (exists ep request,
                          In ep (Create changes ++ UpdateNew changes)
                          /\ supportedType (RecordType ep) = true
                          /\ In request (createRequests (knownRecords st0) ep)
                          /\ call = (OpAdd, addRequest rt (json_Marshal rt request)))
                   \/ call = (OpReconfigure, reconfigureRequest rt)) (calls1 ++ calls2)).
    { apply Forall_app. split; [exact Hall1'|].
      eapply Forall_impl; [exact Hall2|]. intros call H. right; left.
      rewrite <- Hk1. exact H. }
    assert (Htr12 : trace st2 = trace st ++ (calls1 ++ calls2)).
    { rewrite Htr2, Htr1, <- app_assoc. reflexivity. }
    destruct cerr as [e|].
    { intros H; inversion H; subst. rewrite Hk2, Hk1.
      rewrite (issued_app st st' _ Htr12). exact Hall2'. }
    destruct (reconfigure rt st2) as [rerr st3] eqn:Hrec.
    destruct (reconfigure_inv _ _ _ _ Hrec) as (Hk3 & Htr3).
    assert (Hend : knownRecords st3 = knownRecords st0
                   /\ Forall
                        (fun call =>
                           (exists ep, In ep (Delete changes ++ UpdateOld changes)
                                       /\ call = (OpDelete, deleteRequest rt ep))
                           \/ (exists ep request,
                                  In ep (Create changes ++ UpdateNew changes)
                                  /\ supportedType (RecordType ep) = true
                                  /\ In request (createRequests (knownRecords st0) ep)
                                  /\ call = (OpAdd, addRequest rt (json_Marshal rt request)))
                           \/ call = (OpReconfigure, reconfigureRequest rt))
                        (issued st st3)).
    { split; [congruence|]. destruct Htr3 as [Htr3 | Htr3].
      - rewrite (issued_app st st3 (calls1 ++ calls2)) by congruence. exact Hall2'.
      - rewrite (issued_app st st3 ((calls1 ++ calls2) ++ [(OpReconfigure, reconfigureRequest rt)])).
        + apply Forall_app. split; [exact Hall2'|]. constructor; [|constructor].
          right; right. reflexivity.
        + rewrite Htr3, Htr12, <- app_assoc. reflexivity. }
    destruct Hend as (Hk & Hall).
    destruct rerr as [e|]; intros H; inversion H; subst; rewrite Hk; exact Hall.
Qed.

Lemma only_creation_is_filtered_by_kind_witness :
  createEndpoints (Example.runtime Example.unreachable)
    [ Example.record "a-create.me" "TXT" Example.heritage "";
      Example.record "create.me" "TXT" Example.heritage "" ] Example.fresh
  = (None, Example.fresh).
Proof.
  destruct (only_creation_is_filtered_by_kind (Example.runtime Example.unreachable))
    as (Hskip & _).
  apply Hskip. repeat constructor.
Defined.

(** C3 as the specification words it fails: deletion does not look at
    the kind, and a record of kind TXT in the deletion list of a change-set
    causes a delete call. *)
Lemma delete_call_for_TXT_record :
  let txt := Example.record "create.me" "TXT" Example.heritage "" in
  let changes := {| Create := []; UpdateOld := []; UpdateNew := []; Delete := [txt];
                    UpdateOldNil := true; UpdateNewNil := true |} in
  let rt := Example.runtime Example.obliging in
  supportedType (RecordType txt) = false
  /\ fst (ApplyChanges rt changes Example.fresh) = None
  /\ issued Example.fresh (snd (ApplyChanges rt changes Example.fresh))
     = [ (OpDelete, deleteRequest rt txt); (OpReconfigure, reconfigureRequest rt) ].
Proof. repeat split. Qed.

(** * More properties: the ownership cache *)

Lemma cacheFromSlice_fold l : cacheFromSlice l = fold_left cacheStep l ∅.
Proof. reflexivity. Qed.

Lemma cacheStep_union (m1 m2 : gmap string string) ep :
  cacheStep (m1 ∪ m2) ep = cacheStep m1 ep ∪ m2.
Proof.
  unfold cacheStep. destruct (String.eqb (RecordType ep) RecordTypeTXT); [|reflexivity].
  destruct (GoStrings.HasPrefix (DNSName ep) "a-"); cbv zeta;
    rewrite <- ?insert_union_l; reflexivity.
Qed.

Lemma fold_cacheStep_union l : forall (m : gmap string string),
  fold_left cacheStep l m = fold_left cacheStep l ∅ ∪ m.
Proof.
  induction l as [|ep l IH]; intros m; cbn [fold_left].
  - rewrite (left_id_L ∅ (∪)). reflexivity.
  - rewrite (IH (cacheStep m ep)), (IH (cacheStep ∅ ep)).
    rewrite <- (assoc_L (∪)). f_equal.
    rewrite <- cacheStep_union, (left_id_L ∅ (∪)). reflexivity.
Qed.

Lemma cacheFromSlice_app_union l1 l2 :
  cacheFromSlice (l1 ++ l2) = cacheFromSlice l2 ∪ cacheFromSlice l1.
Proof.
  rewrite !cacheFromSlice_fold, fold_left_app. apply fold_cacheStep_union.
Qed.

Lemma HasPrefix_inv s p :
  GoStrings.HasPrefix s p = true -> s = p +:+ GoStrings.Replace1 s p EmptyString.
Proof.
  unfold GoStrings.HasPrefix. intros H.
  assert (Hex : exists rest, s = p +:+ rest).
  { revert s H. induction p as [|a p IH]; intros s H.
    - exists s. reflexivity.
    - destruct s as [|b s]; [discriminate|]. cbn [String.prefix] in H.
      destruct (ascii_dec a b) as [->|]; [|discriminate].
      destruct (IH _ H) as (rest & ->). exists rest. reflexivity. }
  destruct Hex as (rest & ->).
  rewrite GoStringsFacts.Replace1_prefix. reflexivity.
Qed.

Lemma Targets_String_single v : Targets_String [v] = v.
Proof. reflexivity. Qed.

(** What one turn of the loop adds is filed under the name of a TXT
    record, or under that name without its ["a-"]. *)
Lemma cacheStep_lookup (m : gmap string string) ep k v :
  cacheStep m ep !! k = Some v ->
  m !! k = Some v \/ (writes k ep /\ v = Targets_String (Targets ep)).
Proof.
  unfold cacheStep, writes.
  destruct (String.eqb (RecordType ep) RecordTypeTXT) eqn:Hkind; [|auto].
  apply String.eqb_eq in Hkind.
  destruct (GoStrings.HasPrefix (DNSName ep) "a-") eqn:Hpre; cbv zeta.
  - rewrite lookup_insert. destruct (decide _) as [Hk|Hk].
    + intros [= <-]. right. split; [|reflexivity]. split; [exact Hkind|].
      right. rewrite <- Hk. apply HasPrefix_inv, Hpre.
    + rewrite lookup_insert. destruct (decide _) as [Hk'|Hk']; [|auto].
      intros [= <-]. right. auto.
  - rewrite lookup_insert. destruct (decide _) as [Hk'|Hk']; [|auto].
    intros [= <-]. right. auto.
Qed.

Lemma cacheStep_keeps (m : gmap string string) ep k :
  is_Some (m !! k) -> is_Some (cacheStep m ep !! k).
Proof.
  unfold cacheStep. intros H.
  destruct (String.eqb (RecordType ep) RecordTypeTXT); [|exact H].
  destruct (GoStrings.HasPrefix (DNSName ep) "a-"); cbv zeta;
    rewrite ?lookup_insert_is_Some'; auto.
Qed.

Lemma cacheStep_writes (m : gmap string string) ep k :
  writes k ep -> cacheStep m ep !! k = Some (Targets_String (Targets ep)).
Proof.
  unfold cacheStep, writes. intros (Hkind & Hname).
  rewrite Hkind, String.eqb_refl.
  destruct Hname as [Hname|Hname].
  - destruct (GoStrings.HasPrefix (DNSName ep) "a-"); cbv zeta.
    + rewrite lookup_insert. destruct (decide _); [reflexivity|].
      rewrite Hname. apply lookup_insert_eq.
    + rewrite Hname. apply lookup_insert_eq.
  - rewrite Hname, GoStringsFacts.HasPrefix_app, GoStringsFacts.Replace1_prefix.
    cbv zeta. apply lookup_insert_eq.
Qed.

Lemma fold_cacheStep_lookup l : forall (m : gmap string string) k v,
  fold_left cacheStep l m !! k = Some v ->
  m !! k = Some v
  \/ exists ep, In ep l /\ writes k ep /\ v = Targets_String (Targets ep).
Proof.
  induction l as [|ep l IH]; intros m k v H; cbn [fold_left] in H; [auto|].
  destruct (IH _ _ _ H) as [Hm | (ep' & Hin & Hw & Hv)].
  - destruct (cacheStep_lookup _ _ _ _ Hm) as [Hm' | (Hw & Hv)]; [auto|].
    right. exists ep. split; [left; reflexivity | auto].
  - right. exists ep'. split; [right; exact Hin | auto].
Qed.

Lemma fold_cacheStep_keeps l : forall (m : gmap string string) k,
  is_Some (m !! k) -> is_Some (fold_left cacheStep l m !! k).
Proof.
  induction l as [|ep l IH]; intros m k H; cbn [fold_left]; [exact H|].
  apply IH, cacheStep_keeps, H.
Qed.

Lemma cacheFromSlice_lookup_inv l k v :
  cacheFromSlice l !! k = Some v ->
  exists ep, In ep l /\ writes k ep /\ v = Targets_String (Targets ep).
Proof.
  rewrite cacheFromSlice_fold. intros H.
  destruct (fold_cacheStep_lookup _ _ _ _ H) as [Hm|Hex]; [|exact Hex].
  rewrite lookup_empty in Hm. discriminate.
Qed.

Lemma cacheFromSlice_written l k ep :
  In ep l -> writes k ep -> is_Some (cacheFromSlice l !! k).
Proof.
  rewrite cacheFromSlice_fold. generalize (∅ : gmap string string).
  induction l as [|ep' l IH]; intros m Hin Hw; [contradiction|].
  cbn [fold_left]. destruct Hin as [->|Hin].
  - apply fold_cacheStep_keeps. rewrite (cacheStep_writes m ep k Hw). eauto.
  - apply IH; assumption.
Qed.

Lemma cacheFromSlice_last l ep k :
  writes k ep ->
  cacheFromSlice (l ++ [ep]) !! k = Some (Targets_String (Targets ep)).
Proof.
  intros Hw. rewrite cacheFromSlice_app_union.
  apply lookup_union_Some_l.
  rewrite cacheFromSlice_fold. cbn [fold_left]. apply cacheStep_writes, Hw.
Qed.

(** X1.  The cache built from a list followed by another is the cache of
    the second laid over the cache of the first: where both file a name,
    the later record decides. *)
Theorem cacheFromSlice_app (l1 l2 : list Endpoint) :
  cacheFromSlice (l1 ++ l2) = cacheFromSlice l2 ∪ cacheFromSlice l1.
Proof. apply cacheFromSlice_app_union. Qed.

(** X2.  The cache built from a list holds a name exactly when a TXT
    record of the list bears that name, or that name after ["a-"]; what
    it holds for a name is the targets, joined by [";"], of such a record.
    Records of other kinds leave no trace in it. *)
Theorem cacheFromSlice_keys (l : list Endpoint) (k : string) :
  (is_Some (cacheFromSlice l !! k) <-> exists ep, In ep l /\ writes k ep)
  /\ (forall v,
        cacheFromSlice l !! k = Some v ->
        exists ep, In ep l /\ writes k ep /\ v = Targets_String (Targets ep))
  /\ (Forall (fun ep => RecordType ep <> RecordTypeTXT) l -> cacheFromSlice l = ∅).
Proof.
  split; [|split].
  - split.
    + intros [v Hv]. destruct (cacheFromSlice_lookup_inv _ _ _ Hv) as (ep & Hin & Hw & _).
      eauto.
    + intros (ep & Hin & Hw). apply (cacheFromSlice_written l k ep Hin Hw).
  - apply cacheFromSlice_lookup_inv.
  - intros Hall. apply map_eq. intros key. rewrite lookup_empty.
    destruct (cacheFromSlice l !! key) as [v|] eqn:Hv; [|reflexivity].
    destruct (cacheFromSlice_lookup_inv _ _ _ Hv) as (ep & Hin & (Hkind & _) & _).
    rewrite Forall_forall in Hall. destruct (Hall ep); [|exact Hkind].
    apply list_elem_of_In, Hin.
Qed.

Lemma cacheFromSlice_keys_witness :
  cacheFromSlice [ Example.record "create.me" "A" "1.2.3.4" "";
                   Example.record "create.me" "AAAA" "::1" "" ] = ∅.
Proof.
  apply (cacheFromSlice_keys
           [ Example.record "create.me" "A" "1.2.3.4" "";
             Example.record "create.me" "AAAA" "::1" "" ] "create.me").
  repeat constructor; discriminate.
Defined.

Lemma removeRecords_lookup toDel : forall (h : gmap string string) k,
  removeRecords h toDel !! k = if evicts toDel k then None else h !! k.
Proof.
  unfold removeRecords, evicts.
  induction toDel as [|del toDel IH]; intros h k; cbn [fold_left existsb]; [reflexivity|].
  rewrite IH. destruct (supportedType (RecordType del)); cbn [andb orb]; [|reflexivity].
  destruct (String.eqb (DNSName del) k) eqn:Hk; cbn [orb].
  - apply String.eqb_eq in Hk. subst k. rewrite lookup_delete_eq.
    destruct (existsb _ toDel); reflexivity.
  - apply String.eqb_neq in Hk. rewrite lookup_delete_ne by exact Hk. reflexivity.
Qed.

Lemma updateFromPlan_lookup_aux (heritages : gmap string string) changes k :
  cache_updateFromPlan heritages changes !! k
  = match cacheFromSlice (Create changes ++ UpdateNew changes) !! k with
    | Some v => Some v
    | None => if evicts (Delete changes) k then None else heritages !! k
    end.
Proof.
  unfold cache_updateFromPlan. rewrite lookup_union, removeRecords_lookup.
  destruct (cacheFromSlice _ !! k) as [v|];
    destruct (evicts (Delete changes) k); try reflexivity;
    destruct (heritages !! k); reflexivity.
Qed.

(** X3.  What the cache holds for a name once a change-set is merged in:
    what the TXT records to create (or the new side of the updates) file
    under it, if they file anything; otherwise nothing if a record of
    [Delete] of an address kind bears the name; otherwise what it held.
    Records of other kinds to delete, and the old side of the updates,
    evict nothing. *)
Theorem updateFromPlan_lookup (heritages : gmap string string) (changes : Changes)
    (k : string) :
  cache_updateFromPlan heritages changes !! k
  = match cacheFromSlice (Create changes ++ UpdateNew changes) !! k with
    | Some v => Some v
    | None => if evicts (Delete changes) k then None else heritages !! k
    end.
Proof. apply updateFromPlan_lookup_aux. Qed.

(** X4.  Ownership given in a change-set is stamped on the address records
    of the same change-set: when a TXT record to create files a name, and no
    later record to create does, every payload for an endpoint of that name
    is described by the prefix, a space and the base64 text of the targets
    of that TXT record. *)
Theorem ownership_of_the_same_plan (heritages : gmap string string)
    (changes : Changes) (before after : list Endpoint) (txt ep : Endpoint) :
  Create changes ++ UpdateNew changes = before ++ txt :: after ->
  writes (DNSName ep) txt ->
  Forall (fun later => ~ writes (DNSName ep) later) after ->
  Forall
    (fun request =>
       Description (Host request)
       = DescriptionPrefix +:+ " "
         +:+ Base64.EncodeToString (Targets_String (Targets txt)))
    (createRequests (cache_updateFromPlan heritages changes) ep).
Proof.
  intros Hsplit Hw Hafter.
  assert (Hcache : cache_updateFromPlan heritages changes !! DNSName ep
                   = Some (Targets_String (Targets txt))).
  { rewrite updateFromPlan_lookup_aux.
    replace (before ++ txt :: after) with ((before ++ [txt]) ++ after) in Hsplit
      by (rewrite <- app_assoc; reflexivity).
    rewrite Hsplit, cacheFromSlice_app_union, lookup_union_r.
    - rewrite (cacheFromSlice_last before txt _ Hw). reflexivity.
    - destruct (cacheFromSlice after !! DNSName ep) as [v|] eqn:Hv; [|reflexivity].
      destruct (cacheFromSlice_lookup_inv _ _ _ Hv) as (later & Hin & Hlater & _).
      rewrite Forall_forall in Hafter. destruct (Hafter later); [|exact Hlater].
      apply list_elem_of_In, Hin. }
  unfold createRequests. apply Forall_forall. intros request Hin.
  apply list_elem_of_In, in_map_iff in Hin. destruct Hin as (target & <- & _).
  cbn [Host Description]. unfold createDescription. rewrite Hcache. reflexivity.
Qed.

Lemma ownership_of_the_same_plan_witness :
  Forall
    (fun request =>
       Description (Host request)
       = DescriptionPrefix +:+ " "
         +:+ Base64.EncodeToString (Targets_String [Example.heritage]))
    (createRequests (cache_updateFromPlan ∅ Example.crud)
       (Example.record "create.me" "A" "1.2.3.4" "")).
Proof.
  apply (ownership_of_the_same_plan ∅ Example.crud
           [ Example.record "create.me" "A" "1.2.3.4" "";
             Example.record "a-create.me" "TXT" Example.heritage "" ]
           [ Example.record "update.this" "A" "4.3.2.1" "some-uuid-here" ]
           (Example.record "create.me" "TXT" Example.heritage "")
           (Example.record "create.me" "A" "1.2.3.4" "") eq_refl).
  - split; [reflexivity | left; reflexivity].
  - constructor; [|constructor]. intros (Hkind & _). discriminate Hkind.
Defined.

(** * More properties: decoding and reading back *)

Lemma ToEndpoints_cons row rows :
  ToEndpoints {| Rows := row :: rows |}
  = ToEndpoints {| Rows := [row] |} ++ ToEndpoints {| Rows := rows |}.
Proof.
  unfold ToEndpoints. cbn [Rows ToEndpoints_rows].
  destruct (endpointsFromBase64Description _ _) as [txt|];
    rewrite (ToEndpoints_rows_app rows); reflexivity.
Qed.

Lemma ToEndpoints_app_rows rows1 rows2 :
  ToEndpoints {| Rows := rows1 ++ rows2 |}
  = ToEndpoints {| Rows := rows1 |} ++ ToEndpoints {| Rows := rows2 |}.
Proof.
  induction rows1 as [|row rows1 IH]; [reflexivity|].
  cbn [app]. rewrite ToEndpoints_cons, IH, (ToEndpoints_cons row rows1), app_assoc.
  reflexivity.
Qed.

Lemma Split_length s sep :
  length (GoStrings.Split s sep) = S (countByte sep s).
Proof.
  induction s as [|c s IH]; [reflexivity|].
  cbn [GoStrings.Split countByte]. destruct (Ascii.eqb c sep).
  - cbn [length]. rewrite IH. reflexivity.
  - pose proof (GoStringsFacts.Split_not_nil s sep) as Hn.
    destruct (GoStrings.Split s sep) as [|h t]; [contradiction|]. exact IH.
Qed.

Lemma Split_head_join s sep :
  countByte sep s <> O ->
  hd EmptyString (GoStrings.Split s sep) +:+ String sep EmptyString
    +:+ GoStrings.Join (tl (GoStrings.Split s sep)) (String sep EmptyString)
  = s.
Proof.
  intros Hc. pose proof (Split_length s sep) as Hlen.
  pose proof (GoStringsFacts.Join_Split s sep) as Hjoin.
  destruct (GoStrings.Split s sep) as [|h [|h' t]]; cbn [length] in Hlen; try lia.
  exact Hjoin.
Qed.

Lemma Split_none s sep :
  countByte sep s = O -> GoStrings.Split s sep = [s].
Proof.
  intros Hc. pose proof (Split_length s sep) as Hlen.
  pose proof (GoStringsFacts.Join_Split s sep) as Hjoin.
  destruct (GoStrings.Split s sep) as [|h [|h' t]]; cbn [length] in Hlen; try lia.
  cbn in Hjoin. rewrite Hjoin. reflexivity.
Qed.

Lemma cacheFromSlice_framed_row before row ws b64 value :
  Forall (fun c => GoStrings.asciiSpace c = true) (list_ascii_of_string ws) ->
  Description row = DescriptionPrefix +:+ ws +:+ b64 ->
  Base64.DecodeString b64 = Some value ->
  let name := Hostname row +:+ "." +:+ Domain row in
  let cache := cacheFromSlice (ToEndpoints {| Rows := before ++ [row] |}) in
  cache !! name = Some value /\ cache !! ("a-" +:+ name) = Some value.
Proof.
  intros Hws Hd Hdec name cache. unfold cache.
  rewrite ToEndpoints_app_rows, ToEndpoints_single, Hd.
  rewrite (endpointsFromBase64Description_framed _ ws b64 value Hws Hdec).
  fold name.
  set (own1 := {| DNSName := name; Targets := [value]; RecordType := RecordTypeTXT;
                  SetIdentifier := ""; RecordTTL := 0; Labels := ∅;
                  ProviderSpecific := [];
                  TargetsNil := false; LabelsNil := true;
                  ProviderSpecificNil := true |}).
  set (own2 := {| DNSName := "a-" +:+ name; Targets := [value];
                  RecordType := RecordTypeTXT;
                  SetIdentifier := ""; RecordTTL := 0; Labels := ∅;
                  ProviderSpecific := [];
                  TargetsNil := false; LabelsNil := true;
                  ProviderSpecificNil := true |}).
  replace (ToEndpoints {| Rows := before |} ++ [marshalledEndpoint row; own1; own2])
    with ((ToEndpoints {| Rows := before |} ++ [marshalledEndpoint row; own1]) ++ [own2])
    by (rewrite <- app_assoc; reflexivity).
  split.
  - rewrite (cacheFromSlice_last _ own2 name); [reflexivity|].
    split; [reflexivity | right; reflexivity].
  - rewrite (cacheFromSlice_last _ own2 ("a-" +:+ name)); [reflexivity|].
    split; [reflexivity | left; reflexivity].
Qed.

(** X5.  Reading back what was written.  When the last row the remote
    returns is described by the prefix, white space and a text that decodes
    to a value, the cache rebuilt from the decoded rows holds that value for
    the name of the row and for its ["a-"] alias, so that a record of that
    name written next is described by the prefix, a space and the base64
    text of the same value. *)
Theorem ownership_read_back (before : list Record_) (row : Record_)
    (ws b64 value : string) :
  Forall (fun c => GoStrings.asciiSpace c = true) (list_ascii_of_string ws) ->
  Description row = DescriptionPrefix +:+ ws +:+ b64 ->
  Base64.DecodeString b64 = Some value ->
  let name := Hostname row +:+ "." +:+ Domain row in
  let cache := cacheFromSlice (ToEndpoints {| Rows := before ++ [row] |}) in
  cache !! name = Some value
  /\ cache !! ("a-" +:+ name) = Some value
  /\ createDescription cache name
     = DescriptionPrefix +:+ " " +:+ Base64.EncodeToString value.
Proof.
  intros Hws Hd Hdec name cache.
  destruct (cacheFromSlice_framed_row before row ws b64 value Hws Hd Hdec) as (H1 & H2).
  split; [exact H1|]. split; [exact H2|].
  subst name cache. unfold createDescription. rewrite H1. reflexivity.
Qed.

Lemma ownership_read_back_witness :
  let row := {| UUID := "some-uuid-here"; Hostname := "foo";
                Domain := "example.domain"; Rr := "A (Ipv4 Address)";
                Server := "10.0.0.4"; Enabled := "1";
                Description := appendToDescription Example.heritage64 |} in
  let cache := cacheFromSlice (ToEndpoints {| Rows := [] ++ [row] |}) in
  cache !! "foo.example.domain" = Some Example.heritage
  /\ cache !! "a-foo.example.domain" = Some Example.heritage
  /\ createDescription cache "foo.example.domain"
     = DescriptionPrefix +:+ " " +:+ Base64.EncodeToString Example.heritage.
Proof.
  apply (ownership_read_back []
           {| UUID := "some-uuid-here"; Hostname := "foo";
              Domain := "example.domain"; Rr := "A (Ipv4 Address)";
              Server := "10.0.0.4"; Enabled := "1";
              Description := appendToDescription Example.heritage64 |}
           " " Example.heritage64 Example.heritage).
  - repeat constructor.
  - reflexivity.
  - vm_compute. reflexivity.
Defined.

(** X6.  Writing then reading.  The record an endpoint is encoded to,
    returned by the remote under any identifier and any type text, is read
    back under the name of the endpoint when that name holds a dot, and
    under that name followed by a dot when it holds none.  In the first
    case the cache rebuilt from a read that ends with this record describes
    the name as the cache it was written from did. *)
Theorem write_then_read (heritages : gmap string string) (ep : Endpoint)
    (request : AddOverrideRequest) (before : list Record_) (row : Record_) :
  In request (createRequests heritages ep) ->
  Hostname row = Hostname (Host request) ->
  Domain row = Domain (Host request) ->
  Description row = Description (Host request) ->
  let name := DNSName (marshalledEndpoint row) in
  (countByte "." (DNSName ep) = O -> name = DNSName ep +:+ ".")
  /\ (countByte "." (DNSName ep) <> O ->
      name = DNSName ep
      /\ createDescription
           (cacheFromSlice (ToEndpoints {| Rows := before ++ [row] |})) (DNSName ep)
         = createDescription heritages (DNSName ep)).
Proof.
  intros Hin Hh Hd Hdesc name.
  unfold createRequests in Hin. apply in_map_iff in Hin.
  destruct Hin as (target & <- & _). cbn [Host Hostname Domain Description] in *.
  assert (Hname : name = hd EmptyString (GoStrings.Split (DNSName ep) ".") +:+ "."
                         +:+ GoStrings.Join (tl (GoStrings.Split (DNSName ep) ".")) ".").
  { unfold name, marshalledEndpoint. cbn [DNSName]. rewrite Hh, Hd. reflexivity. }
  split.
  - intros Hc. rewrite Hname, (Split_none _ _ Hc). reflexivity.
  - intros Hc. assert (Hsame : name = DNSName ep).
    { rewrite Hname. apply (Split_head_join (DNSName ep) "." Hc). }
    split; [exact Hsame|].
    unfold createDescription, appendToDescription in Hdesc.
    destruct (cacheFromSlice_framed_row before row " " _ _
                ltac:(repeat constructor) Hdesc
                (Base64Facts.DecodeString_EncodeToString _)) as (H1 & _).
    unfold name, marshalledEndpoint in Hsame. cbn [DNSName] in Hsame.
    rewrite Hsame in H1.
    unfold createDescription. rewrite H1. reflexivity.
Qed.

Lemma write_then_read_witness :
  let heritages : gmap string string := {[ "create.example.me" := Example.heritage ]} in
  let row := {| UUID := "new-uuid"; Hostname := "create"; Domain := "example.me";
                Rr := "A (IPv4 address)"; Server := "1.2.3.4"; Enabled := "1";
                Description := createDescription heritages "create.example.me" |} in
  let local := {| UUID := "other-uuid"; Hostname := "localhost"; Domain := "";
                  Rr := "A (IPv4 address)"; Server := "127.0.0.1"; Enabled := "1";
                  Description := createDescription heritages "localhost" |} in
  DNSName (marshalledEndpoint local) = "localhost."
  /\ DNSName (marshalledEndpoint row) = "create.example.me"
  /\ createDescription
       (cacheFromSlice (ToEndpoints {| Rows := [local] ++ [row] |})) "create.example.me"
     = createDescription heritages "create.example.me".
Proof.
  intros heritages row local. split.
  - destruct (write_then_read heritages
                (Example.record "localhost" "A" "127.0.0.1" "")
                {| Host := {| UUID := ""; Hostname := "localhost"; Domain := "";
                              Rr := "A"; Server := "127.0.0.1"; Enabled := "1";
                              Description := createDescription heritages "localhost" |} |}
                [] local (or_introl eq_refl) eq_refl eq_refl eq_refl) as [H _].
    apply H. reflexivity.
  - destruct (write_then_read heritages
                (Example.record "create.example.me" "A" "1.2.3.4" "")
                {| Host := {| UUID := ""; Hostname := "create"; Domain := "example.me";
                              Rr := "A"; Server := "1.2.3.4"; Enabled := "1";
                              Description :=
                                createDescription heritages "create.example.me" |} |}
                [local] row (or_introl eq_refl) eq_refl eq_refl eq_refl) as [_ H].
    apply H. discriminate.
Defined.

Lemma endpointsFromBase64Description_inv dnsName description txtEndpoints :
  endpointsFromBase64Description dnsName description = Some txtEndpoints ->
  length txtEndpoints = 2%nat
  /\ Forall (fun own => SetIdentifier own = EmptyString
                        /\ RecordType own = RecordTypeTXT) txtEndpoints.
Proof.
  unfold endpointsFromBase64Description.
  destruct (negb (GoStrings.HasPrefix description DescriptionPrefix)); [discriminate|].
  destruct (Base64.DecodeString _) as [decoded|]; [|discriminate].
  intros [= <-]. split; [reflexivity|]. repeat constructor.
Qed.

(** X7.  Decoding never drops a row and never fails: every row gives its
    address record, followed by two ownership records or by none, so that
    there are at least as many records as rows and at most three times as
    many.  The records that bear an identifier are the address records of
    the rows that bear one, in the order of the rows: a synthesized
    ownership record never bears an identifier. *)
Theorem ToEndpoints_identifiers (rows : list Record_) :
  List.filter (fun ep => negb (String.eqb (SetIdentifier ep) ""))
    (ToEndpoints {| Rows := rows |})
  = map marshalledEndpoint
      (List.filter (fun row => negb (String.eqb (UUID row) "")) rows)
  /\ (length rows <= length (ToEndpoints {| Rows := rows |}) <= 3 * length rows)%nat.
Proof.
  induction rows as [|row rows (IHf & IHl)]; [split; [reflexivity | cbn; lia]|].
  rewrite ToEndpoints_cons, ToEndpoints_single.
  cbn [app List.filter]. rewrite List.filter_app, IHf.
  change (SetIdentifier (marshalledEndpoint row)) with (UUID row).
  assert (Hown : exists own,
             match endpointsFromBase64Description
                     (Hostname row +:+ "." +:+ Domain row) (Description row) with
             | Some txtEndpoints => txtEndpoints
             | None => []
             end = own
             /\ List.filter (fun ep => negb (String.eqb (SetIdentifier ep) "")) own = []
             /\ (length own <= 2)%nat).
  { destruct (endpointsFromBase64Description _ _) as [txt|] eqn:Htxt.
    - exists txt. split; [reflexivity|].
      destruct (endpointsFromBase64Description_inv _ _ _ Htxt) as (Hlen & Hall).
      split; [|lia]. clear Htxt Hlen.
      induction Hall as [|own l (Hid & _) _ IH]; [reflexivity|].
      cbn [List.filter]. rewrite Hid. exact IH.
    - exists []. repeat split. cbn. lia. }
  destruct Hown as (own & -> & Hfilter & Hlen). rewrite Hfilter.
  split.
  - destruct (negb (String.eqb (UUID row) "")); reflexivity.
  - cbn [length]. rewrite length_app. lia.
Qed.

(** * More properties: the calls of a change-set *)

Lemma deleteEndpoints_prefix rt eps : forall st res st',
  deleteEndpoints rt eps st = (res, st') ->
  knownRecords st' = knownRecords st
  /\ exists calls rest,
      trace st' = trace st ++ calls
      /\ deleteCalls rt eps = calls ++ rest
      /\ (res = None -> rest = []).
Proof.
  induction eps as [|ep eps IH]; intros st res st' H.
  - inversion H; subst. split; [reflexivity|]. exists [], [].
    rewrite app_nil_r. auto.
  - rewrite deleteEndpoints_cons in H.
    destruct (deleteEndpoint rt ep st) as [err st1] eqn:Hep.
    destruct (deleteEndpoint_inv _ _ _ _ _ Hep)
      as (Hk & [(msg & _ & Herr & Htr) | (Htr & _)]).
    + subst err. inversion H; subst. split; [exact Hk|].
      exists [], (deleteCalls rt (ep :: eps)). rewrite app_nil_r.
      repeat split; [exact Htr | discriminate].
    + destruct err as [e|].
      * inversion H; subst. split; [exact Hk|].
        exists [(OpDelete, deleteRequest rt ep)], (deleteCalls rt eps).
        repeat split; [exact Htr | discriminate].
      * destruct (IH _ _ _ H) as (Hk' & calls & rest & Htr' & Hcalls & Hnone).
        split; [congruence|].
        exists ((OpDelete, deleteRequest rt ep) :: calls), rest.
        split; [rewrite Htr', Htr, <- app_assoc; reflexivity|].
        split; [cbn [deleteCalls map app]; f_equal; exact Hcalls | exact Hnone].
Qed.

Lemma createTargets_prefix rt ep datas : forall st res st',
  createTargets rt datas ep st = (res, st') ->
  knownRecords st' = knownRecords st
  /\ exists calls rest,
      trace st' = trace st ++ calls
      /\ map (fun data => (OpAdd, addRequest rt data)) datas = calls ++ rest
      /\ (res = None -> rest = []).
Proof.
  induction datas as [|data datas IH]; intros st res st' H.
  - inversion H; subst. split; [reflexivity|]. exists [], [].
    rewrite app_nil_r. auto.
  - rewrite createTargets_cons in H.
    destruct (createTarget rt data ep st) as [err st1] eqn:Hone.
    destruct (createTarget_inv _ _ _ _ _ _ Hone)
      as (Hk & [(msg & _ & Herr & Htr) | (Htr & _)]).
    + subst err. inversion H; subst. split; [exact Hk|].
      eexists [], _. rewrite app_nil_r.
      repeat split; [exact Htr | discriminate].
    + destruct err as [e|].
      * inversion H; subst. split; [exact Hk|].
        eexists [(OpAdd, addRequest rt data)], _.
        repeat split; [exact Htr | discriminate].
      * destruct (IH _ _ _ H) as (Hk' & calls & rest & Htr' & Hcalls & Hnone).
        split; [congruence|].
        exists ((OpAdd, addRequest rt data) :: calls), rest.
        split; [rewrite Htr', Htr, <- app_assoc; reflexivity|].
        split; [cbn [map app]; f_equal; exact Hcalls | exact Hnone].
Qed.

Lemma addCalls_cons rt heritages ep eps :
  addCalls rt heritages (ep :: eps)
  = (if supportedType (RecordType ep) then
       map (fun data => (OpAdd, addRequest rt data))
         (map (json_Marshal rt) (createRequests heritages ep))
     else [])
    ++ addCalls rt heritages eps.
Proof.
  unfold addCalls. cbn [flat_map].
  destruct (supportedType (RecordType ep)); [|reflexivity].
  rewrite map_map. reflexivity.
Qed.

Lemma createEndpoints_prefix rt eps : forall st res st',
  createEndpoints rt eps st = (res, st') ->
  knownRecords st' = knownRecords st
  /\ exists calls rest,
      trace st' = trace st ++ calls
      /\ addCalls rt (knownRecords st) eps = calls ++ rest
      /\ (res = None -> rest = []).
Proof.
  induction eps as [|ep eps IH]; intros st res st' H.
  - inversion H; subst. split; [reflexivity|]. exists [], [].
    rewrite app_nil_r. auto.
  - rewrite createEndpoints_cons in H. rewrite addCalls_cons.
    destruct (supportedType (RecordType ep)).
    + destruct (createTargets rt _ ep st) as [err st1] eqn:Hts.
      destruct (createTargets_prefix _ _ _ _ _ _ Hts)
        as (Hk & calls1 & rest1 & Htr1 & Hcalls1 & Hnone1).
      destruct err as [e|].
      * inversion H; subst. split; [exact Hk|].
        exists calls1, (rest1 ++ addCalls rt (knownRecords st) eps).
        split; [exact Htr1|]. split; [|discriminate].
        rewrite Hcalls1, <- app_assoc. reflexivity.
      * destruct (IH _ _ _ H) as (Hk' & calls2 & rest2 & Htr2 & Hcalls2 & Hnone2).
        split; [congruence|]. exists (calls1 ++ calls2), rest2.
        split; [rewrite Htr2, Htr1, <- app_assoc; reflexivity|].
        split; [|exact Hnone2].
        rewrite Hcalls1, (Hnone1 eq_refl), app_nil_r, <- Hk, Hcalls2, <- app_assoc.
        reflexivity.
    + destruct (IH _ _ _ H) as (Hk' & calls2 & rest2 & Htr2 & Hcalls2 & Hnone2).
      split; [exact Hk'|]. exists calls2, rest2. auto.
Qed.

(** Whatever happens, the calls made are the first of the calls planned. *)
Lemma ApplyChanges_prefix rt changes st res st' :
  HasChanges changes = true ->
  ApplyChanges rt changes st = (res, st') ->
  knownRecords st' = cache_updateFromPlan (knownRecords st) changes
  /\ exists calls rest,
      trace st' = trace st ++ calls
      /\ plannedCalls rt (knownRecords st') changes = calls ++ rest
      /\ (res = None -> rest = []).
Proof.
  intros Hch. rewrite ApplyChanges_unfold, Hch. cbn [negb]. cbv zeta.
  set (st0 := {| knownRecords := _; trace := trace st |}).
  unfold plannedCalls.
  destruct (deleteEndpoints rt _ st0) as [derr st1] eqn:Hdel.
  destruct (deleteEndpoints_prefix _ _ _ _ _ Hdel)
    as (Hk1 & calls1 & rest1 & Htr1 & Hcalls1 & Hnone1).
  destruct derr as [e|].
  { intros [= <- <-]. split; [exact Hk1|]. rewrite Hk1.
    exists calls1. eexists. split; [exact Htr1|]. split; [|discriminate].
    rewrite Hcalls1, <- app_assoc. reflexivity. }
  rewrite (Hnone1 eq_refl), app_nil_r in Hcalls1.
  destruct (createEndpoints rt _ st1) as [cerr st2] eqn:Hcre.
  destruct (createEndpoints_prefix _ _ _ _ _ Hcre)
    as (Hk2 & calls2 & rest2 & Htr2 & Hcalls2 & Hnone2).
  rewrite Hk1 in Hcalls2.
  assert (Htr12 : trace st2 = trace st ++ (calls1 ++ calls2))
    by (rewrite Htr2, Htr1, <- app_assoc; reflexivity).
  destruct cerr as [e|].
  { intros [= <- <-]. split; [rewrite Hk2, Hk1; reflexivity|]. rewrite Hk2, Hk1.
    exists (calls1 ++ calls2). eexists. split; [exact Htr12|]. split; [|discriminate].
    rewrite Hcalls1, Hcalls2, <- !app_assoc. reflexivity. }
  rewrite (Hnone2 eq_refl), app_nil_r in Hcalls2.
  rewrite reconfigure_unfold.
  destruct (NewRequestWithContext rt MethodPost (req_url (reconfigureRequest rt))).
  { intros [= <- <-]. split; [rewrite Hk2, Hk1; reflexivity|]. rewrite Hk2, Hk1.
    exists (calls1 ++ calls2). eexists. split; [exact Htr12|]. split; [|discriminate].
    rewrite Hcalls1, Hcalls2, <- !app_assoc. reflexivity. }
  set (rerr := match client_Do rt (trace st2) _ with inl _ => _ | inr _ => _ end).
  intros H.
  assert (Hst : st' = {| knownRecords := knownRecords st2;
                         trace := trace st2 ++ [(OpReconfigure, reconfigureRequest rt)] |})
    by (destruct rerr; inversion H; reflexivity).
  rewrite Hst. cbn [knownRecords trace].
  split; [rewrite Hk2, Hk1; reflexivity|]. rewrite Hk2, Hk1.
  exists ((calls1 ++ calls2) ++ [(OpReconfigure, reconfigureRequest rt)]), [].
  split; [rewrite Htr12, <- !app_assoc; reflexivity|]. split; [|reflexivity].
  rewrite Hcalls1, Hcalls2, app_nil_r, <- !app_assoc. reflexivity.
Qed.

Lemma plannedCalls_no_search rt heritages changes :
  Forall (fun call => fst call <> OpSearch) (plannedCalls rt heritages changes).
Proof.
  unfold plannedCalls, deleteCalls, addCalls.
  repeat (apply Forall_app; split).
  - apply Forall_forall. intros call Hin.
    apply list_elem_of_In, in_map_iff in Hin. destruct Hin as (ep & <- & _). discriminate.
  - apply Forall_forall. intros call Hin.
    apply list_elem_of_In, in_flat_map in Hin. destruct Hin as (ep & _ & Hin).
    destruct (supportedType (RecordType ep)); [|contradiction].
    apply in_map_iff in Hin. destruct Hin as (request & <- & _). discriminate.
  - constructor; [discriminate | constructor].
Qed.

(** X8.  The calls of [ApplyChanges] are made in the order of the plan:
    whatever the outcome, they are the first calls of the sequence made of
    the delete calls of [Delete] then [UpdateOld], the create calls of the
    address records of [Create] then [UpdateNew], one for each target, and
    the reconfigure call.  So no delete call follows a create call, nothing
    follows the reconfigure call, and the remote state is never read. *)
Theorem ApplyChanges_calls_in_order (rt : Runtime) (changes : Changes) (st : State) :
  HasChanges changes = true ->
  let after := snd (ApplyChanges rt changes st) in
  (exists rest,
      plannedCalls rt (knownRecords after) changes = issued st after ++ rest)
  /\ Forall (fun call => fst call <> OpSearch) (issued st after).
Proof.
  intros Hch after.
  destruct (ApplyChanges rt changes st) as [res st'] eqn:Hrun.
  destruct (ApplyChanges_prefix _ _ _ _ _ Hch Hrun)
    as (_ & calls & rest & Htr & Hplan & _).
  subst after. cbn [snd]. rewrite (issued_app st st' calls Htr).
  split; [exists rest; exact Hplan|].
  pose proof (plannedCalls_no_search rt (knownRecords st') changes) as Hall.
  rewrite Hplan in Hall. apply Forall_app in Hall. apply Hall.
Qed.

Lemma ApplyChanges_calls_in_order_witness :
  let after := snd (ApplyChanges (Example.runtime Example.read_only)
                      Example.crud Example.fresh) in
  (exists rest,
      plannedCalls (Example.runtime Example.read_only) (knownRecords after) Example.crud
      = issued Example.fresh after ++ rest)
  /\ Forall (fun call => fst call <> OpSearch) (issued Example.fresh after).
Proof.
  exact (ApplyChanges_calls_in_order (Example.runtime Example.read_only)
           Example.crud Example.fresh eq_refl).
Defined.

(** X9.  [ApplyChanges] returns no error on a change-set with changes
    only when every call of the plan was made: all the deletions, all the
    creations and the reconfigure call, in this order and nothing else. *)
Theorem ApplyChanges_nil_is_complete (rt : Runtime) (changes : Changes)
    (st st' : State) :
  HasChanges changes = true ->
  ApplyChanges rt changes st = (None, st') ->
  issued st st' = plannedCalls rt (knownRecords st') changes
  /\ trace st' = trace st ++ plannedCalls rt (knownRecords st') changes.
Proof.
  intros Hch Hrun.
  destruct (ApplyChanges_prefix _ _ _ _ _ Hch Hrun)
    as (_ & calls & rest & Htr & Hplan & Hnone).
  rewrite (Hnone eq_refl), app_nil_r in Hplan.
  rewrite (issued_app st st' calls Htr), Hplan. split; [reflexivity | exact Htr].
Qed.

Lemma ApplyChanges_nil_is_complete_witness :
  let rt := Example.runtime Example.obliging in
  let after := snd (ApplyChanges rt Example.crud Example.fresh) in
  issued Example.fresh after = plannedCalls rt (knownRecords after) Example.crud
  /\ trace after
     = trace Example.fresh ++ plannedCalls rt (knownRecords after) Example.crud.
Proof.
  exact (ApplyChanges_nil_is_complete (Example.runtime Example.obliging)
           Example.crud Example.fresh _ eq_refl eq_refl).
Defined.
(** * More properties: the outcome of a change-set *)

(** X10.  Whatever the outcome of [ApplyChanges], and however many calls
    were made, the cache it leaves is the cache of the plan: the plan is
    filed before the first call, no call changes the cache, and a failure
    does not take the plan out again.  A change-set without changes leaves
    the cache as it was. *)
Theorem ApplyChanges_cache (rt : Runtime) (changes : Changes) (st : State) :
  knownRecords (snd (ApplyChanges rt changes st))
  = if HasChanges changes
    then cache_updateFromPlan (knownRecords st) changes
    else knownRecords st.
Proof.
  destruct (HasChanges changes) eqn:Hch.
  - destruct (ApplyChanges rt changes st) as [res st'] eqn:Hrun.
    exact (proj1 (ApplyChanges_prefix _ _ _ _ _ Hch Hrun)).
  - rewrite ApplyChanges_unfold, Hch. reflexivity.
Qed.

(** [Records] makes the search call, or no call when its request cannot
    be built. *)
Lemma Records_trace rt st :
  trace (snd (Records rt st))
  = trace st ++ match NewRequestWithContext rt MethodGet (req_url (searchRequest rt)) with
                | Some _ => []
                | None => [(OpSearch, searchRequest rt)]
                end.
Proof.
  rewrite Records_unfold.
  destruct (NewRequestWithContext rt MethodGet (req_url (searchRequest rt))).
  { cbn [snd]. rewrite app_nil_r. reflexivity. }
  cbv zeta. destruct (client_Do rt (trace st) _) as [msg|resp]; [reflexivity|].
  destruct (negb (StatusCode resp =? StatusOK)); [reflexivity|].
  destruct (marshalEndpoints rt resp); reflexivity.
Qed.

(** X11.  [Records] makes one call, the search, whatever the answer; it
    makes none exactly when the request cannot be built, and then it
    returns an error. *)
Theorem Records_calls (rt : Runtime) (st : State) :
  let '(res, st') := Records rt st in
  (issued st st' = [(OpSearch, searchRequest rt)] \/ issued st st' = [])
  /\ (issued st st' = [] <->
      NewRequestWithContext rt MethodGet (req_url (searchRequest rt)) <> None)
  /\ (issued st st' = [] -> exists err, res = inl err).
Proof.
  pose proof (Records_trace rt st) as Htr.
  pose proof (Records_unfold rt st) as Hun.
  destruct (Records rt st) as [res st'] eqn:Hrun. cbn [snd] in Htr.
  apply issued_app in Htr. rewrite Htr.
  destruct (NewRequestWithContext rt MethodGet (req_url (searchRequest rt))) as [msg|].
  - inversion Hun; subst. split; [right; reflexivity|]. split; [|eauto].
    split; [discriminate | reflexivity].
  - split; [left; reflexivity|]. split; [|discriminate].
    split; [discriminate | intros H; contradiction].
Qed.

(** On an accepting runtime a call is answered, and the answer passes
    the checks of its operation. *)
Lemma accepting_answer rt history op req :
  accepting rt -> op <> OpSearch ->
  exists resp,
    client_Do rt history (op, req) = inr resp
    /\ answer_error rt (expectedResult op) resp = None.
Proof.
  intros (_ & Hdo) Hop.
  destruct (Hdo history (op, req) Hop) as (resp & Hresp & Hstatus & Hjson).
  exists resp. split; [exact Hresp|].
  unfold answer_error, checkResponse. rewrite Hstatus, Hjson. cbn [fst].
  rewrite Z.eqb_refl. cbn [negb isSome orb Result]. rewrite String.eqb_refl.
  reflexivity.
Qed.

Lemma accepting_deleteEndpoint rt ep st :
  accepting rt -> fst (deleteEndpoint rt ep st) = None.
Proof.
  intros Hacc. destruct (deleteEndpoint rt ep st) as [res st'] eqn:Hrun.
  destruct (accepting_answer rt (trace st) OpDelete (deleteRequest rt ep) Hacc)
    as (resp & Hresp & Hans); [discriminate|].
  destruct (deleteEndpoint_inv _ _ _ _ _ Hrun)
    as (_ & [(msg & Hreq & _) | (_ & [(msg & Hdo & _) | (resp' & Hdo & Hres)])]).
  - rewrite (proj1 Hacc) in Hreq. discriminate.
  - congruence.
  - cbn [fst]. rewrite Hres. replace resp' with resp by congruence. exact Hans.
Qed.

Lemma accepting_deleteEndpoints rt eps : forall st,
  accepting rt -> fst (deleteEndpoints rt eps st) = None.
Proof.
  induction eps as [|ep eps IH]; intros st Hacc; [reflexivity|].
  rewrite deleteEndpoints_cons.
  pose proof (accepting_deleteEndpoint rt ep st Hacc) as Hep.
  destruct (deleteEndpoint rt ep st) as [res st1]. cbn [fst] in Hep. subst res.
  apply IH, Hacc.
Qed.

Lemma accepting_createTarget rt data ep st :
  accepting rt -> fst (createTarget rt data ep st) = None.
Proof.
  intros Hacc. destruct (createTarget rt data ep st) as [res st'] eqn:Hrun.
  destruct (accepting_answer rt (trace st) OpAdd (addRequest rt data) Hacc)
    as (resp & Hresp & Hans); [discriminate|].
  destruct (createTarget_inv _ _ _ _ _ _ Hrun)
    as (_ & [(msg & Hreq & _) | (_ & [(msg & Hdo & _) | (resp' & Hdo & Hres)])]).
  - rewrite (proj1 Hacc) in Hreq. discriminate.
  - congruence.
  - cbn [fst]. rewrite Hres. replace resp' with resp by congruence. exact Hans.
Qed.

Lemma accepting_createTargets rt ep datas : forall st,
  accepting rt -> fst (createTargets rt datas ep st) = None.
Proof.
  induction datas as [|data datas IH]; intros st Hacc; [reflexivity|].
  rewrite createTargets_cons.
  pose proof (accepting_createTarget rt data ep st Hacc) as Hone.
  destruct (createTarget rt data ep st) as [res st1]. cbn [fst] in Hone. subst res.
  apply IH, Hacc.
Qed.

Lemma accepting_createEndpoints rt eps : forall st,
  accepting rt -> fst (createEndpoints rt eps st) = None.
Proof.
  induction eps as [|ep eps IH]; intros st Hacc; [reflexivity|].
  rewrite createEndpoints_cons.
  destruct (supportedType (RecordType ep)); [|apply IH, Hacc].
  pose proof (accepting_createTargets rt ep
                (map (json_Marshal rt) (createRequests (knownRecords st) ep)) st Hacc)
    as Hone.
  destruct (createTargets rt _ ep st) as [res st1]. cbn [fst] in Hone. subst res.
  apply IH, Hacc.
Qed.

Lemma accepting_reconfigure rt st :
  accepting rt -> fst (reconfigure rt st) = None.
Proof.
  intros Hacc. rewrite reconfigure_unfold, (proj1 Hacc). cbn [fst].
  destruct (accepting_answer rt (trace st) OpReconfigure (reconfigureRequest rt) Hacc)
    as (resp & Hresp & Hans); [discriminate|].
  rewrite Hresp. exact Hans.
Qed.

Lemma obliging_accepting : accepting (Example.runtime Example.obliging).
Proof.
  split; [reflexivity|].
  intros history [op req] Hop.
  destruct op; [contradiction | | |]; eexists; (split; [reflexivity|]);
    split; vm_compute; reflexivity.
Qed.

(** X12.  [ApplyChanges] fails only when the remote or the building of a
    request does: when no request fails to be built, and every call is
    answered with status 200 and the result its operation expects, it
    returns no error, whatever the change-set and the state. *)
Theorem ApplyChanges_succeeds (rt : Runtime) (changes : Changes) (st : State) :
  accepting rt -> fst (ApplyChanges rt changes st) = None.
Proof.
  intros Hacc. rewrite ApplyChanges_unfold.
  destruct (negb (HasChanges changes)); [reflexivity|]. cbv zeta.
  match goal with |- context [deleteEndpoints rt ?eps ?st0] =>
    pose proof (accepting_deleteEndpoints rt eps st0 Hacc) as Hdel;
    destruct (deleteEndpoints rt eps st0) as [derr st1] end.
  cbn [fst] in Hdel. subst derr.
  match goal with |- context [createEndpoints rt ?eps st1] =>
    pose proof (accepting_createEndpoints rt eps st1 Hacc) as Hcre;
    destruct (createEndpoints rt eps st1) as [cerr st2] end.
  cbn [fst] in Hcre. subst cerr.
  pose proof (accepting_reconfigure rt st2 Hacc) as Hrec.
  destruct (reconfigure rt st2) as [rerr st3]. cbn [fst] in Hrec. subst rerr.
  reflexivity.
Qed.

Lemma ApplyChanges_succeeds_witness :
  fst (ApplyChanges (Example.runtime Example.obliging) Example.crud Example.fresh)
  = None.
Proof.
  exact (ApplyChanges_succeeds (Example.runtime Example.obliging)
           Example.crud Example.fresh obliging_accepting).
Defined.
(** * More properties: the validation of a configuration *)

Lemma countByte_app c s t :
  countByte c (s +:+ t) = (countByte c s + countByte c t)%nat.
Proof.
  induction s as [|d s IH]; [reflexivity|].
  change (String d s +:+ t) with (String d (s +:+ t)). cbn [countByte].
  destruct (Ascii.eqb d c); rewrite IH; reflexivity.
Qed.

(** [strings.TrimSuffix] takes the suffix off once, or leaves the string
    as it is. *)
Lemma strings_TrimSuffix_cases s suffix :
  strings_TrimSuffix s suffix = s \/ s = strings_TrimSuffix s suffix +:+ suffix.
Proof.
  induction s as [|c s IH]; cbn [strings_TrimSuffix].
  - destruct (String.eqb_spec EmptyString suffix) as [<-|]; left; reflexivity.
  - destruct (String.eqb_spec (String c s) suffix) as [<-|_]; [right; reflexivity|].
    destruct IH as [-> | IH]; [left; reflexivity|].
    right. change (String c (strings_TrimSuffix s suffix) +:+ suffix)
      with (String c (strings_TrimSuffix s suffix +:+ suffix)).
    rewrite <- IH. reflexivity.
Qed.

(** A prefix that holds no byte [c] does not reach a [c] at the end. *)
Lemma HasPrefix_before_last p c : forall t,
  countByte c p = O ->
  GoStrings.HasPrefix (t +:+ String c EmptyString) p = true ->
  GoStrings.HasPrefix t p = true.
Proof.
  unfold GoStrings.HasPrefix.
  induction p as [|a p IH]; intros t Hc H; [destruct t; reflexivity|].
  cbn [countByte] in Hc. destruct (Ascii.eqb a c) eqn:Hac; [discriminate|].
  apply Ascii.eqb_neq in Hac.
  destruct t as [|b t].
  - change (EmptyString +:+ String c EmptyString) with (String c EmptyString) in H.
    cbn [String.prefix] in H. destruct (ascii_dec a c); [contradiction | discriminate].
  - change (String b t +:+ String c EmptyString)
      with (String b (t +:+ String c EmptyString)) in H.
    cbn [String.prefix] in H |- *.
    destruct (ascii_dec a b); [|discriminate]. apply IH; assumption.
Qed.

Lemma hasProtocol_TrimSuffix baseURL :
  config.hasProtocol baseURL = true ->
  config.hasProtocol (strings_TrimSuffix baseURL newline) = true.
Proof.
  destruct (strings_TrimSuffix_cases baseURL newline) as [-> | Hcut]; [tauto|].
  revert Hcut. generalize (strings_TrimSuffix baseURL newline). intros t ->.
  unfold config.hasProtocol. intros H. apply orb_true_iff in H.
  apply orb_true_iff. destruct H as [H | H]; [left | right];
    (eapply HasPrefix_before_last; [|exact H]); reflexivity.
Qed.

Lemma credFormat_count cred :
  config.credFormat cred = true <-> countByte ":" cred = 1%nat.
Proof.
  unfold config.credFormat. rewrite Split_length, Nat.eqb_eq. lia.
Qed.

Lemma countByte_TrimSuffix c s :
  Ascii.eqb (ascii_of_nat 10) c = false ->
  countByte c (strings_TrimSuffix s newline) = countByte c s.
Proof.
  intros Hc. destruct (strings_TrimSuffix_cases s newline) as [-> | Hcut]; [reflexivity|].
  rewrite Hcut at 2. rewrite countByte_app. unfold newline. cbn [countByte].
  rewrite Hc. lia.
Qed.

Lemma Validate_None cfg :
  snd (config.Validate cfg) = None
  <-> config.hasProtocol (config.BaseURL cfg) = true
      /\ countByte ":" (config.Creds cfg) = 1%nat.
Proof.
  unfold config.Validate. rewrite <- credFormat_count.
  destruct (String.eqb_spec (config.BaseURL cfg) "") as [Hb|_].
  { rewrite Hb. cbn. split; [discriminate | intros [? _]; discriminate]. }
  destruct (config.hasProtocol (config.BaseURL cfg)).
  2: { cbn. split; [discriminate | intros [? _]; discriminate]. }
  cbn [orb negb].
  destruct (String.eqb_spec (config.Creds cfg) "") as [Hc|_].
  { rewrite Hc. cbn. split; [discriminate | intros [_ ?]; discriminate]. }
  destruct (config.credFormat (config.Creds cfg)); cbn; split; auto.
  - discriminate.
  - intros [_ ?]; discriminate.
Qed.

(** X13.  [Validate] accepts a configuration exactly when its base URL
    begins with [http://] or [https://] and its credentials hold exactly
    one colon; the two tests against the empty string add nothing, and
    nothing else is looked at: an empty key, an empty secret and an empty
    host all pass. *)
Theorem Validate_accepts (cfg : config.Config) :
  snd (config.Validate cfg) = None
  <-> (GoStrings.HasPrefix (config.BaseURL cfg) "http://" = true
       \/ GoStrings.HasPrefix (config.BaseURL cfg) "https://" = true)
      /\ countByte ":" (config.Creds cfg) = 1%nat.
Proof.
  rewrite Validate_None. unfold config.hasProtocol. rewrite orb_true_iff. tauto.
Qed.

(** X14.  A configuration [Validate] rejects is left as it was, and the
    base URL is judged first: the error wraps [ErrInvalidBaseURL] with the
    URL in its message whenever the URL lacks its protocol, whatever the
    credentials are, and is [ErrInvalidCreds] itself only for a URL that
    passes. *)
Theorem Validate_rejects (cfg : config.Config) (e : config.error) :
  snd (config.Validate cfg) = Some e ->
  fst (config.Validate cfg) = cfg
  /\ ((config.hasProtocol (config.BaseURL cfg) = false
       /\ e = config.Errorf "%v: %w" [ArgString (config.BaseURL cfg)]
                config.ErrInvalidBaseURL)
      \/ (config.hasProtocol (config.BaseURL cfg) = true
          /\ countByte ":" (config.Creds cfg) <> 1%nat
          /\ e = config.ErrInvalidCreds)).
Proof.
  pose proof (Validate_None cfg) as Hnone. revert Hnone.
  unfold config.Validate.
  destruct (String.eqb_spec (config.BaseURL cfg) "") as [Hb|_].
  { rewrite Hb. cbn. intros _ [= <-]. split; [reflexivity|]. left. split; reflexivity. }
  destruct (config.hasProtocol (config.BaseURL cfg)) eqn:Hp.
  2: { cbn. intros _ [= <-]. split; [reflexivity|]. left. split; reflexivity. }
  cbn [orb negb].
  destruct (String.eqb (config.Creds cfg) "" || negb (config.credFormat (config.Creds cfg)));
    cbn [fst snd]; [|discriminate].
  intros Hnone [= <-]. split; [reflexivity|]. right. split; [reflexivity|].
  split; [|reflexivity]. intros Hc.
  assert (Hno : Some config.ErrInvalidCreds = None) by (apply Hnone; auto).
  discriminate.
Qed.

Lemma Validate_rejects_witness :
  let cfg := {| config.BaseURL := "opnsense.example"; config.Creds := "key:secret";
                config.Addr := ":8080"; config.Filter := []; config.Exclude := [];
                config.LogLevel := 0 |} in
  let e := config.Errorf "%v: %w" [ArgString "opnsense.example"]
             config.ErrInvalidBaseURL in
  fst (config.Validate cfg) = cfg
  /\ ((config.hasProtocol (config.BaseURL cfg) = false
       /\ e = config.Errorf "%v: %w" [ArgString (config.BaseURL cfg)]
                config.ErrInvalidBaseURL)
      \/ (config.hasProtocol (config.BaseURL cfg) = true
          /\ countByte ":" (config.Creds cfg) <> 1%nat
          /\ e = config.ErrInvalidCreds)).
Proof.
  exact (Validate_rejects
           {| config.BaseURL := "opnsense.example"; config.Creds := "key:secret";
              config.Addr := ":8080"; config.Filter := []; config.Exclude := [];
              config.LogLevel := 0 |} _ eq_refl).
Defined.

(** X15.  A configuration [Validate] accepts comes out with one trailing
    line feed taken off its base URL and off its credentials, and nothing
    else changed; what comes out is accepted when validated again. *)
Theorem Validate_again (cfg cfg' : config.Config) :
  config.Validate cfg = (cfg', None) ->
  snd (config.Validate cfg') = None
  /\ (config.BaseURL cfg = config.BaseURL cfg'
      \/ config.BaseURL cfg = config.BaseURL cfg' +:+ newline)
  /\ (config.Creds cfg = config.Creds cfg'
      \/ config.Creds cfg = config.Creds cfg' +:+ newline)
  /\ config.Addr cfg' = config.Addr cfg
  /\ config.Filter cfg' = config.Filter cfg
  /\ config.Exclude cfg' = config.Exclude cfg
  /\ config.LogLevel cfg' = config.LogLevel cfg.
Proof.
  intros Hrun.
  assert (Hok : snd (config.Validate cfg) = None) by (rewrite Hrun; reflexivity).
  apply Validate_None in Hok. destruct Hok as [Hp Hc].
  assert (Hcfg : cfg' = {| config.BaseURL := strings_TrimSuffix (config.BaseURL cfg) newline;
                           config.Creds := strings_TrimSuffix (config.Creds cfg) newline;
                           config.Addr := config.Addr cfg;
                           config.Filter := config.Filter cfg;
                           config.Exclude := config.Exclude cfg;
                           config.LogLevel := config.LogLevel cfg |}).
  { revert Hrun. unfold config.Validate.
    destruct (String.eqb (config.BaseURL cfg) "" || negb (config.hasProtocol (config.BaseURL cfg)));
      [discriminate|].
    destruct (String.eqb (config.Creds cfg) "" || negb (config.credFormat (config.Creds cfg)));
      [discriminate|].
    intros [= <-]. reflexivity. }
  subst cfg'. cbn [config.BaseURL config.Creds config.Addr config.Filter
                   config.Exclude config.LogLevel].
  split; [|repeat split].
  - apply Validate_None. cbn [config.BaseURL config.Creds].
    split; [apply hasProtocol_TrimSuffix, Hp|].
    rewrite countByte_TrimSuffix; [exact Hc | reflexivity].
  - destruct (strings_TrimSuffix_cases (config.BaseURL cfg) newline) as [-> | H];
      [left; reflexivity | right; exact H].
  - destruct (strings_TrimSuffix_cases (config.Creds cfg) newline) as [-> | H];
      [left; reflexivity | right; exact H].
Qed.

Lemma Validate_again_witness :
  let cfg := {| config.BaseURL := "https://opnsense.example" +:+ newline;
                config.Creds := "key:secret" +:+ newline;
                config.Addr := ":8080"; config.Filter := []; config.Exclude := [];
                config.LogLevel := 0 |} in
  let cfg' := fst (config.Validate cfg) in
  snd (config.Validate cfg') = None
  /\ (config.BaseURL cfg = config.BaseURL cfg'
      \/ config.BaseURL cfg = config.BaseURL cfg' +:+ newline)
  /\ (config.Creds cfg = config.Creds cfg'
      \/ config.Creds cfg = config.Creds cfg' +:+ newline)
  /\ config.Addr cfg' = config.Addr cfg
  /\ config.Filter cfg' = config.Filter cfg
  /\ config.Exclude cfg' = config.Exclude cfg
  /\ config.LogLevel cfg' = config.LogLevel cfg.
Proof.
  exact (Validate_again
           {| config.BaseURL := "https://opnsense.example" +:+ newline;
              config.Creds := "key:secret" +:+ newline;
              config.Addr := ":8080"; config.Filter := []; config.Exclude := [];
              config.LogLevel := 0 |} _ eq_refl).
Defined.
(** * More properties: the commands *)

Lemma toMapping_fold_None (l : list (string * string)) : forall (m0 : gmap string string) h,
  fold_left (fun (out : gmap string string) (pair : string * string) =>
               <[ fst pair := snd pair ]> out) l m0 !! h = None
  <-> m0 !! h = None /\ ~ In h (map fst l).
Proof.
  induction l as [|[h0 t0] l IH]; intros m0 h; cbn [fold_left map In fst snd].
  - tauto.
  - rewrite IH, lookup_insert_None. intuition congruence.
Qed.

Lemma toMapping_fold_last (l : list (string * string)) : forall (m0 : gmap string string) i h t,
  l !! i = Some (h, t) ->
  (forall j p, (i < j)%nat -> l !! j = Some p -> fst p <> h) ->
  fold_left (fun (out : gmap string string) (pair : string * string) =>
               <[ fst pair := snd pair ]> out) l m0 !! h = Some t.
Proof.
  induction l as [|x l IH] using rev_ind; intros m0 i h t Hi Hlast.
  - discriminate.
  - rewrite fold_left_app. cbn [fold_left].
    pose proof (lookup_lt_Some _ _ _ Hi) as Hlt. rewrite length_app in Hlt.
    cbn [length] in Hlt.
    destruct (decide (i = length l)) as [->|Hne].
    + rewrite list_lookup_middle in Hi by reflexivity. injection Hi as ->.
      cbn [fst snd]. apply lookup_insert_eq.
    + assert (Hil : (i < length l)%nat) by lia.
      rewrite lookup_app_l in Hi by exact Hil.
      rewrite lookup_insert_ne.
      * apply (IH m0 i h t Hi). intros j p Hj Hp.
        apply (Hlast j p Hj). rewrite lookup_app_l; [exact Hp|].
        exact (lookup_lt_Some _ _ _ Hp).
      * apply (Hlast (length l) x Hil). apply list_lookup_middle. reflexivity.
Qed.

(** X16.  [toMapping] fails, with [ErrUnequalHostTargets], exactly when
    there are not as many hosts as targets.  Otherwise the mapping holds
    the hosts given and no other, and a host given more than once maps to
    the target at its last position. *)
Theorem toMapping_pairs (hosts targets : list string) :
  match cmd.toMapping hosts targets with
  | inl e => e = cmd.ErrUnequalHostTargets /\ length hosts <> length targets
  | inr m =>
      length hosts = length targets
      /\ (forall h, m !! h = None <-> ~ In h hosts)
      /\ (forall i h t,
            hosts !! i = Some h -> targets !! i = Some t ->
            (forall j, (i < j)%nat -> hosts !! j <> Some h) ->
            m !! h = Some t)
  end.
Proof.
  unfold cmd.toMapping.
  destruct (Nat.eqb_spec (length hosts) (length targets)) as [Hlen|Hlen]; cbn [negb].
  2: { split; [reflexivity | exact Hlen]. }
  split; [exact Hlen|]. split.
  - intros h. rewrite toMapping_fold_None, lookup_empty.
    change (map fst (zip hosts targets)) with ((zip hosts targets).*1).
    rewrite fst_zip by lia. tauto.
  - intros i h t Hh Ht Hlast. apply (toMapping_fold_last _ _ i).
    + apply lookup_zip_with_Some. exists h, t. auto.
    + intros j [h' t'] Hj Hp. apply lookup_zip_with_Some in Hp.
      destruct Hp as (x & y & Hxy & Hx & _). injection Hxy as -> ->.
      cbn [fst]. intros ->. exact (Hlast j Hj Hx).
Qed.

Lemma changeStep_fold_None existing :
  fold_left cmd.changeStep existing None = None.
Proof. induction existing as [|ep rest IH]; [reflexivity | exact IH]. Qed.

(** What the loop of [createChangeSet] leaves of the mapping, and what it
    adds to the records to delete. *)
Lemma changeStep_fold existing : forall m del m' del',
  fold_left cmd.changeStep existing (Some (m, del)) = Some (m', del') ->
  (forall h val,
      m' !! h = Some val <->
      m !! h = Some val
      /\ Forall (fun ep => ~ (DNSName ep = h /\ head (Targets ep) = Some val)) existing)
  /\ exists added,
      del' = del ++ added
      /\ Forall (fun ep => In ep existing
                           /\ exists val target rest,
                               m !! DNSName ep = Some val
                               /\ Targets ep = target :: rest
                               /\ val <> target) added
      /\ (forall ep, In ep existing -> isSome (m' !! DNSName ep) = true -> In ep added).
Proof.
  induction existing as [|ep rest IH]; intros m del m' del' H; cbn [fold_left] in H.
  { injection H as <- <-. split.
    - intros h val. split; [intros Hm; split; [exact Hm | constructor] | tauto].
    - exists []. rewrite app_nil_r. split; [reflexivity|].
      split; [constructor | intros ep []]. }
  cbn [cmd.changeStep] in H.
  destruct (m !! DNSName ep) as [val0|] eqn:Hm.
  2: { destruct (IH _ _ _ _ H) as (Hmap & added & Hdel & Hin & Hall).
       split.
       - intros h val. rewrite Hmap, Forall_cons. intuition congruence.
       - exists added. split; [exact Hdel|]. split.
         + eapply Forall_impl; [exact Hin|]. intros ep' (Hin' & Hex). split; [right; exact Hin' | exact Hex].
         + intros ep' [<- | Hin'] Hsome; [|apply Hall; assumption].
           destruct (m' !! DNSName ep) as [v|] eqn:Hv; [|discriminate].
           apply Hmap in Hv. destruct Hv as [Hv _]. congruence. }
  destruct (Targets ep) as [|target tl] eqn:Ht.
  { rewrite changeStep_fold_None in H. discriminate. }
  destruct (String.eqb_spec val0 target) as [->|Hne].
  - destruct (IH _ _ _ _ H) as (Hmap & added & Hdel & Hin & Hall).
    split.
    + intros h val. rewrite Hmap, Forall_cons, lookup_delete_Some, Ht. cbn [head].
      split.
      * intros ((Hneq & Hh) & Hrest). split; [exact Hh|]. split; [|exact Hrest].
        intros [Heq _]. contradiction.
      * intros (Hh & Hno & Hrest). split; [|exact Hrest]. split; [|exact Hh].
        intros Heq. apply Hno. split; [exact Heq|]. subst h. congruence.
    + exists added. split; [exact Hdel|]. split.
      * eapply Forall_impl; [exact Hin|]. intros ep' (Hin' & val & tg & rs & Hv & Htg & Hd).
        split; [right; exact Hin'|]. exists val, tg, rs.
        apply lookup_delete_Some in Hv. tauto.
      * intros ep' [<- | Hin'] Hsome; [|apply Hall; assumption].
        destruct (m' !! DNSName ep) as [v|] eqn:Hv; [|discriminate].
        apply Hmap in Hv. destruct Hv as [Hv _]. apply lookup_delete_Some in Hv.
        destruct Hv as [Hv _]. contradiction.
  - destruct (IH _ _ _ _ H) as (Hmap & added & Hdel & Hin & Hall).
    split.
    + intros h val. rewrite Hmap, Forall_cons, Ht. cbn [head].
      split; [|tauto]. intros (Hh & Hrest). split; [exact Hh|]. split; [|exact Hrest].
      intros [Heq Htg]. subst h. congruence.
    + exists (ep :: added). split; [rewrite Hdel, <- app_assoc; reflexivity|]. split.
      * constructor.
        -- split; [left; reflexivity|]. exists val0, target, tl. auto.
        -- eapply Forall_impl; [exact Hin|]. intros ep' (Hin' & Hex).
           split; [right; exact Hin' | exact Hex].
      * intros ep' [<- | Hin'] Hsome; [left; reflexivity | right; apply Hall; assumption].
Qed.

(** X17.  The change-set of [createChangeSet], when it returns.  It
    updates nothing.  A host of the mapping remains to create exactly when
    no existing record bears its name with the requested target first.
    Every record to delete is an existing one that bears a name of the
    mapping with another target first; and every existing record that
    bears the name of a host that remains to create is deleted. *)
Theorem createChangeSet_plan
    (NewEndpoint : string -> string -> list string -> option Endpoint)
    (existing : list Endpoint) (hostMappings : gmap string string)
    (changes : Changes_ (option Endpoint)) :
  cmd.createChangeSet NewEndpoint existing hostMappings = Some changes ->
  UpdateOld changes = [] /\ UpdateNew changes = []
  /\ (exists remaining : gmap string string,
         Create changes = cmd.toEndpoints NewEndpoint remaining
         /\ (forall h val,
                remaining !! h = Some val <->
                hostMappings !! h = Some val
                /\ Forall (fun ep => ~ (DNSName ep = h /\ head (Targets ep) = Some val))
                     existing)
         /\ (forall ep, In ep existing -> isSome (remaining !! DNSName ep) = true ->
                        In ep (Delete changes)))
  /\ Forall (fun ep => In ep existing
                       /\ exists val target rest,
                           hostMappings !! DNSName ep = Some val
                           /\ Targets ep = target :: rest
                           /\ val <> target) (Delete changes).
Proof.
  unfold cmd.createChangeSet.
  destruct (fold_left cmd.changeStep existing (Some (hostMappings, [])))
    as [[remaining del]|] eqn:Hfold; [|discriminate].
  intros [= <-]. cbn [UpdateOld UpdateNew Create Delete].
  destruct (changeStep_fold _ _ _ _ _ Hfold) as (Hmap & added & Hdel & Hin & Hall).
  cbn [app] in Hdel. subst del.
  split; [reflexivity|]. split; [reflexivity|]. split; [|exact Hin].
  exists remaining. split; [reflexivity|]. split; [exact Hmap | exact Hall].
Qed.

Lemma createChangeSet_plan_witness :
  let NewEndpoint := fun name kind targets =>
    match targets with
    | [target] => Some (Example.record name kind target "")
    | _ => None
    end in
  let existing := [ Example.record "old.example" "A" "1.1.1.1" "uuid-1";
                    Example.record "kept.example" "A" "2.2.2.2" "uuid-2" ] in
  let hostMappings : gmap string string :=
    {[ "old.example" := "9.9.9.9"; "kept.example" := "2.2.2.2" ]} in
  let changes :=
    {| Create := [ Some (Example.record "old.example" "A" "9.9.9.9" "") ];
       UpdateOld := []; UpdateNew := [];
       Delete := [ Example.record "old.example" "A" "1.1.1.1" "uuid-1" ];
       UpdateOldNil := true; UpdateNewNil := true |} in
  UpdateOld changes = [] /\ UpdateNew changes = []
  /\ (exists remaining : gmap string string,
         Create changes = cmd.toEndpoints NewEndpoint remaining
         /\ (forall h val,
                remaining !! h = Some val <->
                hostMappings !! h = Some val
                /\ Forall (fun ep => ~ (DNSName ep = h /\ head (Targets ep) = Some val))
                     existing)
         /\ (forall ep, In ep existing -> isSome (remaining !! DNSName ep) = true ->
                        In ep (Delete changes)))
  /\ Forall (fun ep => In ep existing
                       /\ exists val target rest,
                           hostMappings !! DNSName ep = Some val
                           /\ Targets ep = target :: rest
                           /\ val <> target) (Delete changes).
Proof.
  apply (createChangeSet_plan
           (fun name kind targets =>
              match targets with
              | [target] => Some (Example.record name kind target "")
              | _ => None
              end)
           [ Example.record "old.example" "A" "1.1.1.1" "uuid-1";
             Example.record "kept.example" "A" "2.2.2.2" "uuid-2" ]
           {[ "old.example" := "9.9.9.9"; "kept.example" := "2.2.2.2" ]}).
  vm_compute. reflexivity.
Defined.
Lemma changeStep_fold_total existing :
  Forall (fun ep => Targets ep <> []) existing ->
  forall acc, isSome acc = true ->
  isSome (fold_left cmd.changeStep existing acc) = true.
Proof.
  induction 1 as [|ep rest Hep _ IH]; intros acc Hacc; [exact Hacc|].
  cbn [fold_left]. apply IH.
  destruct acc as [[m del]|]; [|discriminate]. cbn [cmd.changeStep].
  destruct (m !! DNSName ep) as [val|]; [|reflexivity].
  destruct (Targets ep) as [|target tl]; [contradiction|].
  destruct (String.eqb val target); reflexivity.
Qed.

(** Every record [ToEndpoints] returns has a target. *)
Lemma ToEndpoints_targets rows :
  Forall (fun ep => Targets ep <> []) (ToEndpoints {| Rows := rows |}).
Proof.
  induction rows as [|row rows IH]; [constructor|].
  rewrite ToEndpoints_cons, ToEndpoints_single. apply Forall_app. split; [|exact IH].
  constructor; [discriminate|].
  unfold endpointsFromBase64Description.
  destruct (negb (GoStrings.HasPrefix (Description row) DescriptionPrefix));
    [constructor|].
  destruct (Base64.DecodeString _); [|constructor].
  repeat constructor; discriminate.
Qed.

(** What [Records] returns was made by [ToEndpoints]. *)
Lemma Records_ToEndpoints rt st found st' :
  Records rt st = (inr found, st') ->
  exists rows, found = ToEndpoints {| Rows := rows |}.
Proof.
  rewrite Records_unfold.
  destruct (NewRequestWithContext rt MethodGet (req_url (searchRequest rt)));
    [discriminate|].
  cbv zeta. destruct (client_Do rt (trace st) _) as [msg|resp]; [discriminate|].
  destruct (negb (StatusCode resp =? StatusOK)); [discriminate|].
  unfold marshalEndpoints. destruct (BodyErr resp); [discriminate|].
  destruct (json_Unmarshal_SearchHostResp rt (Body resp)) as [msg|[rows]];
    [discriminate|].
  intros [= <- _]. exists rows. reflexivity.
Qed.

(** The search is the one call of a [Records] that returns records. *)
Lemma Records_success_calls rt st found st' :
  Records rt st = (inr found, st') ->
  issued st st' = [(OpSearch, searchRequest rt)].
Proof.
  intros Hrec. pose proof (Records_trace rt st) as Htr.
  pose proof (Records_unfold rt st) as Hun. rewrite Hrec in Htr, Hun.
  cbn [snd] in Htr.
  destruct (NewRequestWithContext rt MethodGet (req_url (searchRequest rt)));
    [discriminate Hun|].
  exact (issued_app _ _ _ Htr).
Qed.

Lemma pointers_None l : cmd.pointers l = None -> In None l.
Proof.
  induction l as [|[ep|] l IH]; cbn [cmd.pointers]; [discriminate | | left; reflexivity].
  destruct (cmd.pointers l); [discriminate|]. intros _. right. apply IH. reflexivity.
Qed.

Lemma toMapping_fold_Some (l : list (string * string)) :
  forall (m0 : gmap string string) h t,
  fold_left (fun (out : gmap string string) (pair : string * string) =>
               <[ fst pair := snd pair ]> out) l m0 !! h = Some t ->
  m0 !! h = Some t \/ In (h, t) l.
Proof.
  induction l as [|[h0 t0] l IH]; intros m0 h t H; cbn [fold_left fst snd] in H.
  - left. exact H.
  - apply IH in H. destruct H as [H|H]; [|right; right; exact H].
    apply lookup_insert_Some in H. destruct H as [[-> ->]|[_ H]].
    + right. left. reflexivity.
    + left. exact H.
Qed.

(** A mapping pairs a host given with a target given. *)
Lemma toMapping_Some hosts targets m h t :
  cmd.toMapping hosts targets = inr m -> m !! h = Some t ->
  In h hosts /\ In t targets.
Proof.
  unfold cmd.toMapping.
  destruct (negb (Nat.eqb (length hosts) (length targets))); [discriminate|].
  intros [= <-] H. apply toMapping_fold_Some in H.
  destruct H as [H|H]; [rewrite lookup_empty in H; discriminate|].
  apply list_elem_of_In in H.
  split; apply list_elem_of_In; [eapply elem_of_zip_l | eapply elem_of_zip_r]; exact H.
Qed.

(** X18.  How [doUpsert] ends.  It never panics on the index of
    [ep.Targets[0]]: [createChangeSet] reads the first target of the
    records it is given, and every record [Records] returns has one,
    whatever the remote answered.  It panics on a nil pointer only when
    [endpoint.NewEndpoint] returns nil for a host given with a target
    given, and then the search is the one call that was made.  So it
    returns whenever [endpoint.NewEndpoint] returns a pointer for every
    host and target given. *)
Theorem doUpsert_returns
    (NewEndpoint : string -> string -> list string -> option Endpoint)
    (rt : Runtime) (hosts targets : list string) (st : State) :
  let '(ending, st') := cmd.doUpsert NewEndpoint rt hosts targets st in
  ending <> cmd.IndexPanic
  /\ (ending = cmd.NilPanic ->
      issued st st' = [(OpSearch, searchRequest rt)]
      /\ exists h t, In h hosts /\ In t targets
                     /\ NewEndpoint h RecordTypeA [t] = None)
  /\ ((forall h t, In h hosts -> In t targets ->
                   isSome (NewEndpoint h RecordTypeA [t]) = true) ->
      exists err, ending = cmd.Returned err).
Proof.
  unfold cmd.doUpsert.
  destruct (cmd.toMapping hosts targets) as [err|m] eqn:Hmap.
  { cbn [ret]. split; [discriminate|]. split; [discriminate | intros _; eauto]. }
  unfold bind. destruct (Records rt st) as [[err|found] st1] eqn:Hrec.
  { cbn [ret]. split; [discriminate|]. split; [discriminate | intros _; eauto]. }
  pose proof (Records_success_calls _ _ _ _ Hrec) as Hcalls.
  destruct (Records_ToEndpoints _ _ _ _ Hrec) as (rows & ->).
  pose proof (changeStep_fold_total _ (ToEndpoints_targets rows)
                (Some (m, [])) eq_refl) as Htotal.
  unfold cmd.createChangeSet.
  destruct (fold_left cmd.changeStep _ _) as [[remaining del]|] eqn:Hfold;
    [|discriminate].
  cbn [Create UpdateOld UpdateNew Delete UpdateOldNil UpdateNewNil].
  destruct (cmd.pointers (cmd.toEndpoints NewEndpoint remaining)) as [create|] eqn:Hptr.
  { destruct (ApplyChanges rt _ st1) as [[e|] st2]; cbn [ret];
      (split; [discriminate|]); (split; [discriminate | intros _; eauto]). }
  cbn [ret].
  assert (Hnil : exists h t, In h hosts /\ In t targets
                             /\ NewEndpoint h RecordTypeA [t] = None).
  { apply pointers_None in Hptr. unfold cmd.toEndpoints in Hptr.
    apply in_map_iff in Hptr. destruct Hptr as ([h t] & Hnew & Hin).
    cbn [fst snd] in Hnew. apply list_elem_of_In, elem_of_map_to_list in Hin.
    destruct (changeStep_fold _ _ _ _ _ Hfold) as (Hrem & _).
    apply Hrem in Hin. destruct Hin as [Hin _].
    destruct (toMapping_Some _ _ _ _ _ Hmap Hin) as [Hh Ht].
    exists h, t. auto. }
  split; [discriminate|]. split; [intros _; split; [exact Hcalls | exact Hnil]|].
  intros Hall. destruct Hnil as (h & t & Hh & Ht & Hnone).
  specialize (Hall h t Hh Ht). rewrite Hnone in Hall. discriminate.
Qed.

(** The nil pointer is met: a host whose first label has 64 bytes, on a
    remote that holds no record. *)
Example doUpsert_nil_pointer :
  fst (cmd.doUpsert Example.NewEndpoint (Example.runtime Example.obliging)
         [ "aaaaaaaaaaaaaaaaaaaaaaaaaaaaaaaaaaaaaaaaaaaaaaaaaaaaaaaaaaaaaaaa.example" ] [ "1.2.3.4" ] Example.fresh)
  = cmd.NilPanic.
Proof. vm_compute. reflexivity. Qed.

(** X19.  Of the records read, [planChanges] keeps the address records
    of the rows that bear an identifier and are named by a host to delete,
    in the order of the rows: an ownership record [ToEndpoints] made up
    from a description is never selected for deletion. *)
Theorem selected_records (toDelete : gset string) (rows : list Record_) :
  cmd.selected toDelete (ToEndpoints {| Rows := rows |})
  = map marshalledEndpoint
      (List.filter
         (fun row =>
            bool_decide (Hostname row +:+ "." +:+ Domain row ∈ toDelete)
            && negb (String.eqb (UUID row) ""))
         rows).
Proof.
  unfold cmd.selected.
  induction rows as [|row rows IH]; [reflexivity|].
  rewrite ToEndpoints_cons, ToEndpoints_single, List.filter_app, IH.
  cbn [List.filter].
  change (DNSName (marshalledEndpoint row)) with (Hostname row +:+ "." +:+ Domain row).
  change (SetIdentifier (marshalledEndpoint row)) with (UUID row).
  assert (Hown : List.filter
                   (fun record =>
                      bool_decide (DNSName record ∈ toDelete)
                      && negb (String.eqb (SetIdentifier record) ""))
                   match endpointsFromBase64Description
                           (Hostname row +:+ "." +:+ Domain row) (Description row) with
                   | Some txtEndpoints => txtEndpoints
                   | None => []
                   end = []).
  { unfold endpointsFromBase64Description.
    destruct (negb (GoStrings.HasPrefix (Description row) DescriptionPrefix));
      [reflexivity|].
    destruct (Base64.DecodeString _); [|reflexivity].
    cbn [List.filter SetIdentifier String.eqb negb]. rewrite !andb_false_r. reflexivity. }
  destruct (bool_decide (Hostname row +:+ "." +:+ Domain row ∈ toDelete)
            && negb (String.eqb (UUID row) "")).
  - cbn [map app]. rewrite Hown. reflexivity.
  - rewrite Hown. reflexivity.
Qed.

Lemma toSet_existsb hosts name :
  bool_decide (name ∈ cmd.toSet hosts) = existsb (String.eqb name) hosts.
Proof.
  unfold cmd.toSet. destruct (existsb (String.eqb name) hosts) eqn:Hex.
  - apply bool_decide_eq_true, elem_of_list_to_set, list_elem_of_In.
    apply existsb_exists in Hex. destruct Hex as (host & Hin & Heq).
    apply String.eqb_eq in Heq. subst host. exact Hin.
  - apply bool_decide_eq_false. rewrite elem_of_list_to_set, list_elem_of_In.
    intros Hin. assert (Hex' : existsb (String.eqb name) hosts = true).
    { apply existsb_exists. exists name. split; [exact Hin | apply String.eqb_refl]. }
    congruence.
Qed.

(** X20.  The calls of the delete command.  Of the records the search
    returned, take those that bear an identifier and a name given on the
    command line, in the order they were returned.  The calls the command
    makes are the first calls of this sequence: the search, the delete
    call of each of these records, and the reconfigure call; nothing is
    ever created.  When the command returns no error and there was such a
    record, all the calls of the sequence were made.  With no name given,
    the command fails with [ErrMissingHosts] and does nothing. *)
Theorem delete_command_calls (rt : Runtime) (hosts : list string) (st : State) :
  let found :=
    match fst (Records rt {| knownRecords := ∅; trace := trace st |}) with
    | inr found => found
    | inl _ => []
    end in
  let chosen :=
    List.filter
      (fun ep => existsb (String.eqb (DNSName ep)) hosts
                 && negb (String.eqb (SetIdentifier ep) ""))
      found in
  let '(res, st') := cmd.deleteEndpoints rt hosts st in
  (exists rest,
      (OpSearch, searchRequest rt)
        :: deleteCalls rt chosen ++ [(OpReconfigure, reconfigureRequest rt)]
      = issued st st' ++ rest
      /\ (res = None -> chosen <> [] -> rest = []))
  /\ (hosts = [] -> res = Some cmd.ErrMissingHosts /\ st' = st).
Proof.
  cbv zeta. unfold cmd.deleteEndpoints.
  destruct hosts as [|host hosts'] eqn:Hhosts.
  { cbn [length Nat.eqb ret]. unfold issued. rewrite drop_all.
    split; [|auto]. eexists. split; [reflexivity | discriminate]. }
  rewrite <- Hhosts. replace (Nat.eqb (length hosts) 0) with false
    by (rewrite Hhosts; reflexivity).
  unfold bind, cmd.New, cmd.planChanges, bind, ret.
  set (st0 := {| knownRecords := ∅; trace := trace st |}).
  pose proof (Records_trace rt st0) as Htr0.
  pose proof (Records_unfold rt st0) as Hun.
  destruct (Records rt st0) as [[err|found] st1] eqn:Hrec; cbn [fst snd] in Htr0 |- *;
    change (trace st0) with (trace st) in Htr0.
  { split; [|intros ->; discriminate].
    rewrite (issued_app st st1 _ Htr0).
    destruct (NewRequestWithContext rt MethodGet _);
      (eexists; split; [reflexivity | intros _ Hne; contradiction]). }
  assert (Hcalls : issued st0 st1 = [(OpSearch, searchRequest rt)])
    by exact (Records_success_calls _ _ _ _ Hrec).
  assert (Htr1 : trace st1 = trace st ++ [(OpSearch, searchRequest rt)]).
  { revert Hun. destruct (NewRequestWithContext rt MethodGet _); [discriminate|].
    intros _. exact Htr0. }
  clear Htr0 Hun.
  assert (Hsame : cmd.selected (cmd.toSet hosts) found
                  = List.filter
                      (fun ep => existsb (String.eqb (DNSName ep)) hosts
                                 && negb (String.eqb (SetIdentifier ep) ""))
                      found).
  { unfold cmd.selected. apply List.filter_ext. intros ep.
    rewrite toSet_existsb. reflexivity. }
  rewrite <- Hsame. cbn [Delete].
  destruct (cmd.selected (cmd.toSet hosts) found) as [|ep0 eps] eqn:Hsel.
  { cbn [length Nat.eqb]. split; [|intros ->; discriminate].
    rewrite (issued_app st st1 _ Htr1).
    eexists. split; [reflexivity | intros _ Hne; contradiction]. }
  cbn [length Nat.eqb]. rewrite <- Hsel.
  set (changes := {| Create := []; UpdateOld := []; UpdateNew := [];
                     Delete := cmd.selected (cmd.toSet hosts) found;
                     UpdateOldNil := true; UpdateNewNil := true |}).
  assert (Hch : HasChanges changes = true).
  { unfold HasChanges, changes. cbn [Create Delete]. rewrite Hsel. reflexivity. }
  destruct (ApplyChanges rt changes st1) as [res st2] eqn:Hrun.
  destruct (ApplyChanges_prefix _ _ _ _ _ Hch Hrun)
    as (_ & calls & rest & Htr & Hplan & Hnone).
  assert (Hissued : issued st st2 = (OpSearch, searchRequest rt) :: calls).
  { apply issued_app. rewrite Htr, Htr1, <- app_assoc. reflexivity. }
  assert (Hseq : (OpSearch, searchRequest rt)
                   :: deleteCalls rt (cmd.selected (cmd.toSet hosts) found)
                      ++ [(OpReconfigure, reconfigureRequest rt)]
                 = ((OpSearch, searchRequest rt) :: calls) ++ rest).
  { rewrite <- app_comm_cons. f_equal.
    transitivity (plannedCalls rt (knownRecords st2) changes); [|exact Hplan].
    unfold plannedCalls, changes, addCalls.
    cbn [Create UpdateOld UpdateNew Delete app flat_map]. rewrite app_nil_r.
    reflexivity. }
  destruct res as [e|]; (split; [|intros ->; discriminate]);
    rewrite Hissued; exists rest; (split; [exact Hseq|]).
  - discriminate.
  - intros _ _. apply Hnone. reflexivity.
Qed.
